(** * swanky-cli: the [init] command and its conversion pipeline

    A shallow embedding of the [Init] command and of the functions of its
    file: the JavaScript values it manipulates, the manifest merges, the
    candidate pipeline (discovery result, confirmation gate, module-name
    resolver), the test directory probe, the project-directory check and the
    task queue. *)

From stdpp Require Import base option list strings gmap pretty.
From Stdlib Require Import ZArith Lia.

#[local] Set Warnings "-register-all".
#[local] Open Scope string_scope.
#[local] Open Scope list_scope.

(** ** JavaScript values *)

Module Js.

(** The values that flow through the command: what [JSON.parse] and
    [TOML.parse] produce, what a task's operation resolves to, and
    [undefined].  An object is a finite map from property names to values.
    An array is an object too: besides its elements it can carry named
    properties ([a.members = ...] is legal on an array).  Numbers are the
    integer-valued ones; no path of the command inspects a fraction. *)
Inductive jsval : Type :=
| JUndefined
| JNull
| JBool (b : bool)
| JNum (n : Z)
| JStr (s : string)
| JArr (elems : list jsval) (props : gmap string jsval)
| JObj (props : gmap string jsval).

(** An array as [JSON.parse] builds it: elements only. *)
Definition JArray (elems : list jsval) : jsval := JArr elems ∅.

(** [ToBoolean]: what [if (v)], [!v] and [v && ...] test. *)
Definition truthy (v : jsval) : bool :=
  match v with
  | JUndefined | JNull => false
  | JBool b => b
  | JNum n => negb (n =? 0)%Z
  | JStr s => negb (String.eqb s "")
  | JArr _ _ | JObj _ => true
  end.

(** [typeof v === "object" && v !== null] (no functions occur here). *)
Definition isObject (v : jsval) : bool :=
  match v with
  | JArr _ _ | JObj _ => true
  | _ => false
  end.


(** Reading a named property [v.k] off a value that is neither [null] nor
    [undefined]; [JUndefined] when there is none. Primitives have no own
    named property that the command reads. *)
Definition getProp (v : jsval) (k : string) : jsval :=
  match v with
  | JObj p | JArr _ p => default JUndefined (p !! k)
  | _ => JUndefined
  end.

(** Errors thrown along the way. [SysError] is an error of the runtime or of
    an external operation (file system, TOML parser, child process), with its
    message. *)
Inductive exn : Type :=
| InputError (msg : string) (cause : option exn)
| UnknownError (msg : string) (cause : exn)
| TypeError (msg : string)
| RangeError (msg : string)
| SysError (msg : string).

(** [error.message] *)
Definition message (e : exn) : string :=
  match e with
  | InputError m _ | UnknownError m _ | TypeError m | RangeError m | SysError m => m
  end.

(** [s.includes(sub)] *)
Fixpoint includes (s sub : string) : bool :=
  String.prefix sub s ||
  match s with
  | EmptyString => false
  | String _ s' => includes s' sub
  end.

(** A computation that may throw. *)
Inductive result (A : Type) : Type :=
| Ok (a : A)
| Throw (e : exn).
Arguments Ok {A} a.
Arguments Throw {A} e.

Definition bind {A B} (r : result A) (k : A -> result B) : result B :=
  match r with
  | Ok a => k a
  | Throw e => Throw e
  end.

(** Strict-mode assignment [target.k = v]. Objects and arrays take the
    property; assigning through [undefined] or [null], or onto a primitive,
    throws a [TypeError] (the command is an ES module, hence strict). *)
Definition setProp (target : jsval) (k : string) (v : jsval) : result jsval :=
  match target with
  | JObj p => Ok (JObj (<[k := v]> p))
  | JArr e p => Ok (JArr e (<[k := v]> p))
  | JUndefined | JNull => Throw (TypeError ("Cannot set properties of undefined (setting '" ++ k ++ "')"))
  | _ => Throw (TypeError ("Cannot create property '" ++ k ++ "'"))
  end.

End Js.
Export Js.

Notation "x <- r ;; k" := (bind r (fun x => k))
  (at level 100, r at next level, right associativity, only parsing).

(** ** lodash's [merge], as the package manifest merge uses it *)

Module Lodash.

(** [safeGet]: a source entry under the key [__proto__] whose value is an
    object or an array is never merged. *)
Definition skipped (k : string) (v : jsval) : bool :=
  String.eqb k "__proto__" && isObject v.

(** *** Array indices and the length of an array

    A property key is an array index when it is the canonical decimal
    spelling of an integer below [2^32 - 1]. *)
Definition digit_of (c : Ascii.ascii) : option N :=
  let n := Ascii.N_of_ascii c in
  if ((48 <=? n) && (n <=? 57))%N then Some (n - 48)%N else None.

Fixpoint parse_digits (s : string) (acc : N) : option N :=
  match s with
  | EmptyString => Some acc
  | String c s' =>
      match digit_of c with
      | Some d => parse_digits s' (10 * acc + d)%N
      | None => None
      end
  end.

Definition index_N (k : string) : option N :=
  match parse_digits k 0 with
  | Some n => if String.eqb (pretty n) k && (n <? 4294967295)%N then Some n else None
  | None => None
  end.

Definition index_of (k : string) : option nat := N.to_nat <$> index_N k.

Definition is_index (k : string) : bool :=
  match index_N k with Some _ => true | None => false end.

(** The key under which an array holds position [j]. *)
Definition index_key (j : nat) : option string :=
  if (N.of_nat j <? 4294967295)%N then Some (pretty (N.of_nat j)) else None.

(** One more than the largest array index among the keys of [ef]. *)
Definition index_bound (ef : gmap string jsval) : nat :=
  foldr Nat.max 0%nat (omap (fun kv => S <$> index_of (fst kv)) (map_to_list ef)).

(** [array[key]] for an array with the given elements and named
    properties, which has grown to length [n]: an element, the length, or a
    named property. *)
Definition array_get (te : list jsval) (tp : gmap string jsval) (n : nat) (k : string)
    : option jsval :=
  match index_N k with
  | Some i => if (i <? N.of_nat (length te))%N then te !! N.to_nat i else None
  | None => if String.eqb k "length" then Some (JNum (Z.of_nat n)) else tp !! k
  end.

(** A key of an array that is neither an index nor its length. *)
Definition is_named (k : string) : bool :=
  negb (is_index k) && negb (String.eqb k "length").

Section Engine.

(** [StringToNumber] of the engine, where its result is an integer: [None]
    stands for [NaN], the infinities and the fractions. *)
Variable stringToNumber : string -> option Z.

(** [ToNumber], where its result is an integer. An array converts through
    its string: the empty array through the empty string, an array of one
    element through that element's string ([null] and [undefined] give the
    empty string, an integer its own spelling, which reads back as itself),
    and any longer array through a string with a comma, which is no
    number. *)
Fixpoint toInteger (v : jsval) : option Z :=
  match v with
  | JUndefined => None
  | JNull => Some 0%Z
  | JBool b => Some (if b then 1 else 0)%Z
  | JNum n => Some n
  | JStr s => stringToNumber s
  | JObj _ => None
  | JArr [] _ => stringToNumber ""
  | JArr [x] _ =>
      match x with
      | JUndefined | JNull => stringToNumber ""
      | JNum n => Some n
      | JStr s => stringToNumber s
      | JArr _ _ => toInteger x
      | JBool _ | JObj _ => None
      end
  | JArr _ _ => None
  end.

(** [array.length = v]: the new length, when [v] converts to an integer
    below [2^32]; a [RangeError] otherwise. *)
Definition newLength (v : jsval) : option nat :=
  match toInteger v with
  | Some z => if ((0 <=? z) && (z <? 4294967296))%Z then Some (Z.to_nat z) else None
  | None => None
  end.

(** The assignments [array[key] = value] for the keys of [merged], in the
    order of the keys of an object: the array indices, ascending, then the
    other keys. An index past the end extends the array; a hole reads as
    [undefined] and is written so. The length is assigned last among the
    three kinds even though it may come earlier among the names: a named
    property is not touched by it. The elements and the named properties
    afterwards (where the assignment to the length throws, the elements
    before it). *)
Definition assigned_elems (te : list jsval) (n : nat) (merged : gmap string jsval) : list jsval :=
  let indexed :=
    map (fun j =>
           match index_key j with
           | Some k => default (default JUndefined (te !! j)) (merged !! k)
           | None => default JUndefined (te !! j)
           end) (seq 0 n) in
  match merged !! "length" with
  | Some v =>
      match newLength v with
      | Some len => resize len JUndefined indexed
      | None => indexed
      end
  | None => indexed
  end.

Definition assigned_props (tp merged : gmap string jsval) : gmap string jsval :=
  filter (fun kv => is_named (fst kv) = true) merged ∪ tp.

(** Whether the assignment to the length throws. *)
Definition length_rejected (merged : gmap string jsval) : bool :=
  match merged !! "length" with
  | Some v => match newLength v with Some _ => false | None => true end
  | None => false
  end.

Section MergeWith.
Variable f : option jsval -> jsval -> jsval.

(** [baseMerge] over the keys of the source: every source key receives the
    merge of the destination's value (if any) with the source's; the
    destination's other keys stay. *)
Definition merge_props_with (tf ef : gmap string jsval) : gmap string jsval :=
  map_imap (fun k v => if skipped k v then None else Some (f (tf !! k) v)) ef ∪ tf.

(** The same over array indices: position [i] of the source is merged into
    position [i] of the destination; destination elements past the end of
    the source stay. *)
Fixpoint merge_elems_with (te ee : list jsval) {struct ee} : list jsval :=
  match ee with
  | [] => te
  | v :: ee' => f (head te) v :: merge_elems_with (tail te) ee'
  end.

(** [baseMerge] into an array, from a source with the elements [ee] and the
    keys [ep] (an array with its named properties, or an object, which has
    no elements): the elements first, then, for every other key of the
    source, the value [array[key]] merged with the source's, to be assigned
    to the array under that key. *)
Definition merged_keys (te : list jsval) (tp : gmap string jsval) (n : nat)
    (ep : gmap string jsval) : gmap string jsval :=
  map_imap (fun k v => if skipped k v then None else Some (f (array_get te tp n k) v)) ep.

Definition merge_array_with (te : list jsval) (tp : gmap string jsval)
    (ee : list jsval) (ep : gmap string jsval) : jsval :=
  let me := merge_elems_with te ee in
  let n := Nat.max (length me) (index_bound ep) in
  let merged := merged_keys me tp n ep in
  JArr (assigned_elems me n merged) (assigned_props tp merged).
End MergeWith.

Section ThrowsWith.
Variable f : option jsval -> jsval -> jsval.
Variable g : option jsval -> jsval -> bool.

(** Whether one of the merges under the keys of the source throws. *)
Definition props_throw_with (get : string -> option jsval) (ef : gmap string jsval) : bool :=
  negb (Nat.eqb
          (size (map_imap (fun k v => if negb (skipped k v) && g (get k) v then Some v else None)
                   ef))
          0).

Fixpoint elems_throw_with (te ee : list jsval) {struct ee} : bool :=
  match ee with
  | [] => false
  | v :: ee' => g (head te) v || elems_throw_with (tail te) ee'
  end.

Definition array_throws_with (te : list jsval) (tp : gmap string jsval)
    (ee : list jsval) (ep : gmap string jsval) : bool :=
  let me := merge_elems_with f te ee in
  let n := Nat.max (length me) (index_bound ep) in
  elems_throw_with te ee
  || props_throw_with (array_get me tp n) ep
  || length_rejected (merged_keys f me tp n ep).
End ThrowsWith.

(** [copyArray] of an array-like object: its [length] first indexed
    properties, [undefined] where one is missing. *)
Definition copyArrayLike (tf : gmap string jsval) (n : Z) : list jsval :=
  map (fun i : nat => default JUndefined (tf !! pretty i)) (seq 0 (Z.to_nat n)).

(** The array a source array is merged into ([baseMergeDeep]): the
    destination array itself; a copy of an array-like destination object
    ([isLength (objValue.length)]); otherwise a fresh [[]]. *)
Definition array_base (tv : option jsval) : list jsval * gmap string jsval :=
  match tv with
  | Some (JArr te tp) => (te, tp)
  | Some (JObj tf) =>
      match tf !! "length" with
      | Some (JNum n) =>
          if ((0 <=? n) && (n <=? 9007199254740991))%Z then (copyArrayLike tf n, ∅) else ([], ∅)
      | _ => ([], ∅)
      end
  | _ => ([], ∅)
  end.

(** The value [merge] leaves under a key whose destination value is [tv]
    (absent: [None]) and whose source value is [ev], when nothing throws.

    - a source object is merged key by key into a destination object; into a
      destination array its keys are assigned onto the array: an index onto
      the element, [length] onto the length, any other as a named property;
      over anything else it is merged into a fresh [{}];
    - a source array is merged index by index into [array_base];
    - a source [undefined] is skipped when the destination has the key;
    - any other source value ([null] included) is assigned. *)
Fixpoint merge_value (tv : option jsval) (ev : jsval) {struct ev} : jsval :=
  match ev with
  | JObj ef =>
      match tv with
      | Some (JObj tf) => JObj (merge_props_with merge_value tf ef)
      | Some (JArr te tp) => merge_array_with merge_value te tp [] ef
      | _ => JObj (merge_props_with merge_value ∅ ef)
      end
  | JArr ee ep =>
      let '(te, tp) := array_base tv in
      merge_array_with merge_value te tp ee ep
  | JUndefined => default JUndefined tv
  | _ => ev
  end.

(** Whether that merge throws: an assignment to the length of an array,
    here or further down, is rejected. *)
Fixpoint merge_throws (tv : option jsval) (ev : jsval) {struct ev} : bool :=
  match ev with
  | JObj ef =>
      match tv with
      | Some (JObj tf) => props_throw_with merge_throws (fun k => tf !! k) ef
      | Some (JArr te tp) => array_throws_with merge_value merge_throws te tp [] ef
      | _ => props_throw_with merge_throws (fun _ => None) ef
      end
  | JArr ee ep =>
      let '(te, tp) := array_base tv in
      array_throws_with merge_value merge_throws te tp ee ep
  | _ => false
  end.

Definition merge_props := merge_props_with merge_value.

(** The error of a rejected length. *)
Definition invalidLength : exn := RangeError "Invalid array length".

(** [merge(object, source)] on two parsed package manifests (JSON
    objects): the merged object, or the [RangeError]. *)
Definition merge (object source : gmap string jsval) : result (gmap string jsval) :=
  if props_throw_with merge_throws (fun k => object !! k) source
  then Throw invalidLength
  else Ok (merge_props object source).

End Engine.





Definition templateFiles : gmap string jsval := {[ "files" := JArray [JStr "a"; JStr "b"] ]}.


(** A manifest whose [files] is an object with an index for a key, and one
    whose [files] is an object with a length. *)
Definition indexedFiles : gmap string jsval := {[ "files" := JObj {[ "0" := JStr "z" ]} ]}.
Definition emptiedFiles : gmap string jsval := {[ "files" := JObj {[ "length" := JNum 0 ]} ]}.
Definition badLengthFiles : gmap string jsval :=
  {[ "files" := JObj {[ "length" := JNum (-1) ]} ]}.




End Lodash.

(** ** The host: [node:path], [fs] and [globby] *)

Module Host.

(** One discovered candidate ([PathEntry]). [dirent_isDirectory] is what
    [dirent.isDirectory()] answers. [moduleName] is attached by the resolver
    and [group] by the confirmation gate (its checkbox values are
    [{ ...entry, group }]); both are absent on a freshly discovered entry. *)
Record PathEntry : Type := mkPathEntry {
  dirent_isDirectory : bool;
  name : string;
  path : string;
  moduleName : option jsval;
  group : option string
}.

(** What the command observes of its host while it plans the queue. Each
    field stands for the library call of the same name ([path.resolve] with
    one argument resolves against [cwd]); [readToml] is
    [readFile] followed by [TOML.parse]; [globby] is the query
    [globby(patterns, { absolute: true, onlyDirectories, deep: 1,
    objectMode: true })], which rejects when the file system does; and
    [stringToNumber] is the engine's conversion of a string to a number,
    where the number is an integer. *)
Record Host : Type := mkHost {
  cwd : string;
  resolve : string -> string -> string;
  join : string -> string -> string;
  basename : string -> string;
  stat : string -> result bool;
  readdir : string -> result (list string);
  pathExists : string -> bool;
  readToml : string -> result (gmap string jsval);
  globby : list string -> bool -> result (list PathEntry);
  stringToNumber : string -> option Z
}.

End Host.
Export Host.

(** ** The candidate pipeline: confirmation gate and module-name resolver *)

Module Candidates.

(** [CopyCandidates] by value: the three groups, [tests] optional. *)
Record CopyCandidates : Type := mkCopyCandidates {
  contracts : list PathEntry;
  crates : list PathEntry;
  tests : option (list PathEntry)
}.

(** *** The store

    [confirmCopyList] and [detectModuleNames] receive a reference to a
    [CopyCandidates] object whose groups are arrays, themselves references.
    A store cell is such an object or such an array; a location is an index
    into the store. Entries are kept by value: neither function writes to an
    entry, each builds new ones with a spread. *)
Abbreviation loc := nat.

Inductive cell : Type :=
| CArray (items : list PathEntry)
| CObject (contracts_ref crates_ref : loc) (tests_ref : option loc).

Abbreviation store := (list cell).

(** [new]: the fresh object goes at the end of the store. *)
Definition alloc (h : store) (c : cell) : loc * store := (length h, h ++ [c]).

Definition read_array (h : store) (l : loc) : option (list PathEntry) :=
  match h !! l with
  | Some (CArray items) => Some items
  | _ => None
  end.

(** The groups an object holds, read through its references. *)
Definition load (h : store) (l : loc) : option CopyCandidates :=
  match h !! l with
  | Some (CObject a b t) =>
      cs ← read_array h a;
      cr ← read_array h b;
      match t with
      | None => Some (mkCopyCandidates cs cr None)
      | Some t' => ts ← read_array h t'; Some (mkCopyCandidates cs cr (Some ts))
      end
  | _ => None
  end.

(** Allocating an object literal [{ contracts: [...], crates: [...], tests: [...] }]. *)
Definition alloc_candidates (h : store) (c : CopyCandidates) : loc * store :=
  let '(a, h1) := alloc h (CArray (contracts c)) in
  let '(b, h2) := alloc h1 (CArray (crates c)) in
  match tests c with
  | Some ts =>
      let '(t, h3) := alloc h2 (CArray ts) in
      alloc h3 (CObject a b (Some t))
  | None => alloc h2 (CObject a b None)
  end.

(** A store that grew by allocation only: what was there is there still. *)
Definition extends (h h' : store) : Prop :=
  forall i x, h !! i = Some x -> h' !! i = Some x.

(** A reference to a candidate set none of whose parts was in [h]: the
    object and its three groups are new. *)
Definition fresh_set (h h' : store) (l' : loc) : Prop :=
  h !! l' = None /\
  exists a b t,
    h' !! l' = Some (CObject a b (Some t)) /\
    h !! a = None /\ h !! b = None /\ h !! t = None.

(** *** [confirmCopyList] *)

(** The value of a checkbox choice: [{ ...entry, group: g }]. *)
Definition choice (g : string) (e : PathEntry) : PathEntry :=
  mkPathEntry (dirent_isDirectory e) (name e) (path e) (moduleName e) (Some g).

(** The choices in the order the prompt lists them (separators carry no
    value). *)
Definition choices (cs cr ts : list PathEntry) : list PathEntry :=
  map (choice "contracts") cs ++ map (choice "crates") cr ++ map (choice "tests") ts.

(** The checkbox prompt answers with the values of the choices the user left
    checked, in the order listed. The user is [sel]: whether the choice at a
    position stays checked. *)
Fixpoint checked_from (sel : nat -> bool) (i : nat) (l : list PathEntry) : list PathEntry :=
  match l with
  | [] => []
  | e :: l' =>
      if sel i then e :: checked_from sel (S i) l' else checked_from sel (S i) l'
  end.

(** [resultingList[item.group]?.push(item)] *)
Definition push_item (r : CopyCandidates) (item : PathEntry) : CopyCandidates :=
  match group item with
  | Some g =>
      if String.eqb g "contracts" then mkCopyCandidates (contracts r ++ [item]) (crates r) (tests r)
      else if String.eqb g "crates" then mkCopyCandidates (contracts r) (crates r ++ [item]) (tests r)
      else if String.eqb g "tests" then mkCopyCandidates (contracts r) (crates r) (option_map (fun ts => ts ++ [item]) (tests r))
      else r
  | None => r
  end.

(** The list the gate returns for an answer of the prompt. It is local to
    the function until returned, so it is built by value here and allocated
    on return. *)
Definition resultingList (answer : list PathEntry) : CopyCandidates :=
  fold_left push_item answer (mkCopyCandidates [] [] (Some [])).

(** [confirmCopyList(candidatesList)]: given the reference [l] and the store,
    the reference to the returned list and the store afterwards. [None] when
    [l] or one of its groups dangles, which no well-typed caller causes. *)
Definition confirmCopyList (sel : nat -> bool) (l : loc) (h : store) : option (loc * store) :=
  match h !! l with
  | Some (CObject a b t) =>
      (* if (!candidatesList.tests) candidatesList.tests = []; *)
      let '(t', h1) :=
        match t with
        | Some t' => (t', h)
        | None =>
            let '(n, h') := alloc h (CArray []) in
            (n, <[l := CObject a b (Some n)]> h')
        end in
      cs ← read_array h1 a;
      cr ← read_array h1 b;
      ts ← read_array h1 t';
      let answer := checked_from sel 0 (choices cs cr ts) in
      Some (alloc_candidates h1 (resultingList answer))
  | _ => None
  end.

(** The answer of the prompt in the words of the specification: of each
    group the entries left checked, in order, put back in that group. The
    choices are numbered through the three groups. *)
Definition selected (sel : nat -> bool) (c : CopyCandidates) : CopyCandidates :=
  let cs := contracts c in
  let cr := crates c in
  let ts := default [] (tests c) in
  mkCopyCandidates
    (map (choice "contracts") (checked_from sel 0 cs))
    (map (choice "crates") (checked_from sel (length cs) cr))
    (Some (map (choice "tests") (checked_from sel (length cs + length cr) ts))).

(** *** [detectModuleNames] *)

(** [toml.package?.name] *)
Definition package_name (toml : gmap string jsval) : jsval :=
  match toml !! "package" with
  | None | Some JUndefined | Some JNull => JUndefined
  | Some p => getProp p "name"
  end.

Definition warning (moduleName : string) : string :=
  "Could not detect the contract name from Cargo.toml. Using [" ++ moduleName ++ "]".

(** [{ ...entry, moduleName }], and [extendedEntry.moduleName = v] on it. *)
Definition with_moduleName (entry : PathEntry) (v : jsval) : PathEntry :=
  mkPathEntry (dirent_isDirectory entry) (name entry) (path entry) (Some v) (group entry).

(** The body of the inner loop for one entry: the extended entry and what
    was printed on the console. *)
Definition resolve_entry (host : Host) (entry : PathEntry) : result (PathEntry * list string) :=
  let moduleName := basename host (path entry) in
  let extendedEntry := with_moduleName entry (JStr moduleName) in
  if dirent_isDirectory entry && pathExists host (resolve host (path entry) "Cargo.toml") then
    toml <- readToml host (resolve host (path entry) "Cargo.toml") ;;
    if truthy (package_name toml) then
      Ok (with_moduleName extendedEntry (package_name toml), [])
    else Ok (extendedEntry, [warning moduleName])
  else Ok (extendedEntry, []).

(** One group's loop: entries in order, stopping at the first throw. *)
Fixpoint resolve_group (host : Host) (l : list PathEntry) : result (list PathEntry * list string) :=
  match l with
  | [] => Ok ([], [])
  | entry :: l' =>
      r <- resolve_entry host entry ;;
      rs <- resolve_group host l' ;;
      Ok (fst r :: fst rs, snd r ++ snd rs)
  end.

(** [detectModuleNames(copyList)] by value. *)
Definition resolve_candidates (host : Host) (c : CopyCandidates) : result (CopyCandidates * list string) :=
  cs <- resolve_group host (contracts c) ;;
  cr <- resolve_group host (crates c) ;;
  Ok (mkCopyCandidates (fst cs) (fst cr) (Some (default [] (tests c))), snd cs ++ snd cr).

(** [detectModuleNames(copyList)] on the store: it reads the groups of
    [copyList] and allocates the list it returns. *)
Definition detectModuleNames (host : Host) (l : loc) (h : store) : option (result (loc * store * list string)) :=
  c ← load h l;
  Some (r <- resolve_candidates host c ;;
        let '(l', h') := alloc_candidates h (fst r) in
        Ok (l', h', snd r)).

End Candidates.

(** ** The workspace materializer and the other file tasks of [convert] *)

Module Materializer.

Import Candidates.

(** The calls the copy tasks make on the file system. *)
Inductive FsCall : Type :=
| EnsureDir (dir : string)
| Copy (src dest : string).

Section Fs.

(** [W] is the file system; [fs] performs a call on it and may throw;
    [existsIn] is [pathExists], which never throws; [join] is [path.join]. *)
Variable W : Type.
Variable host : Host.
Variable join : string -> string -> string.
Variable fs : FsCall -> W -> W * result unit.
Variable existsIn : string -> W -> bool.

(** The inner loop of [copyWorkspaceContracts]: one awaited [copy] per entry.
    Besides the file system and the result, the calls made, in order, the
    throwing one included. *)
Fixpoint copyEntries (destDir : string) (entries : list PathEntry) (w : W)
    : W * list FsCall * result unit :=
  match entries with
  | [] => (w, [], Ok tt)
  | entry :: rest =>
      let destPath := join destDir (name entry) in
      let '(w1, r) := fs (Copy (path entry) destPath) w in
      match r with
      | Throw e => (w1, [Copy (path entry) destPath], Throw e)
      | Ok _ =>
          let '(w2, calls, r2) := copyEntries destDir rest w1 in
          (w2, Copy (path entry) destPath :: calls, r2)
      end
  end.

(** One turn of the outer loop: [ensureDir], then the entries of the group.
    Iterating over a group that is [undefined] throws a [TypeError]. *)
Definition copyGroup (projectPath group : string) (entries : option (list PathEntry)) (w : W)
    : W * list FsCall * result unit :=
  let destDir := resolve host projectPath group in
  let '(w1, r) := fs (EnsureDir destDir) w in
  match r with
  | Throw e => (w1, [EnsureDir destDir], Throw e)
  | Ok _ =>
      match entries with
      | None => (w1, [EnsureDir destDir], Throw (TypeError "undefined is not iterable"))
      | Some es =>
          let '(w2, calls, r2) := copyEntries destDir es w1 in
          (w2, EnsureDir destDir :: calls, r2)
      end
  end.

(** Running one step after another, stopping at a throw. *)
Definition andThen (a b : W -> W * list FsCall * result unit) (w : W)
    : W * list FsCall * result unit :=
  let '(w1, calls1, r1) := a w in
  match r1 with
  | Throw e => (w1, calls1, Throw e)
  | Ok _ =>
      let '(w2, calls2, r2) := b w1 in
      (w2, calls1 ++ calls2, r2)
  end.

(** [copyWorkspaceContracts(copyList, projectPath)]: the groups
    [contracts], [crates], [tests], in this order. *)
Definition copyWorkspaceContracts (copyList : CopyCandidates) (projectPath : string)
    : W -> W * list FsCall * result unit :=
  andThen (copyGroup projectPath "contracts" (Some (contracts copyList)))
    (andThen (copyGroup projectPath "crates" (Some (crates copyList)))
       (copyGroup projectPath "tests" (tests copyList))).

(** A sequence of awaited calls: one after the other, stopping at the first
    that throws. Besides the file system and the result, the calls made. *)
Fixpoint performCalls (calls : list FsCall) (w : W) : W * list FsCall * result unit :=
  match calls with
  | [] => (w, [], Ok tt)
  | c :: rest =>
      let '(w1, r) := fs c w in
      match r with
      | Throw e => (w1, [c], Throw e)
      | Ok _ =>
          let '(w2, made, r2) := performCalls rest w1 in
          (w2, c :: made, r2)
      end
  end.

(** Iterating over [undefined]. *)
Definition notIterable (w : W) : W * list FsCall * result unit :=
  (w, [], Throw (TypeError "undefined is not iterable")).

(** The calls of a run in which nothing throws. *)
Definition groupCalls (projectPath group : string) (entries : list PathEntry) : list FsCall :=
  EnsureDir (resolve host projectPath group)
  :: map (fun entry => Copy (path entry) (join (resolve host projectPath group) (name entry))) entries.

(** The task "Copying workspace files": of the two files, those that exist
    in the source project are copied under the same name. *)
Definition workspaceFiles : list string := ["rust-toolchain.toml"; ".rustfmt.toml"].

Fixpoint copyFiles (pathToExistingProject projectPath : string) (fileList : list string) (w : W)
    : W * list FsCall * result unit :=
  match fileList with
  | [] => (w, [], Ok tt)
  | fileName :: rest =>
      let filePath := resolve host pathToExistingProject fileName in
      if existsIn filePath w then
        let '(w1, r) := fs (Copy filePath (resolve host projectPath fileName)) w in
        match r with
        | Throw e => (w1, [Copy filePath (resolve host projectPath fileName)], Throw e)
        | Ok _ =>
            let '(w2, calls, r2) := copyFiles pathToExistingProject projectPath rest w1 in
            (w2, Copy filePath (resolve host projectPath fileName) :: calls, r2)
        end
      else copyFiles pathToExistingProject projectPath rest w
  end.

Definition copyWorkspaceFiles (pathToExistingProject projectPath : string)
    : W -> W * list FsCall * result unit :=
  copyFiles pathToExistingProject projectPath workspaceFiles.

End Fs.

End Materializer.

(** ** The task queue *)

Module Executor.

Section Queue.

(** [Op] is a deferred operation with its arguments fixed at enqueue time
    ([task] and [args]); [Cb] a registered callback; [St] everything an
    operation or a callback can change. *)
Variable Op : Type.
Variable Cb : Type.
Variable St : Type.
Variable perform : Op -> St -> St * result jsval.
Variable invoke : Cb -> jsval -> St -> St.

Record Task : Type := mkTask {
  task : Op;
  runningMessage : string;
  successMessage : option string;
  failMessage : option string;
  shouldExitOnError : option bool;
  callback : option Cb
}.

(** What a run leaves behind, in order. *)
Inductive event : Type :=
| Announced (label : string)
| Invoked (op : Op)
| Succeeded (label : option string)
| Failed (label : option string)
| Continued (e : exn)
| CalledBack (cb : Cb) (v : jsval)
| Logged (line : string).

(** Modelled from the spec: [Spinner.runCommand] of [lib/spinner.ts], which
    is not among the sources. Section 4.5: announce the running message;
    invoke the operation; on success emit the success message if present and
    hand back the operation's return value; on failure emit the failure
    message if present, then, if [fatalOnError] (default true), abort the
    entire run and surface the error, otherwise log and continue to the next
    task. Continuing hands back [undefined]: there is no return value. *)
Definition runCommand (command : St -> St * list event * result jsval)
    (runningMessage : string) (successMessage failMessage : option string)
    (shouldExitOnError : option bool) (s : St) : St * list event * result jsval :=
  let '(s', evs, r) := command s in
  match r with
  | Ok v => (s', Announced runningMessage :: evs ++ [Succeeded successMessage], Ok v)
  | Throw e =>
      if default true shouldExitOnError
      then (s', Announced runningMessage :: evs ++ [Failed failMessage], Throw e)
      else (s', Announced runningMessage :: evs ++ [Failed failMessage; Continued e], Ok JUndefined)
  end.

Inductive status : Type :=
| Completed
| Aborted (e : exn).

Record outcome : Type := mkOutcome {
  final : St;
  trace : list event;
  ended : status
}.

Definition banner : string := "🎉 😎 Swanky project successfully initialised! 😎 🎉".

(** The thunk [() => task(...args)] handed to [runCommand]. *)
Definition command_of (t : Task) (s : St) : St * list event * result jsval :=
  let '(s', r) := perform (task t) s in (s', [Invoked (task t)], r).

(** [if (result && callback) callback(result)] *)
Definition after_task (t : Task) (res : jsval) (s : St) : St * list event :=
  match callback t with
  | Some cb => if truthy res then (invoke cb res s, [CalledBack cb res]) else (s, [])
  | None => (s, [])
  end.

(** The [for ... of this.taskQueue] loop of [Init.run]. A throw out of
    [runCommand] leaves the loop (and the method). *)
Fixpoint run_loop (q : list Task) (s : St) : outcome :=
  match q with
  | [] => mkOutcome s [] Completed
  | t :: q' =>
      let '(s1, evs, r) :=
        runCommand (command_of t) (runningMessage t) (successMessage t) (failMessage t)
          (shouldExitOnError t) s in
      match r with
      | Throw e => mkOutcome s1 evs (Aborted e)
      | Ok res =>
          let '(s2, evs2) := after_task t res s1 in
          let o := run_loop q' s2 in
          mkOutcome (final o) (evs ++ evs2 ++ trace o) (ended o)
      end
  end.

(** The loop, then [this.log(banner)]. *)
Definition run_queue (q : list Task) (s : St) : outcome :=
  let o := run_loop q s in
  match ended o with
  | Completed => mkOutcome (final o) (trace o ++ [Logged banner]) Completed
  | Aborted e => o
  end.

(** The operations a trace shows as invoked, in order. *)
Fixpoint invocations (tr : list event) : list Op :=
  match tr with
  | [] => []
  | Invoked op :: tr' => op :: invocations tr'
  | _ :: tr' => invocations tr'
  end.

(** The callbacks a trace shows as called, with their arguments. *)
Fixpoint callbacks (tr : list event) : list (Cb * jsval) :=
  match tr with
  | [] => []
  | CalledBack cb v :: tr' => (cb, v) :: callbacks tr'
  | _ :: tr' => callbacks tr'
  end.

Definition banner_logged (tr : list event) : Prop := In (Logged banner) tr.

(** A task's failure is fatal unless it says otherwise. *)
Definition fatal (t : Task) : bool := default true (shouldExitOnError t).

End Queue.

Arguments mkTask {Op Cb}.
Arguments task {Op Cb}.
Arguments runningMessage {Op Cb}.
Arguments successMessage {Op Cb}.
Arguments failMessage {Op Cb}.
Arguments shouldExitOnError {Op Cb}.
Arguments callback {Op Cb}.
Arguments fatal {Op Cb}.
Arguments Announced {Op Cb}.
Arguments Invoked {Op Cb}.
Arguments Succeeded {Op Cb}.
Arguments Failed {Op Cb}.
Arguments Continued {Op Cb}.
Arguments CalledBack {Op Cb}.
Arguments Logged {Op Cb}.
Arguments invocations {Op Cb}.
Arguments callbacks {Op Cb}.
Arguments banner_logged {Op Cb}.
Arguments mkOutcome {Op Cb St}.
Arguments final {Op Cb St}.
Arguments trace {Op Cb St}.
Arguments ended {Op Cb St}.
Arguments run_loop {Op Cb St}.
Arguments run_queue {Op Cb St}.
Arguments runCommand {Op Cb St}.
Arguments command_of {Op Cb St}.
Arguments after_task {Op Cb St}.

End Executor.

(** ** The [init] command *)

Module Config.

(** An entry of [configBuilder.contracts]. *)
Record ContractData : Type := mkContractData {
  name : string;
  moduleName : jsval;
  deployments : list jsval
}.

Record Account : Type := mkAccount {
  alias : string;
  mnemonic : string;
  isDev : bool;
  address : string
}.

(** [SwankyConfig], with [node] flattened. [contracts] is an object used as a
    map from contract name to entry. *)
Record SwankyConfig : Type := mkSwankyConfig {
  node_localPath : jsval;
  node_polkadotPalletVersions : string;
  node_supportedInk : string;
  accounts : list Account;
  networks : list (string * string);
  contracts : gmap string ContractData
}.

Definition with_contracts (c : SwankyConfig) (cs : gmap string ContractData) : SwankyConfig :=
  mkSwankyConfig (node_localPath c) (node_polkadotPalletVersions c) (node_supportedInk c)
    (accounts c) (networks c) cs.

Definition with_accounts (c : SwankyConfig) (a : list Account) : SwankyConfig :=
  mkSwankyConfig (node_localPath c) (node_polkadotPalletVersions c) (node_supportedInk c)
    a (networks c) (contracts c).

Definition with_localPath (c : SwankyConfig) (v : jsval) : SwankyConfig :=
  mkSwankyConfig v (node_polkadotPalletVersions c) (node_supportedInk c)
    (accounts c) (networks c) (contracts c).

End Config.

Module Init.

Import Candidates Executor.

(** What the command takes from [lib/] and from its packages, none of which
    is among the sources: the case converters of [change-case],
    [chalk.yellowBright], the template paths of [getTemplates()], the package
    version, the constants of [swankyNode] and [consts], and the address
    [ChainAccount] derives from a mnemonic. *)
Record Lib : Type := mkLib {
  paramCase : string -> string;
  snakeCase : string -> string;
  pascalCase : string -> string;
  yellowBright : string -> string;
  templatesPath : string;
  contractTemplatesPath : string;
  version : string;
  polkadotPalletVersions : string;
  supportedInk : string;
  DEFAULT_NETWORK_URL : string;
  DEFAULT_ASTAR_NETWORK_URL : string;
  DEFAULT_SHIDEN_NETWORK_URL : string;
  DEFAULT_SHIBUYA_NETWORK_URL : string;
  chainAddress : string -> string
}.

(** The operations the command enqueues, each with the arguments it is
    enqueued with. [WriteConfig] is the closure over [this.configBuilder]:
    it takes no argument and reads the builder when it runs. *)
Inductive InitOp : Type :=
| CopyCommonTemplateFiles (templatesPath projectPath : string)
| CheckCliDependencies
| CopyContractTemplateFiles (templatePath contractName projectPath : string)
| ProcessTemplates (projectPath : string) (tokens : list (string * string))
| CopyWorkspaceContracts (copyList : CopyCandidates) (projectPath : string)
| WriteCargoToml (tomlObject : gmap string jsval) (projectPath : string)
| CopyWorkspaceFiles (pathToExistingProject projectPath : string)
| MergePackageJson (pJsonPath projectPath : string)
| InstallDeps (projectPath : string)
| GitInit (projectPath : string)
| DownloadNode (projectPath : string)
| WriteConfig (projectPath : string).

Inductive InitCb : Type :=
| SetNodeLocalPath
| ConsoleLog.

Abbreviation InitTask := (Task InitOp InitCb).

(** *** The project directory check at the head of [run] *)

Definition notEmptyMessage (lib : Lib) (projectName : string) : string :=
  "Directory " ++ yellowBright lib projectName ++ " is not empty!".

(** The [try] block: [stat], then [readdir] on a directory, then the throw
    on a non-empty listing. *)
Definition probeProjectDir (host : Host) (lib : Lib) (projectName projectPath : string) : result unit :=
  isDirectory <- stat host projectPath ;;
  if isDirectory : bool then
    files <- readdir host projectPath ;;
    if (0 <? length files)%nat
    then Throw (InputError (notEmptyMessage lib projectName) None)
    else Ok tt
  else Ok tt.

(** The [try]/[catch]: whatever the block throws is caught; it is dropped
    when its message includes ["ENOENT"] and wrapped in an [UnknownError]
    otherwise. Every error here is an [Error] instance. *)
Definition checkProjectDir (host : Host) (lib : Lib) (projectName projectPath : string) : result unit :=
  match probeProjectDir host lib projectName projectPath with
  | Ok _ => Ok tt
  | Throw error =>
      if includes (message error) "ENOENT" then Ok tt
      else Throw (UnknownError "Unexpected error" error)
  end.

(** *** Prompts of the convert flow *)

(** [getManualPaths]: the user selects [selected]; for contracts and crates
    they are then asked for more, and say yes as long as [more] has a next
    selection. *)
Fixpoint getManualPaths (directoryType : string) (selected : string) (more : list string)
    (paths : list string) : list string :=
  if negb (String.eqb directoryType "tests") then
    match more with
    | next :: more' => getManualPaths directoryType next more' (paths ++ [selected])
    | [] => paths ++ [selected]
    end
  else paths ++ [selected].

(** The answers the user gives during [convert]. A selection is the first
    directory picked and the further ones. Every prompt is taken as answered:
    a prompt whose promise rejects is outside this model. *)
Record ConvertAnswers : Type := mkConvertAnswers {
  contractsDirectories : string * list string;
  shouldSpecifyCratesDir : bool;
  cratesDirectories : string * list string;
  shouldUseDetectedTestDir : bool;
  shouldInputTestDir : bool;
  manualTestDir : string * list string;
  confirmed : nat -> bool
}.

(** *** [detectTests] *)

Definition testDirNames : list string := ["test"; "tests"; "spec"; "specs"].

(** The [for] loop with its [break]. *)
Fixpoint probeTestDir (host : Host) (pathToExistingProject : string) (names : list string) : option string :=
  match names with
  | [] => None
  | testDirName :: rest =>
      let testDirCandidate := resolve host pathToExistingProject testDirName in
      if pathExists host testDirCandidate then Some testDirCandidate
      else probeTestDir host pathToExistingProject rest
  end.

(** [Boolean(testDir)] *)
Definition detected (testDir : option string) : bool :=
  match testDir with
  | Some d => negb (String.eqb d "")
  | None => false
  end.

(** [path.basename(testDir!)]: the assertion is erased, and [path.basename]
    validates its argument: on [undefined] it throws a [TypeError]. *)
Definition basenameOf (host : Host) (p : option string) : result string :=
  match p with
  | Some s => Ok (basename host s)
  | None => Throw (TypeError "The 'path' argument must be of type string. Received undefined")
  end.

(** The array of the two questions is built before anything is asked, and
    the message of the first holds [path.basename(testDir!)]: with no
    directory detected, building it throws. Then the two [when]-guarded
    questions and the return. A question that is not asked leaves its
    answer [undefined]. *)
Definition detectTests (host : Host) (pathToExistingProject : string) (ans : ConvertAnswers)
    : result (option string) :=
  let testDir := probeTestDir host pathToExistingProject testDirNames in
  let testDirDetected := detected testDir in
  _ <- basenameOf host testDir ;;
  let useDetected := testDirDetected && shouldUseDetectedTestDir ans in
  let asked := (testDirDetected && negb useDetected) || negb testDirDetected in
  if asked && shouldInputTestDir ans then
    Ok (head (getManualPaths "tests" (fst (manualTestDir ans)) (snd (manualTestDir ans)) []))
  else Ok testDir.

(** *** The root [Cargo.toml] *)

Definition readRootCargoToml (host : Host) (pathToProject : string) : result (option (gmap string jsval)) :=
  let rootTomlPath := resolve host pathToProject "Cargo.toml" in
  if negb (pathExists host rootTomlPath) then Ok None
  else
    toml <- readToml host rootTomlPath ;;
    if negb (truthy (default JUndefined (toml !! "workspace")))
    then Ok (Some (<["workspace" := JObj ∅]> toml))
    else Ok (Some toml).

Definition contractsGlob : jsval := JArray [JStr "contracts/*"].

(** [rootToml.workspace.members = ["contracts/*"]]: the assignment goes to
    the object [rootToml.workspace] refers to, which [rootToml] then shows. *)
Definition assignMembers (rootToml : gmap string jsval) : result (gmap string jsval) :=
  w <- setProp (default JUndefined (rootToml !! "workspace")) "members" contractsGlob ;;
  Ok (<["workspace" := w]> rootToml).

(** Lines 375-379 of [convert]: read, synthesize when there is none, assign. *)
Definition rootTomlFor (host : Host) (pathToExistingProject : string) : result (gmap string jsval) :=
  r <- readRootCargoToml host pathToExistingProject ;;
  assignMembers (default {[ "workspace" := JObj ∅ ]} r).



(** *** [convert] *)

(** The check at the head of [convert]: whatever the [try] block throws,
    its own [InputError] included, is rethrown as an [InputError] with the
    caught error as cause. *)
Definition checkExistingProject (host : Host) (lib : Lib) (pathToExistingProject : string) : result unit :=
  let attempt : result unit :=
    isDirectory <- stat host pathToExistingProject ;;
    if isDirectory : bool then
      files <- readdir host pathToExistingProject ;;
      if (length files <? 1)%nat
      then Throw (InputError ("Target project directory [" ++ pathToExistingProject ++ "] is empty!") None)
      else Ok tt
    else Ok tt in
  match attempt with
  | Ok _ => Ok tt
  | Throw cause =>
      Throw (InputError ("Error reading target directory [" ++ yellowBright lib pathToExistingProject ++ "]")
               (Some cause))
  end.

(** [getGlobPaths] and [getDirsAndFiles]: the query without
    [onlyDirectories], then the one with it, one list after the other. *)
Definition getGlobPaths (host : Host) (projectPath : string) (globList : list string)
    (isDirOnly : bool) : result (list PathEntry) :=
  globby host (map (fun glob => resolve host projectPath glob) globList) isDirOnly.

Definition getDirsAndFiles (host : Host) (projectPath : string) (globList : list string)
    : result (list PathEntry) :=
  files <- getGlobPaths host projectPath globList false ;;
  dirs <- getGlobPaths host projectPath globList true ;;
  Ok (files ++ dirs).

Definition getCopyCandidatesList (host : Host) (projectPath : string)
    (contractsDirs cratesDirs : list string) : result CopyCandidates :=
  contracts <- getDirsAndFiles host projectPath contractsDirs ;;
  crates <- (if (0 <? length cratesDirs)%nat then getDirsAndFiles host projectPath cratesDirs
             else Ok []) ;;
  Ok (mkCopyCandidates contracts crates None).

(** The candidates up to the gate: discovery, then [candidatesList.tests]. *)
Definition candidatesFor (host : Host) (pathToExistingProject : string) (ans : ConvertAnswers)
    : result CopyCandidates :=
  let contractsDirs :=
    getManualPaths "contracts" (fst (contractsDirectories ans)) (snd (contractsDirectories ans)) [] in
  let cratesDirs :=
    if shouldSpecifyCratesDir ans
    then getManualPaths "crates" (fst (cratesDirectories ans)) (snd (cratesDirectories ans)) []
    else [] in
  candidatesList <- getCopyCandidatesList host pathToExistingProject contractsDirs cratesDirs ;;
  testDir <- detectTests host pathToExistingProject ans ;;
  testsList <-
    match testDir with
    | Some d =>
        if negb (String.eqb d "") && pathExists host d
        then getDirsAndFiles host pathToExistingProject [d]
        else Ok []
    | None => Ok []
    end ;;
  Ok (mkCopyCandidates (contracts candidatesList) (crates candidatesList) (Some testsList)).

(** [detectModuleNames(await confirmCopyList(candidatesList))], by value. *)
Definition confirmedCopyListFor (host : Host) (sel : nat -> bool) (c : CopyCandidates)
    : result (CopyCandidates * list string) :=
  let answer := checked_from sel 0 (choices (contracts c) (crates c) (default [] (tests c))) in
  resolve_candidates host (resultingList answer).

(** The entry [convert] stores for a confirmed contract. An entry without a
    module name does not leave the resolver; [undefined] stands for the
    non-null assertion on it. *)
Definition contractEntry (contract : PathEntry) : Config.ContractData :=
  Config.mkContractData (name contract) (default JUndefined (moduleName contract)) [].

(** [this.configBuilder.contracts[contract.name] = { ... }] on the plain
    object [contracts], seen through its own properties (those that
    [writeJSON] serialises). Under the name [__proto__] the assignment goes
    to the setter of [Object.prototype]: it makes the entry the prototype of
    [contracts] and creates no own property. *)
Definition assignContract (m : gmap string Config.ContractData) (contract : PathEntry)
    : gmap string Config.ContractData :=
  if String.eqb (name contract) "__proto__" then m
  else <[name contract := contractEntry contract]> m.

(** The loop over the confirmed contracts, in their order. *)
Definition addContracts (cs : list PathEntry) (acc : gmap string Config.ContractData)
    : gmap string Config.ContractData :=
  fold_left assignContract cs acc.

(** What planning leaves in the command object. *)
Record Plan : Type := mkPlan {
  taskQueue : list InitTask;
  configBuilder : Config.SwankyConfig;
  printed : list string
}.

Definition push (p : Plan) (t : InitTask) : Plan :=
  mkPlan (taskQueue p ++ [t]) (configBuilder p) (printed p).

Definition convert (host : Host) (lib : Lib) (ans : ConvertAnswers)
    (pathToExistingProject projectName projectPath : string) (p : Plan) : result Plan :=
  _ <- checkExistingProject host lib pathToExistingProject ;;
  candidatesList <- candidatesFor host pathToExistingProject ans ;;
  r <- confirmedCopyListFor host (confirmed ans) candidatesList ;;
  let confirmedCopyList := fst r in
  let p := mkPlan (taskQueue p) (configBuilder p) (printed p ++ snd r) in
  let p := push p
    (mkTask (ProcessTemplates projectPath
               [("project_name", paramCase lib projectName); ("swanky_version", version lib)])
       "Processing templates" None None None None) in
  let p := push p
    (mkTask (CopyWorkspaceContracts confirmedCopyList projectPath)
       "Copying existing project files" (Some "Project files successfully copied")
       (Some "Failed to copy project files") (Some true) (Some ConsoleLog)) in
  let p := mkPlan (taskQueue p)
    (Config.with_contracts (configBuilder p)
       (addContracts (contracts confirmedCopyList) (Config.contracts (configBuilder p))))
    (printed p) in
  rootToml <- rootTomlFor host pathToExistingProject ;;
  let p := push p
    (mkTask (WriteCargoToml rootToml projectPath) "Writing Cargo.toml" None None None None) in
  let p := push p
    (mkTask (CopyWorkspaceFiles pathToExistingProject projectPath)
       "Copying workspace files" None None None None) in
  let existingPJsonPath := resolve host pathToExistingProject "package.json" in
  if pathExists host existingPJsonPath
  then Ok (push p
    (mkTask (MergePackageJson existingPJsonPath projectPath) "Merging package.json" None None None None))
  else Ok p.

(** *** [generate] *)

Record GenerateAnswers : Type := mkGenerateAnswers {
  contractTemplate : string;
  contractName : string;
  authorName : string;
  authorEmail : string
}.

Definition generate (host : Host) (lib : Lib) (ans : GenerateAnswers)
    (projectName projectPath : string) (p : Plan) : Plan :=
  let p := push p (mkTask CheckCliDependencies "Checking dependencies" None None None None) in
  let p := push p
    (mkTask (CopyContractTemplateFiles
               (resolve host (contractTemplatesPath lib) (contractTemplate ans))
               (contractName ans) projectPath)
       "Copying contract template files" None None None None) in
  let p := push p
    (mkTask (ProcessTemplates projectPath
               [("project_name", paramCase lib projectName);
                ("author_name", authorName ans);
                ("author_email", authorEmail ans);
                ("swanky_version", version lib);
                ("contract_name", contractName ans);
                ("contract_name_snake", snakeCase lib (contractName ans));
                ("contract_name_pascal", pascalCase lib (contractName ans))])
       "Processing templates" None None None None) in
  mkPlan (taskQueue p)
    (Config.with_contracts (configBuilder p)
       {[ contractName ans :=
            Config.mkContractData (contractName ans) (JStr (snakeCase lib (contractName ans))) [] ]})
    (printed p).

(** *** [run]: planning *)

(** The task pushed last, and counting the invocations that write the
    configuration. *)
Definition writeConfigTask (projectPath : string) : InitTask :=
  mkTask (WriteConfig projectPath) "Writing config" None None None None.

Definition is_WriteConfig (op : InitOp) : bool :=
  match op with WriteConfig _ => true | _ => false end.

Definition config_writes (ops : list InitOp) : nat :=
  length (List.filter is_WriteConfig ops).

Definition not_a_write (t : InitTask) : Prop :=
  is_WriteConfig (task t) = false.


Record Flags : Type := mkFlags {
  swanky_node : bool;
  convert_flag : option string
}.

(** The answers of one run; only the flow taken reads its own. *)
Record Answers : Type := mkAnswers {
  generateAnswers : GenerateAnswers;
  convertAnswers : ConvertAnswers;
  useSwankyNode : bool
}.

(** The field initialisers of the class. *)
Definition initialConfig (lib : Lib) : Config.SwankyConfig :=
  Config.mkSwankyConfig (JStr "") (polkadotPalletVersions lib) (supportedInk lib) []
    [("local", DEFAULT_NETWORK_URL lib);
     ("astar", DEFAULT_ASTAR_NETWORK_URL lib);
     ("shiden", DEFAULT_SHIDEN_NETWORK_URL lib);
     ("shibuya", DEFAULT_SHIBUYA_NETWORK_URL lib)]
    ∅.

Definition devAccounts (lib : Lib) : list Config.Account :=
  [Config.mkAccount "alice" "//Alice" true (chainAddress lib "//Alice");
   Config.mkAccount "bob" "//Bob" true (chainAddress lib "//Bob")].

(** [if (flags.convert)]: the flag is given and is not the empty string. *)
Definition convertRequested (flags : Flags) : option string :=
  match convert_flag flags with
  | Some c => if String.eqb c "" then None else Some c
  | None => None
  end.

(** [run] from the first [push] to the last: the queue and the builder the
    loop starts with. The [ensureDir] calls fired (and not awaited) before
    the last [push] are left out. *)
Definition plan (host : Host) (lib : Lib) (flags : Flags) (ans : Answers)
    (projectName : string) : result Plan :=
  let projectPath := resolve host (cwd host) projectName in
  let p := mkPlan [] (initialConfig lib) [] in
  let p := push p
    (mkTask (CopyCommonTemplateFiles (templatesPath lib) projectPath)
       "Copying common template files" None None None None) in
  p <- match convertRequested flags with
       | Some c => convert host lib (convertAnswers ans) c projectName projectPath p
       | None => Ok (generate host lib (generateAnswers ans) projectName projectPath p)
       end ;;
  let p := push p
    (mkTask (InstallDeps projectPath) "Installing dependencies" None None (Some false) None) in
  let p := push p (mkTask (GitInit projectPath) "Initializing git" None None None None) in
  let p :=
    if negb (swanky_node flags) && useSwankyNode ans
    then push p
      (mkTask (DownloadNode projectPath) "Downloading Swanky node" None None None (Some SetNodeLocalPath))
    else p in
  let p := mkPlan (taskQueue p) (Config.with_accounts (configBuilder p) (devAccounts lib)) (printed p) in
  Ok (push p (writeConfigTask projectPath)).

(** *** [run]: execution *)

(** What the tasks act upon. [W] is the world outside the process (files,
    child processes); the fields are the calls the operations make on it.
    [external] is the effect of an operation whose function is not among
    the sources: the functions of [lib/] and [execaCommand]. [fs] and
    [pathExistsIn] are [ensureDir], [copy] and [pathExists] as the two copy
    tasks of the convert flow call them while they run. *)
Record World (W : Type) : Type := mkWorld {
  external : InitOp -> W -> W * result jsval;
  readJSON : string -> W -> result (gmap string jsval);
  writeJSON : string -> jsval -> W -> W * result jsval;
  remove : string -> W -> W * result jsval;
  outputToml : string -> gmap string jsval -> W -> W * result jsval;
  fs : Materializer.FsCall -> W -> W * result unit;
  pathExistsIn : string -> W -> bool
}.
Arguments external {W}.
Arguments fs {W}.
Arguments pathExistsIn {W}.
Arguments readJSON {W}.
Arguments writeJSON {W}.
Arguments remove {W}.
Arguments outputToml {W}.

(** The command object while the loop runs, and the world. *)
Record InitState (W : Type) : Type := mkInitState {
  builder : Config.SwankyConfig;
  console : list jsval;
  world : W
}.
Arguments mkInitState {W}.
Arguments builder {W}.
Arguments console {W}.
Arguments world {W}.

(** The builder as [writeJSON] receives it. *)
Definition contract_json (c : Config.ContractData) : jsval :=
  JObj (<["name" := JStr (Config.name c)]>
       (<["moduleName" := Config.moduleName c]>
       (<["deployments" := JArray (Config.deployments c)]> ∅))).

Definition account_json (a : Config.Account) : jsval :=
  JObj (<["alias" := JStr (Config.alias a)]>
       (<["mnemonic" := JStr (Config.mnemonic a)]>
       (<["isDev" := JBool (Config.isDev a)]>
       (<["address" := JStr (Config.address a)]> ∅)))).

Definition config_json (c : Config.SwankyConfig) : jsval :=
  JObj (<["node" :=
            JObj (<["localPath" := Config.node_localPath c]>
                 (<["polkadotPalletVersions" := JStr (Config.node_polkadotPalletVersions c)]>
                 (<["supportedInk" := JStr (Config.node_supportedInk c)]> ∅)))]>
       (<["accounts" := JArray (map account_json (Config.accounts c))]>
       (<["networks" :=
            JObj (list_to_map (map (fun n => (fst n, JObj {[ "url" := JStr (snd n) ]}))
                                 (Config.networks c)))]>
       (<["contracts" := JObj (contract_json <$> Config.contracts c)]> ∅)))).

Section Run.

Variable W : Type.
Variable host : Host.
Variable wd : World W.

Definition on_world (s : InitState W) (r : W * result jsval) : InitState W * result jsval :=
  (mkInitState (builder s) (console s) (fst r), snd r).

(** What a task whose function has no [return] resolves to: [undefined],
    unless it throws. *)
Definition returning (r : W * list Materializer.FsCall * result unit) : W * result jsval :=
  (fst (fst r), _ <- snd r ;; Ok JUndefined).

(** The package manifest merge task: read both, merge the external one into
    the template's, remove the template's file and write the merge in its
    place. *)
Definition mergePackageJson (pJsonPath projectPath : string) (w : W) : W * result jsval :=
  match readJSON wd pJsonPath w with
  | Throw e => (w, Throw e)
  | Ok existingPJson =>
      let templatePJsonPath := resolve host projectPath "package.json" in
      match readJSON wd templatePJsonPath w with
      | Throw e => (w, Throw e)
      | Ok templatePJson =>
          match Lodash.merge (stringToNumber host) templatePJson existingPJson with
          | Throw e => (w, Throw e)
          | Ok mergedJson =>
              let '(w1, r1) := remove wd templatePJsonPath w in
              match r1 with
              | Throw e => (w1, Throw e)
              | Ok _ =>
                  let '(w2, r2) := writeJSON wd templatePJsonPath (JObj mergedJson) w1 in
                  match r2 with
                  | Throw e => (w2, Throw e)
                  | Ok _ => (w2, Ok JUndefined)
                  end
              end
          end
      end
  end.

(** [task(...args)] *)
Definition perform (op : InitOp) (s : InitState W) : InitState W * result jsval :=
  match op with
  | WriteConfig projectPath =>
      on_world s (writeJSON wd (resolve host projectPath "swanky.config.json")
                    (config_json (builder s)) (world s))
  | WriteCargoToml tomlObject projectPath =>
      let '(w, r) := outputToml wd (resolve host projectPath "Cargo.toml") tomlObject (world s) in
      on_world s (w, _ <- r ;; Ok JUndefined)
  | MergePackageJson pJsonPath projectPath =>
      on_world s (mergePackageJson pJsonPath projectPath (world s))
  | CopyWorkspaceContracts copyList projectPath =>
      on_world s (returning
                    (Materializer.copyWorkspaceContracts W host (join host) (fs wd)
                       copyList projectPath (world s)))
  | CopyWorkspaceFiles pathToExistingProject projectPath =>
      on_world s (returning
                    (Materializer.copyWorkspaceFiles W host (fs wd) (pathExistsIn wd)
                       pathToExistingProject projectPath (world s)))
  | _ => on_world s (external wd op (world s))
  end.

(** The two callbacks: the node path goes into the builder ([node] is set
    from the start), the copy result onto the console. *)
Definition invoke (cb : InitCb) (v : jsval) (s : InitState W) : InitState W :=
  match cb with
  | SetNodeLocalPath => mkInitState (Config.with_localPath (builder s) v) (console s) (world s)
  | ConsoleLog => mkInitState (builder s) (console s ++ [v]) (world s)
  end.

(** How a run of the command ends. *)
Inductive RunResult : Type :=
| Thrown (e : exn)
| Ran (o : outcome InitOp InitCb (InitState W)).

(** [run]: the directory check, planning, the loop and the banner. *)
Definition run (lib : Lib) (flags : Flags) (ans : Answers) (projectName : string) (w : W) : RunResult :=
  let projectPath := resolve host (cwd host) projectName in
  match checkProjectDir host lib projectName projectPath with
  | Throw e => Thrown e
  | Ok _ =>
      match plan host lib flags ans projectName with
      | Throw e => Thrown e
      | Ok p => Ran (run_queue perform invoke (taskQueue p) (mkInitState (configBuilder p) [] w))
      end
  end.

End Run.

End Init.

(** ** Hosts and answers to try the command on *)

Module Examples.

Import Candidates Executor Init.

(** The last segment of a path, and joining with a slash. *)
Fixpoint last_segment (s acc : string) : string :=
  match s with
  | EmptyString => acc
  | String c s' =>
      if String.eqb (String c "") "/" then last_segment s' "" else last_segment s' (acc ++ String c "")
  end.

Definition join (a b : string) : string := a ++ "/" ++ b.

(** [path.resolve] on two segments: an absolute second segment stands. *)
Definition resolvePath (a b : string) : string :=
  if String.prefix "/" b then b else join a b.

(** Reading a string of decimal digits; the engine reads more strings than
    these as numbers, and the examples hold none of them. *)
Definition decimalToNumber (s : string) : option Z := Z.of_N <$> Lodash.parse_digits s 0.

Definition enoent (p : string) : exn :=
  SysError ("ENOENT: no such file or directory, open '" ++ p ++ "'").

(** A host given by tables: the directories with their listings, the other
    paths that exist, the TOML files that parse, and what a resolved glob
    pattern finds (the files among it without [onlyDirectories], the
    directories with it). *)
Definition tableHost (dirs : list (string * list string)) (others : list string)
    (tomls : list (string * gmap string jsval))
    (found : list (string * list PathEntry)) : Host :=
  let dirmap : gmap string (list string) := list_to_map dirs in
  let tomlmap : gmap string (gmap string jsval) := list_to_map tomls in
  let foundmap : gmap string (list PathEntry) := list_to_map found in
  mkHost "/work" resolvePath join (fun p => last_segment p "")
    (fun p => match dirmap !! p with
              | Some _ => Ok true
              | None => if bool_decide (p ∈ others) then Ok false else Throw (enoent p)
              end)
    (fun p => match dirmap !! p with
              | Some l => Ok l
              | None => Throw (enoent p)
              end)
    (fun p => bool_decide (is_Some (dirmap !! p)) || bool_decide (p ∈ others)
              || bool_decide (is_Some (tomlmap !! p)))
    (fun p => match tomlmap !! p with
              | Some t => Ok t
              | None => Throw (SysError ("Unexpected character, expected whitespace, = or key in " ++ p))
              end)
    (fun patterns isDirOnly =>
       Ok (concat (map (fun g => List.filter (fun e => Bool.eqb (dirent_isDirectory e) isDirOnly)
                                   (default [] (foundmap !! g))) patterns)))
    decimalToNumber.

(** The library with colours off and case converters left as identity. *)
Definition plainLib : Lib :=
  mkLib id id id id "/templates" "/templates/contracts" "3.1.0" "polkadot-v0.9.39" "v4.2.0"
    "ws://127.0.0.1:9944" "wss://rpc.astar.network" "wss://rpc.shiden.astar.network"
    "wss://shibuya.public.blastapi.io" (fun m : string => String.append "5" m).

(** A source project whose root manifest lists two members of its own. *)
Definition workspaceToml : gmap string jsval :=
  {[ "workspace" := JObj {[ "members" := JArray [JStr "flipper"; JStr "psp22"] ]} ]}.

Definition workspaceHost : Host :=
  tableHost [("/src", ["Cargo.toml"])] [] [("/src/Cargo.toml", workspaceToml)] [].

(** A root manifest whose [workspace] is a string. *)
Definition oddToml : gmap string jsval := {[ "workspace" := JStr "members" ]}.

Definition oddHost : Host :=
  tableHost [("/src", ["Cargo.toml"])] [] [("/src/Cargo.toml", oddToml)] [].

(** A source project with a [tests] and a [spec] directory, and one with
    neither. *)
Definition testsHost : Host :=
  tableHost [("/src", ["tests"; "spec"]); ("/src/tests", []); ("/src/spec", [])] [] [] [].

Definition bareHost : Host := tableHost [("/src", ["lib.rs"])] ["/src/lib.rs"] [] [].

(** A user who keeps every default: one contracts directory, no crates
    directory, the detected test directory if there is one and none
    otherwise, every candidate left checked. *)
Definition defaultAnswers : ConvertAnswers :=
  mkConvertAnswers ("contracts", []) false ("crates", []) true false ("e2e", []) (fun _ => true).

(** A contract directory [foo] whose manifest names the package [bar], one
    whose manifest gives the empty name, and a source file. *)
Definition fooEntry : PathEntry := mkPathEntry true "foo" "/src/contracts/foo" None None.
Definition fileEntry : PathEntry := mkPathEntry false "foo.rs" "/src/contracts/foo.rs" None None.

Definition packageToml (n : jsval) : gmap string jsval := {[ "package" := JObj {[ "name" := n ]} ]}.

Definition barHost : Host :=
  tableHost [("/src/contracts/foo", ["Cargo.toml"])] ["/src/contracts/foo.rs"]
    [("/src/contracts/foo/Cargo.toml", packageToml (JStr "bar"))] [].

Definition unnamedHost : Host :=
  tableHost [("/src/contracts/foo", ["Cargo.toml"])] ["/src/contracts/foo.rs"]
    [("/src/contracts/foo/Cargo.toml", packageToml (JStr ""))] [].

(** The candidates [{contracts: [X, Y], crates: [], tests: [Z]}] in a
    store, the object at location 3; and the same without a tests group,
    the object at location 2. *)
Definition entryX : PathEntry := mkPathEntry true "x" "/src/contracts/x" None None.
Definition entryY : PathEntry := mkPathEntry true "y" "/src/contracts/y" None None.
Definition entryZ : PathEntry := mkPathEntry true "tests" "/src/tests" None None.

Definition xyzStore : store :=
  [CArray [entryX; entryY]; CArray []; CArray [entryZ]; CObject 0 1 (Some 2)].

Definition xyStore : store :=
  [CArray [entryX; entryY]; CArray []; CObject 0 1 None].

(** The user unchecks the first choice and leaves the rest. *)
Definition withoutFirst (i : nat) : bool := negb (Nat.eqb i 0).

(** A world that records the external operations performed on it. The
    operations in [failing] throw; downloading the node returns the path of
    the binary; every other operation returns nothing. Its file system takes
    every call and holds no file of a source project. *)
Definition recordingWorld (failing : InitOp -> bool) : World (list InitOp) :=
  mkWorld (list InitOp)
    (fun op w =>
       (w ++ [op],
        if failing op then Throw (SysError "Command failed with exit code 1")
        else match op with
             | DownloadNode projectPath => Ok (JStr (projectPath ++ "/bin/swanky-node"))
             | _ => Ok JUndefined
             end))
    (fun _ _ => Ok ∅)
    (fun _ _ w => (w, Ok JUndefined))
    (fun _ w => (w, Ok JUndefined))
    (fun _ _ w => (w, Ok JUndefined))
    (fun _ w => (w, Ok tt))
    (fun _ _ => false).

Definition appHost : Host := tableHost [] [] [] [].

Definition installFails (op : InitOp) : bool :=
  match op with InstallDeps _ => true | _ => false end.

Definition gitFails (op : InitOp) : bool :=
  match op with GitInit _ => true | _ => false end.

Definition nothingFails (op : InitOp) : bool := false.

Definition copyCommonTask : InitTask :=
  mkTask (CopyCommonTemplateFiles "/templates" "/work/app") "Copying common template files"
    None None None None.
Definition installTask : InitTask :=
  mkTask (InstallDeps "/work/app") "Installing dependencies" None None (Some false) None.
Definition gitTask : InitTask :=
  mkTask (GitInit "/work/app") "Initializing git" None None None None.
Definition downloadTask : InitTask :=
  mkTask (DownloadNode "/work/app") "Downloading Swanky node" None None None (Some SetNodeLocalPath).
Definition copyContractsTask : InitTask :=
  mkTask (CopyWorkspaceContracts (mkCopyCandidates [] [] (Some [])) "/work/app")
    "Copying existing project files" (Some "Project files successfully copied")
    (Some "Failed to copy project files") (Some true) (Some ConsoleLog).

Definition startState : InitState (list InitOp) := mkInitState (initialConfig plainLib) [] [].

(** Running a queue of the command on the recording world. *)
Definition runOn (failing : InitOp -> bool) (q : list InitTask)
    : outcome InitOp InitCb (InitState (list InitOp)) :=
  run_queue (perform (list InitOp) appHost (recordingWorld failing)) (invoke (list InitOp))
    q startState.

(** A project directory that holds a file, under an ordinary name and under
    a name that contains [ENOENT]. *)
Definition fullHost : Host :=
  tableHost [("/work/my-app", ["README.md"]); ("/work/ENOENT-app", ["README.md"])] [] [] [].

Definition newContract : GenerateAnswers := mkGenerateAnswers "flipper" "flipper" "Ada" "ada@example.org".

Definition newProject : Answers := mkAnswers newContract defaultAnswers false.

End Examples.

(** ** Reading a planned queue *)

Module Plans.

Import Executor Init.

Definition is_InstallDeps (op : InitOp) : bool :=
  match op with InstallDeps _ => true | _ => false end.

Definition is_DownloadNode (op : InitOp) : bool :=
  match op with DownloadNode _ => true | _ => false end.

Definition is_MergePackageJson (op : InitOp) : bool :=
  match op with MergePackageJson _ _ => true | _ => false end.

(** The operations that [convert] or [generate] enqueue. *)
Definition is_flow_op (op : InitOp) : bool :=
  match op with
  | CheckCliDependencies | CopyContractTemplateFiles _ _ _ | ProcessTemplates _ _
  | CopyWorkspaceContracts _ _ | WriteCargoToml _ _ | CopyWorkspaceFiles _ _
  | MergePackageJson _ _ => true
  | _ => false
  end.

(** A task whose callback sets the node path of the builder. *)
Definition sets_node_path (t : InitTask) : bool :=
  match callback t with
  | Some SetNodeLocalPath => true
  | _ => false
  end.

(** A task whose callback logs the result, and the operation of the one
    task that has it. *)
Definition logs_result (t : InitTask) : bool :=
  match callback t with
  | Some ConsoleLog => true
  | _ => false
  end.

Definition is_CopyWorkspaceContracts (op : InitOp) : bool :=
  match op with CopyWorkspaceContracts _ _ => true | _ => false end.

(** The tasks [run] pushes after the flow. *)
Definition installDepsTask (projectPath : string) : InitTask :=
  mkTask (InstallDeps projectPath) "Installing dependencies" None None (Some false) None.

Definition gitInitTask (projectPath : string) : InitTask :=
  mkTask (GitInit projectPath) "Initializing git" None None None None.

Definition downloadNodeTask (projectPath : string) : InitTask :=
  mkTask (DownloadNode projectPath) "Downloading Swanky node" None None None (Some SetNodeLocalPath).

(** The task [convert] pushes for the confirmed copy list. *)
Definition copyContractsTask (confirmedCopyList : Candidates.CopyCandidates)
    (projectPath : string) : InitTask :=
  mkTask (CopyWorkspaceContracts confirmedCopyList projectPath)
    "Copying existing project files" (Some "Project files successfully copied")
    (Some "Failed to copy project files") (Some true) (Some ConsoleLog).

Definition copyCommonTask (lib : Lib) (projectPath : string) : InitTask :=
  mkTask (CopyCommonTemplateFiles (templatesPath lib) projectPath)
    "Copying common template files" None None None None.

(** The other tasks [convert] pushes, and all of them in order. *)
Definition convertTemplatesTask (lib : Lib) (projectName projectPath : string) : InitTask :=
  mkTask (ProcessTemplates projectPath
            [("project_name", paramCase lib projectName); ("swanky_version", version lib)])
    "Processing templates" None None None None.

Definition writeCargoTomlTask (rootToml : gmap string jsval) (projectPath : string) : InitTask :=
  mkTask (WriteCargoToml rootToml projectPath) "Writing Cargo.toml" None None None None.

Definition copyWorkspaceFilesTask (pathToExistingProject projectPath : string) : InitTask :=
  mkTask (CopyWorkspaceFiles pathToExistingProject projectPath)
    "Copying workspace files" None None None None.

Definition mergePackageJsonTask (pJsonPath projectPath : string) : InitTask :=
  mkTask (MergePackageJson pJsonPath projectPath) "Merging package.json" None None None None.

Definition convertTasks (host : Host) (lib : Lib) (pathToExistingProject projectName
    projectPath : string) (confirmedCopyList : Candidates.CopyCandidates)
    (rootToml : gmap string jsval) : list InitTask :=
  [convertTemplatesTask lib projectName projectPath;
   copyContractsTask confirmedCopyList projectPath;
   writeCargoTomlTask rootToml projectPath;
   copyWorkspaceFilesTask pathToExistingProject projectPath]
  ++ (if pathExists host (resolve host pathToExistingProject "package.json")
      then [mergePackageJsonTask (resolve host pathToExistingProject "package.json") projectPath]
      else []).

(** The tasks [generate] pushes. *)
Definition generateTasks (host : Host) (lib : Lib) (ans : GenerateAnswers)
    (projectName projectPath : string) : list InitTask :=
  [mkTask CheckCliDependencies "Checking dependencies" None None None None;
   mkTask (CopyContractTemplateFiles
             (resolve host (contractTemplatesPath lib) (contractTemplate ans))
             (contractName ans) projectPath)
     "Copying contract template files" None None None None;
   mkTask (ProcessTemplates projectPath
             [("project_name", paramCase lib projectName);
              ("author_name", authorName ans);
              ("author_email", authorEmail ans);
              ("swanky_version", version lib);
              ("contract_name", contractName ans);
              ("contract_name_snake", snakeCase lib (contractName ans));
              ("contract_name_pascal", pascalCase lib (contractName ans))])
     "Processing templates" None None None None].

(** The tasks [run] pushes after either flow. *)
Definition closingTasks (flags : Flags) (ans : Answers) (projectPath : string) : list InitTask :=
  [installDepsTask projectPath; gitInitTask projectPath]
  ++ (if negb (swanky_node flags) && useSwankyNode ans then [downloadNodeTask projectPath] else [])
  ++ [writeConfigTask projectPath].

Definition is_WriteCargoToml (op : InitOp) : bool :=
  match op with WriteCargoToml _ _ => true | _ => false end.

End Plans.

(** ** More hosts and answers *)

Module MoreExamples.

Import Candidates Executor Init Examples.

(** A user who declines the detected test directory and declines to enter
    one. *)
Definition decliningAnswers : ConvertAnswers :=
  mkConvertAnswers ("contracts", []) false ("crates", []) false false ("e2e", []) (fun _ => true).

(** A source project under [/src]: a directory [contracts] in which the
    glob finds [found], among them the contract directory [flipper] (its
    manifest names the package [flipper_contract]) and the source file
    [lib.rs]; a directory [tests] with one file; and the root manifest
    [rootToml]. *)
Definition flipperDir : PathEntry := mkPathEntry true "flipper" "/src/contracts/flipper" None None.
Definition libFile : PathEntry := mkPathEntry false "lib.rs" "/src/contracts/lib.rs" None None.
Definition testFile : PathEntry :=
  mkPathEntry false "flipper.test.ts" "/src/tests/flipper.test.ts" None None.

Definition projectHost (rootToml : gmap string jsval) (found : list PathEntry) : Host :=
  tableHost
    [("/src", ["contracts"; "tests"; "Cargo.toml"]);
     ("/src/contracts", map name found);
     ("/src/contracts/flipper", ["Cargo.toml"]);
     ("/src/tests", ["flipper.test.ts"])]
    ["/src/contracts/lib.rs"; "/src/tests/flipper.test.ts"]
    [("/src/contracts/flipper/Cargo.toml", packageToml (JStr "flipper_contract"));
     ("/src/Cargo.toml", rootToml)]
    [("/src/contracts", found); ("/src/tests", [testFile])].

Definition sourceHost : Host := projectHost workspaceToml [libFile; flipperDir].

(** The same project without its [tests] directory. *)
Definition untestedHost : Host :=
  tableHost [("/src", ["contracts"; "Cargo.toml"]); ("/src/contracts/flipper", ["Cargo.toml"])]
    ["/src/contracts/lib.rs"]
    [("/src/contracts/flipper/Cargo.toml", packageToml (JStr "flipper_contract"));
     ("/src/Cargo.toml", workspaceToml)]
    [("/src/contracts", [libFile; flipperDir])].

(** A project whose contract manifest does not parse. *)
Definition brokenHost : Host :=
  tableHost [("/src", ["contracts"]); ("/src/contracts/flipper", ["Cargo.toml"])]
    ["/src/contracts/lib.rs"; "/src/contracts/flipper/Cargo.toml"] []
    [("/src/contracts", [libFile; flipperDir])].

(** A project whose root manifest has a workspace table with a resolver,
    and one whose root manifest has a string for its workspace. *)
Definition resolverToml : gmap string jsval :=
  {[ "workspace" := JObj {[ "members" := JArray [JStr "flipper"]; "resolver" := JStr "2" ]} ]}.

Definition resolverHost : Host := projectHost resolverToml [libFile; flipperDir].




(** A project with a contract directory named [__proto__]. *)
Definition protoDir : PathEntry := mkPathEntry true "__proto__" "/src/contracts/__proto__" None None.

Definition protoHost : Host := projectHost workspaceToml [flipperDir; protoDir].

(** An empty source directory. *)
Definition emptySourceHost : Host := tableHost [("/src", [])] [] [] [].

(** The user unchecks the second choice. *)
Definition withoutSecond (i : nat) : bool := negb (Nat.eqb i 1).

Definition convertingAnswers (sel : nat -> bool) : Answers :=
  mkAnswers newContract
    (mkConvertAnswers ("contracts", []) false ("crates", []) true false ("e2e", []) sel)
    true.

(** A file system that records the calls made on it; copying from a path in
    [unreadable] throws. *)
Definition recordingFs (unreadable : list string) (c : Materializer.FsCall)
    (w : list Materializer.FsCall) : list Materializer.FsCall * result unit :=
  (w ++ [c],
   match c with
   | Materializer.Copy src _ =>
       if bool_decide (src ∈ unreadable) then Throw (SysError "EACCES: permission denied") else Ok tt
   | Materializer.EnsureDir _ => Ok tt
   end).

End MoreExamples.

(** * Properties *)

(** Reading the fields of an outcome without unfolding the loop. *)
Ltac fields := cbn [Executor.ended Executor.trace Executor.final].

(** ** The package manifest merge *)

Section LodashFacts.

Variable f : option jsval -> jsval -> jsval.






End LodashFacts.





Section MergeFacts.

Variable st : string -> option Z.




















End MergeFacts.




(** An external object met by a template array: its keys are assigned onto
    the array, an index onto the element and [length] onto the length,
    which rejects what is no length. *)
Lemma merge_object_into_array :
  Lodash.merge Examples.decimalToNumber Lodash.templateFiles Lodash.indexedFiles
    = Ok {[ "files" := JArray [JStr "z"; JStr "b"] ]} /\
  Lodash.merge Examples.decimalToNumber Lodash.templateFiles Lodash.emptiedFiles
    = Ok {[ "files" := JArray [] ]} /\
  Lodash.merge Examples.decimalToNumber Lodash.templateFiles Lodash.badLengthFiles
    = Throw (RangeError "Invalid array length").
Proof. repeat split; vm_compute; reflexivity. Qed.

(** ** The root workspace manifest *)



(** What [readRootCargoToml] hands over always has a truthy [workspace]. *)
Lemma readRootCargoToml_workspace (host : Host) (pathToProject : string) (toml : gmap string jsval) :
  Init.readRootCargoToml host pathToProject = Ok (Some toml) ->
  truthy (default JUndefined (toml !! "workspace")) = true.
Proof.
  unfold Init.readRootCargoToml.
  destruct (pathExists host _); simpl; [|discriminate].
  destruct (readToml host _) as [t|e]; simpl; [|discriminate].
  destruct (truthy (default JUndefined (t !! "workspace"))) eqn:E; simpl; intros [= <-].
  - exact E.
  - now rewrite lookup_insert_eq.
Qed.


(** A root manifest whose [workspace] is a string: the flow throws before
    any task is enqueued for it. *)
Example rootToml_of_odd_manifest :
  exists m, Init.rootTomlFor Examples.oddHost "/src" = Throw (TypeError m).
Proof. eexists. vm_compute. reflexivity. Qed.

(** ** Test directory detection *)

Lemma getManualPaths_more (directoryType selected : string) (more paths : list string) :
  String.eqb directoryType "tests" = false ->
  Init.getManualPaths directoryType selected more paths = paths ++ selected :: more.
Proof.
  intros Hty. revert selected paths.
  induction more as [|next more IH]; intros selected paths; simpl; rewrite Hty; simpl.
  - reflexivity.
  - rewrite IH, <- app_assoc. reflexivity.
Qed.

Lemma getManualPaths_tests (selected : string) (more paths : list string) :
  Init.getManualPaths "tests" selected more paths = paths ++ [selected].
Proof. destruct more; reflexivity. Qed.

Lemma probeTestDir_first (host : Host) (root : string) (names : list string) :
  match Init.probeTestDir host root names with
  | Some d =>
      exists i n,
        names !! i = Some n /\ d = resolve host root n /\ pathExists host d = true /\
        forall j m, (j < i)%nat -> names !! j = Some m -> pathExists host (resolve host root m) = false
  | None => forall n, In n names -> pathExists host (resolve host root n) = false
  end.
Proof.
  induction names as [|n names IH]; simpl.
  - intros n [].
  - destruct (pathExists host (resolve host root n)) eqn:E.
    + exists 0%nat, n. repeat split; try assumption; try reflexivity. intros j m Hj. lia.
    + destruct (Init.probeTestDir host root names) as [d|].
      * destruct IH as (i & n' & Hi & Hd & Hex & Hbefore).
        exists (S i), n'. repeat split; try assumption.
        intros [|j] m Hj Hm; simpl in Hm.
        -- injection Hm as <-. exact E.
        -- apply (Hbefore j m); [lia|exact Hm].
      * intros m [<-|Hm]; [exact E|now apply IH].
Qed.

Lemma probeTestDir_none (host : Host) (root : string) (names : list string) :
  (forall n, In n names -> pathExists host (resolve host root n) = false) ->
  Init.probeTestDir host root names = None.
Proof.
  induction names as [|n names IH]; simpl; intros H; [reflexivity|].
  rewrite (H n) by now left. apply IH. intros m Hm. apply H. now right.
Qed.

(** C10. The probe tries [test], [tests], [spec], [specs] under the source
    project, in this order, and detects the first that exists: every name
    before the detected one does not exist. What [detectTests] returns
    hangs on the probe: with a directory detected, that directory, unless
    the user declines it and enters one; with none detected it returns
    nothing and asks nothing: it throws a [TypeError] while it builds the
    questions, whatever the user would have answered. *)
Theorem detect_tests_first_existing (host : Host) (pathToExistingProject : string)
    (ans : Init.ConvertAnswers) :
  Init.testDirNames = ["test"; "tests"; "spec"; "specs"] /\
  match Init.probeTestDir host pathToExistingProject Init.testDirNames with
  | Some d =>
      (exists i n,
          Init.testDirNames !! i = Some n /\
          d = resolve host pathToExistingProject n /\
          pathExists host d = true /\
          forall j m, (j < i)%nat -> Init.testDirNames !! j = Some m ->
                      pathExists host (resolve host pathToExistingProject m) = false) /\
      Init.detectTests host pathToExistingProject ans =
      Ok (if (negb (Init.detected (Some d)) || negb (Init.shouldUseDetectedTestDir ans))
             && Init.shouldInputTestDir ans
          then Some (fst (Init.manualTestDir ans))
          else Some d)
  | None =>
      (forall n, In n Init.testDirNames ->
                 pathExists host (resolve host pathToExistingProject n) = false) /\
      exists m, Init.detectTests host pathToExistingProject ans = Throw (TypeError m)
  end /\
  ((forall n, In n Init.testDirNames ->
              pathExists host (resolve host pathToExistingProject n) = false) ->
   exists m, Init.detectTests host pathToExistingProject ans = Throw (TypeError m)).
Proof.
  split; [reflexivity|].
  pose proof (probeTestDir_first host pathToExistingProject Init.testDirNames) as Hp.
  split.
  - unfold Init.detectTests.
    destruct (Init.probeTestDir host pathToExistingProject Init.testDirNames) as [d|].
    + split; [exact Hp|]. simpl Init.basenameOf. cbn [bind].
      rewrite getManualPaths_tests. simpl head.
      destruct (Init.detected (Some d)), (Init.shouldUseDetectedTestDir ans),
        (Init.shouldInputTestDir ans); reflexivity.
    + split; [exact Hp|]. eexists. reflexivity.
  - intros Hnone. unfold Init.detectTests.
    rewrite (probeTestDir_none _ _ _ Hnone). eexists. reflexivity.
Qed.

(** The theorem on a project with [tests] and [spec] but no [test]: [tests]
    is detected and returned; and on a project with none of the four: the
    user is not asked, the [TypeError] is thrown. *)
Lemma detect_tests_first_existing_witness :
  Init.detectTests Examples.testsHost "/src" Examples.defaultAnswers = Ok (Some "/src/tests") /\
  exists m, Init.detectTests Examples.bareHost "/src" Examples.defaultAnswers
            = Throw (TypeError m).
Proof.
  split.
  - pose proof (proj1 (proj2 (detect_tests_first_existing Examples.testsHost "/src"
                                Examples.defaultAnswers))) as H.
    change (Init.probeTestDir Examples.testsHost "/src" Init.testDirNames)
      with (Some "/src/tests") in H.
    exact (proj2 H).
  - apply (proj2 (proj2 (detect_tests_first_existing Examples.bareHost "/src"
                           Examples.defaultAnswers))).
    intros n Hn. simpl in Hn.
    destruct Hn as [<-|[<-|[<-|[<-|[]]]]]; vm_compute; reflexivity.
Defined.

(** ** The module-name resolver *)

Lemma resolve_entry_file (host : Host) (entry : PathEntry) :
  dirent_isDirectory entry = false ->
  Candidates.resolve_entry host entry =
  Ok (Candidates.with_moduleName entry (JStr (basename host (path entry))), []).
Proof. intros H. unfold Candidates.resolve_entry. rewrite H. reflexivity. Qed.

Lemma resolve_entry_no_manifest (host : Host) (entry : PathEntry) :
  pathExists host (resolve host (path entry) "Cargo.toml") = false ->
  Candidates.resolve_entry host entry =
  Ok (Candidates.with_moduleName entry (JStr (basename host (path entry))), []).
Proof.
  intros H. unfold Candidates.resolve_entry. rewrite H, andb_false_r. reflexivity.
Qed.

Lemma resolve_entry_manifest (host : Host) (entry : PathEntry) (toml : gmap string jsval) :
  dirent_isDirectory entry = true ->
  pathExists host (resolve host (path entry) "Cargo.toml") = true ->
  readToml host (resolve host (path entry) "Cargo.toml") = Ok toml ->
  Candidates.resolve_entry host entry =
  if truthy (Candidates.package_name toml)
  then Ok (Candidates.with_moduleName entry (Candidates.package_name toml), [])
  else Ok (Candidates.with_moduleName entry (JStr (basename host (path entry))),
           [Candidates.warning (basename host (path entry))]).
Proof.
  intros Hd He Hr. unfold Candidates.resolve_entry. rewrite Hd, He, Hr. simpl.
  destruct (truthy (Candidates.package_name toml)); reflexivity.
Qed.

Lemma resolve_entry_malformed (host : Host) (entry : PathEntry) (e : exn) :
  dirent_isDirectory entry = true ->
  pathExists host (resolve host (path entry) "Cargo.toml") = true ->
  readToml host (resolve host (path entry) "Cargo.toml") = Throw e ->
  Candidates.resolve_entry host entry = Throw e.
Proof.
  intros Hd He Hr. unfold Candidates.resolve_entry. rewrite Hd, He, Hr. reflexivity.
Qed.

(** A manifest that declares [package.name] as [v]. *)
Lemma package_name_declared (toml p : gmap string jsval) (v : jsval) :
  toml !! "package" = Some (JObj p) -> p !! "name" = Some v ->
  Candidates.package_name toml = v.
Proof. intros Ht Hp. unfold Candidates.package_name. rewrite Ht. simpl. now rewrite Hp. Qed.

(** A manifest with a [package] table that declares no name, or with no
    [package] at all. *)
Lemma package_name_undeclared (toml : gmap string jsval) :
  match toml !! "package" with
  | Some (JObj p) => p !! "name" = None
  | Some _ => False
  | None => True
  end ->
  Candidates.package_name toml = JUndefined.
Proof.
  unfold Candidates.package_name.
  destruct (toml !! "package") as [[| | | | | |p]|]; simpl; try tauto.
  intros ->. reflexivity.
Qed.

(** The groups of the resolver's result, entry by entry. *)
Lemma resolve_group_each (host : Host) (l l' : list PathEntry) (w : list string) :
  Candidates.resolve_group host l = Ok (l', w) ->
  Forall2 (fun e e' => exists we, Candidates.resolve_entry host e = Ok (e', we)) l l'.
Proof.
  revert l' w. induction l as [|e l IH]; simpl; intros l' w H.
  - injection H as <- <-. constructor.
  - destruct (Candidates.resolve_entry host e) as [[e1 w1]|] eqn:He; simpl in H; [|discriminate].
    destruct (Candidates.resolve_group host l) as [[l1 w2]|] eqn:Hl; simpl in H; [|discriminate].
    injection H as <- <-. constructor.
    + exists w1. exact He.
    + apply (IH l1 w2). reflexivity.
Qed.

Lemma resolve_group_total (host : Host) (l : list PathEntry) :
  (forall e, In e l -> exists r, Candidates.resolve_entry host e = Ok r) ->
  exists r, Candidates.resolve_group host l = Ok r.
Proof.
  induction l as [|e l IH]; simpl; intros H.
  - eexists. reflexivity.
  - destruct (H e) as [r1 ->]; [now left|]. simpl.
    destruct IH as [r2 ->]; [intros x Hx; apply H; now right|]. simpl.
    eexists. reflexivity.
Qed.

(** C3 (as amended). For an entry of the contracts or crates group, the
    resolver yields the base name of the entry's path by default: always for
    an entry that is no directory, and for a directory without a
    [Cargo.toml] directly inside. For a directory whose manifest parses, it
    yields the manifest's [package.name] when that value is truthy (a
    non-empty string), and the base name together with a warning when the
    manifest declares no package name or a falsy one (the empty string).
    The resolver applies this to every entry of both groups, in order, keeps
    the tests group as it is, and returns unless reading a manifest throws. *)
Theorem module_name_resolution (host : Host) :
  (forall entry,
      dirent_isDirectory entry = false ->
      Candidates.resolve_entry host entry =
      Ok (Candidates.with_moduleName entry (JStr (basename host (path entry))), [])) /\
  (forall entry,
      pathExists host (resolve host (path entry) "Cargo.toml") = false ->
      Candidates.resolve_entry host entry =
      Ok (Candidates.with_moduleName entry (JStr (basename host (path entry))), [])) /\
  (forall entry toml,
      dirent_isDirectory entry = true ->
      pathExists host (resolve host (path entry) "Cargo.toml") = true ->
      readToml host (resolve host (path entry) "Cargo.toml") = Ok toml ->
      (forall p v,
          toml !! "package" = Some (JObj p) -> p !! "name" = Some v -> truthy v = true ->
          Candidates.resolve_entry host entry = Ok (Candidates.with_moduleName entry v, [])) /\
      (truthy (Candidates.package_name toml) = false ->
       Candidates.resolve_entry host entry =
       Ok (Candidates.with_moduleName entry (JStr (basename host (path entry))),
           [Candidates.warning (basename host (path entry))])) /\
      (match toml !! "package" with
       | Some (JObj p) => p !! "name" = None
       | Some _ => False
       | None => True
       end -> truthy (Candidates.package_name toml) = false)) /\
  (forall c c' w,
      Candidates.resolve_candidates host c = Ok (c', w) ->
      Forall2 (fun e e' => exists we, Candidates.resolve_entry host e = Ok (e', we))
        (Candidates.contracts c) (Candidates.contracts c') /\
      Forall2 (fun e e' => exists we, Candidates.resolve_entry host e = Ok (e', we))
        (Candidates.crates c) (Candidates.crates c') /\
      Candidates.tests c' = Some (default [] (Candidates.tests c))) /\
  (forall c,
      (forall e, In e (Candidates.contracts c ++ Candidates.crates c) ->
                 exists r, Candidates.resolve_entry host e = Ok r) ->
      exists r, Candidates.resolve_candidates host c = Ok r).
Proof.
  split; [apply resolve_entry_file|].
  split; [apply resolve_entry_no_manifest|].
  split.
  { intros entry toml Hd He Hr. split; [|split].
    - intros p v Ht Hp Hv. rewrite (resolve_entry_manifest host entry toml Hd He Hr).
      rewrite (package_name_declared toml p v Ht Hp), Hv. reflexivity.
    - intros Hf. rewrite (resolve_entry_manifest host entry toml Hd He Hr), Hf. reflexivity.
    - intros Hu. now rewrite package_name_undeclared. }
  split.
  { intros c c' w H. unfold Candidates.resolve_candidates in H.
    destruct (Candidates.resolve_group host (Candidates.contracts c)) as [[cs w1]|] eqn:Hcs;
      simpl in H; [|discriminate].
    destruct (Candidates.resolve_group host (Candidates.crates c)) as [[cr w2]|] eqn:Hcr;
      simpl in H; [|discriminate].
    injection H as <- <-. simpl.
    split; [now apply (resolve_group_each host _ _ w1)|].
    split; [now apply (resolve_group_each host _ _ w2)|reflexivity]. }
  intros c H. unfold Candidates.resolve_candidates.
  destruct (resolve_group_total host (Candidates.contracts c)) as [r1 ->].
  { intros e He. apply H, in_or_app. now left. }
  destruct (resolve_group_total host (Candidates.crates c)) as [r2 ->].
  { intros e He. apply H, in_or_app. now right. }
  simpl. eexists. reflexivity.
Qed.

(** The theorem on the examples of the specification: [foo/] with a manifest
    naming [bar] resolves to [bar], and the file [foo.rs] to its base name. *)
Lemma module_name_resolution_witness :
  Candidates.resolve_entry Examples.barHost Examples.fooEntry
    = Ok (Candidates.with_moduleName Examples.fooEntry (JStr "bar"), []) /\
  Candidates.resolve_entry Examples.barHost Examples.fileEntry
    = Ok (Candidates.with_moduleName Examples.fileEntry (JStr "foo.rs"), []).
Proof.
  destruct (module_name_resolution Examples.barHost) as (Hfile & _ & Hdir & _).
  split.
  - destruct (Hdir Examples.fooEntry (Examples.packageToml (JStr "bar"))) as (Hnamed & _).
    + reflexivity.
    + vm_compute. reflexivity.
    + vm_compute. reflexivity.
    + apply (Hnamed {[ "name" := JStr "bar" ]} (JStr "bar")); reflexivity.
  - apply (Hfile Examples.fileEntry). reflexivity.
Defined.

(** C3 (as stated) fails: the directory [foo] directly contains a manifest
    that declares [package.name], as the empty string, and the resolver does
    not yield the declared name: it yields the base name and warns. *)
Lemma module_name_resolution_counterexample :
  dirent_isDirectory Examples.fooEntry = true /\
  readToml Examples.unnamedHost "/src/contracts/foo/Cargo.toml"
    = Ok (Examples.packageToml (JStr "")) /\
  Examples.packageToml (JStr "") !! "package" = Some (JObj {[ "name" := JStr "" ]}) /\
  Candidates.resolve_entry Examples.unnamedHost Examples.fooEntry
    = Ok (Candidates.with_moduleName Examples.fooEntry (JStr "foo"),
          ["Could not detect the contract name from Cargo.toml. Using [foo]"]) /\
  Candidates.resolve_entry Examples.unnamedHost Examples.fooEntry
    <> Ok (Candidates.with_moduleName Examples.fooEntry (JStr ""), []).
Proof.
  split; [reflexivity|].
  split; [vm_compute; reflexivity|].
  split; [vm_compute; reflexivity|].
  split; [vm_compute; reflexivity|].
  vm_compute. discriminate.
Qed.

(** ** The confirmation gate *)

Lemma checked_from_app (sel : nat -> bool) (l1 l2 : list PathEntry) (i : nat) :
  Candidates.checked_from sel i (l1 ++ l2) =
  Candidates.checked_from sel i l1 ++ Candidates.checked_from sel (i + length l1) l2.
Proof.
  revert i. induction l1 as [|e l1 IH]; intros i; simpl.
  - now rewrite Nat.add_0_r.
  - rewrite IH. replace (S i + length l1)%nat with (i + S (length l1))%nat by lia.
    destruct (sel i); reflexivity.
Qed.

Lemma checked_from_map (sel : nat -> bool) (g : PathEntry -> PathEntry) (l : list PathEntry) (i : nat) :
  Candidates.checked_from sel i (map g l) = map g (Candidates.checked_from sel i l).
Proof.
  revert i. induction l as [|e l IH]; intros i; simpl; [reflexivity|].
  rewrite IH. destruct (sel i); reflexivity.
Qed.


Lemma fold_push_contracts (l : list PathEntry) (a b : list PathEntry) (t : option (list PathEntry)) :
  fold_left Candidates.push_item (map (Candidates.choice "contracts") l)
    (Candidates.mkCopyCandidates a b t)
  = Candidates.mkCopyCandidates (a ++ map (Candidates.choice "contracts") l) b t.
Proof.
  revert a. induction l as [|e l IH]; intros a; simpl.
  - now rewrite app_nil_r.
  - unfold Candidates.push_item at 2. simpl. rewrite IH, <- app_assoc. reflexivity.
Qed.

Lemma fold_push_crates (l : list PathEntry) (a b : list PathEntry) (t : option (list PathEntry)) :
  fold_left Candidates.push_item (map (Candidates.choice "crates") l)
    (Candidates.mkCopyCandidates a b t)
  = Candidates.mkCopyCandidates a (b ++ map (Candidates.choice "crates") l) t.
Proof.
  revert b. induction l as [|e l IH]; intros b; simpl.
  - now rewrite app_nil_r.
  - unfold Candidates.push_item at 2. simpl. rewrite IH, <- app_assoc. reflexivity.
Qed.

Lemma fold_push_tests (l : list PathEntry) (a b t : list PathEntry) :
  fold_left Candidates.push_item (map (Candidates.choice "tests") l)
    (Candidates.mkCopyCandidates a b (Some t))
  = Candidates.mkCopyCandidates a b (Some (t ++ map (Candidates.choice "tests") l)).
Proof.
  revert t. induction l as [|e l IH]; intros t; simpl.
  - now rewrite app_nil_r.
  - unfold Candidates.push_item at 2. simpl. rewrite IH, <- app_assoc. reflexivity.
Qed.

(** The list the gate builds is the selection of the specification. *)
Lemma resultingList_selected (sel : nat -> bool) (c : Candidates.CopyCandidates) :
  Candidates.resultingList
    (Candidates.checked_from sel 0
       (Candidates.choices (Candidates.contracts c) (Candidates.crates c)
          (default [] (Candidates.tests c))))
  = Candidates.selected sel c.
Proof.
  unfold Candidates.resultingList, Candidates.choices, Candidates.selected.
  rewrite !checked_from_app, !checked_from_map, !length_map, !fold_left_app.
  rewrite fold_push_contracts, fold_push_crates, fold_push_tests. reflexivity.
Qed.

(** *** The store *)

Lemma alloc_candidates_some (h : Candidates.store) (cs cr ts : list PathEntry) :
  Candidates.alloc_candidates h (Candidates.mkCopyCandidates cs cr (Some ts)) =
  (length h + 3,
   h ++ [Candidates.CArray cs; Candidates.CArray cr; Candidates.CArray ts;
         Candidates.CObject (length h) (length h + 1) (Some (length h + 2))])%nat.
Proof.
  unfold Candidates.alloc_candidates, Candidates.alloc. simpl.
  rewrite !length_app. simpl. rewrite <- !app_assoc. simpl.
  replace (length h + 1 + 1 + 1)%nat with (length h + 3)%nat by lia.
  replace (length h + 1 + 1)%nat with (length h + 2)%nat by lia.
  reflexivity.
Qed.

Lemma lookup_app_at (h ext : Candidates.store) (j : nat) :
  (h ++ ext) !! (length h + j)%nat = ext !! j.
Proof. rewrite lookup_app_r by lia. f_equal. lia. Qed.

Lemma load_alloc_candidates (h : Candidates.store) (cs cr ts : list PathEntry) :
  let '(l', h') := Candidates.alloc_candidates h (Candidates.mkCopyCandidates cs cr (Some ts)) in
  Candidates.load h' l' = Some (Candidates.mkCopyCandidates cs cr (Some ts)).
Proof.
  rewrite alloc_candidates_some. unfold Candidates.load, Candidates.read_array.
  rewrite (lookup_app_at h _ 3). simpl.
  replace (length h) with (length h + 0)%nat at 1 by lia.
  rewrite (lookup_app_at h _ 0), (lookup_app_at h _ 1), (lookup_app_at h _ 2). reflexivity.
Qed.

Lemma read_array_after_tests (h : Candidates.store) (l a b x : nat) (items : list PathEntry) :
  h !! l = Some (Candidates.CObject a b None) ->
  Candidates.read_array h x = Some items ->
  Candidates.read_array
    (<[l := Candidates.CObject a b (Some (length h))]> (h ++ [Candidates.CArray []])) x
  = Some items.
Proof.
  intros Hl Hx. unfold Candidates.read_array in *.
  assert (x <> l) as Hne by (intros E; rewrite E, Hl in Hx; discriminate).
  assert (x < length h)%nat as Hlt.
  { apply lookup_lt_is_Some. destruct (h !! x); [eauto|discriminate]. }
  rewrite list_lookup_insert_ne by congruence.
  now rewrite lookup_app_l by exact Hlt.
Qed.

Lemma read_array_new_tests (h : Candidates.store) (l a b : nat) :
  h !! l = Some (Candidates.CObject a b None) ->
  Candidates.read_array
    (<[l := Candidates.CObject a b (Some (length h))]> (h ++ [Candidates.CArray []])) (length h)
  = Some [].
Proof.
  intros Hl. unfold Candidates.read_array.
  assert (l < length h)%nat as Hlt by (apply lookup_lt_is_Some; eauto).
  rewrite list_lookup_insert_ne by lia.
  rewrite lookup_app_r by lia. now rewrite Nat.sub_diag.
Qed.

(** The gate on an input that has a tests group: nothing but allocation. *)
Lemma confirmCopyList_tests_present (sel : nat -> bool) (l : nat) (h : Candidates.store)
    (a b t : nat) (c : Candidates.CopyCandidates) :
  h !! l = Some (Candidates.CObject a b (Some t)) ->
  Candidates.load h l = Some c ->
  Candidates.confirmCopyList sel l h = Some (Candidates.alloc_candidates h (Candidates.selected sel c)).
Proof.
  intros Hl Hload. unfold Candidates.confirmCopyList, Candidates.load in *. rewrite Hl in *.
  destruct (Candidates.read_array h a) as [cs|]; simpl in *; [|discriminate].
  destruct (Candidates.read_array h b) as [cr|]; simpl in *; [|discriminate].
  destruct (Candidates.read_array h t) as [ts|]; simpl in *; [|discriminate].
  injection Hload as <-. f_equal.
  now rewrite <- resultingList_selected.
Qed.

(** The gate on an input without a tests group: the input object is given a
    new, empty one first. *)
Lemma confirmCopyList_tests_absent (sel : nat -> bool) (l : nat) (h : Candidates.store)
    (a b : nat) (c : Candidates.CopyCandidates) :
  h !! l = Some (Candidates.CObject a b None) ->
  Candidates.load h l = Some c ->
  Candidates.confirmCopyList sel l h =
  Some (Candidates.alloc_candidates
          (<[l := Candidates.CObject a b (Some (length h))]> (h ++ [Candidates.CArray []]))
          (Candidates.selected sel c)).
Proof.
  intros Hl Hload. unfold Candidates.confirmCopyList, Candidates.load in *. rewrite Hl in *.
  destruct (Candidates.read_array h a) as [cs|] eqn:Ha; simpl in *; [|discriminate].
  destruct (Candidates.read_array h b) as [cr|] eqn:Hb; simpl in *; [|discriminate].
  injection Hload as <-.
  rewrite (read_array_after_tests h l a b a cs Hl Ha). simpl.
  rewrite (read_array_after_tests h l a b b cr Hl Hb). simpl.
  rewrite (read_array_new_tests h l a b Hl). simpl.
  f_equal. now rewrite <- resultingList_selected.
Qed.

Lemma confirmCopyList_loads (sel : nat -> bool) (l : nat) (h : Candidates.store)
    (c : Candidates.CopyCandidates) :
  Candidates.load h l = Some c ->
  exists l' h',
    Candidates.confirmCopyList sel l h = Some (l', h') /\
    Candidates.load h' l' = Some (Candidates.selected sel c).
Proof.
  intros Hload.
  assert (exists a b t, h !! l = Some (Candidates.CObject a b t)) as (a & b & t & Hl).
  { unfold Candidates.load in Hload. destruct (h !! l) as [[|a b t]|]; try discriminate. eauto. }
  destruct t as [t|].
  - rewrite (confirmCopyList_tests_present sel l h a b t c Hl Hload).
    pose proof (load_alloc_candidates h
                  (Candidates.contracts (Candidates.selected sel c))
                  (Candidates.crates (Candidates.selected sel c))
                  (map (Candidates.choice "tests")
                     (Candidates.checked_from sel
                        (length (Candidates.contracts c) + length (Candidates.crates c))
                        (default [] (Candidates.tests c))))) as H.
    change (Candidates.mkCopyCandidates _ _ _) with (Candidates.selected sel c) in H.
    destruct (Candidates.alloc_candidates h (Candidates.selected sel c)) as [l' h'].
    exists l', h'. split; [reflexivity|exact H].
  - rewrite (confirmCopyList_tests_absent sel l h a b c Hl Hload).
    set (h1 := <[l := _]> _).
    pose proof (load_alloc_candidates h1
                  (Candidates.contracts (Candidates.selected sel c))
                  (Candidates.crates (Candidates.selected sel c))
                  (map (Candidates.choice "tests")
                     (Candidates.checked_from sel
                        (length (Candidates.contracts c) + length (Candidates.crates c))
                        (default [] (Candidates.tests c))))) as H.
    change (Candidates.mkCopyCandidates _ _ _) with (Candidates.selected sel c) in H.
    destruct (Candidates.alloc_candidates h1 (Candidates.selected sel c)) as [l' h'].
    exists l', h'. split; [reflexivity|exact H].
Qed.




(** ** The stages and the candidate set they are given *)

#[local] Arguments Candidates.alloc_candidates : simpl never.

Lemma fold_push_tests_some (answer : list PathEntry) (a b t : list PathEntry) :
  exists a' b' t',
    fold_left Candidates.push_item answer (Candidates.mkCopyCandidates a b (Some t))
    = Candidates.mkCopyCandidates a' b' (Some t').
Proof.
  revert a b t. induction answer as [|item answer IH]; intros a b t; simpl.
  - eauto.
  - unfold Candidates.push_item at 2. simpl.
    destruct (group item) as [g|]; [|apply IH].
    destruct (String.eqb g "contracts"); [apply IH|].
    destruct (String.eqb g "crates"); [apply IH|].
    destruct (String.eqb g "tests"); apply IH.
Qed.

Lemma alloc_candidates_fresh (h0 h : list Candidates.cell) (cs cr ts : list PathEntry) :
  (length h0 <= length h)%nat ->
  let '(l', h') := Candidates.alloc_candidates h (Candidates.mkCopyCandidates cs cr (Some ts)) in
  Candidates.extends h h' /\ Candidates.fresh_set h0 h' l'.
Proof.
  intros Hle. rewrite alloc_candidates_some. split.
  - intros i x Hi. now apply lookup_app_l_Some.
  - split; [apply lookup_ge_None; lia|].
    exists (length h), (length h + 1)%nat, (length h + 2)%nat.
    split; [now rewrite (lookup_app_at h _ 3)|].
    repeat split; apply lookup_ge_None; lia.
Qed.

Lemma confirmCopyList_allocates (sel : nat -> bool) (l : nat) (h : list Candidates.cell)
    (a b : nat) (t : option nat) (l' : nat) (h' : list Candidates.cell) :
  h !! l = Some (Candidates.CObject a b t) ->
  Candidates.confirmCopyList sel l h = Some (l', h') ->
  exists cs cr ts,
    (l', h') =
    Candidates.alloc_candidates
      match t with
      | Some _ => h
      | None => <[l := Candidates.CObject a b (Some (length h))]> (h ++ [Candidates.CArray []])
      end
      (Candidates.mkCopyCandidates cs cr (Some ts)).
Proof.
  intros Hl Hc. unfold Candidates.confirmCopyList in Hc. rewrite Hl in Hc.
  unfold Candidates.resultingList in Hc.
  destruct t as [t|]; cbn in Hc.
  - destruct (Candidates.read_array h a) as [cs|]; cbn in Hc; [|discriminate].
    destruct (Candidates.read_array h b) as [cr|]; cbn in Hc; [|discriminate].
    destruct (Candidates.read_array h t) as [ts|]; cbn in Hc; [|discriminate].
    destruct (fold_push_tests_some
                (Candidates.checked_from sel 0 (Candidates.choices cs cr ts)) [] [] [])
      as (a' & b' & t' & E).
    rewrite E in Hc. exists a', b', t'. congruence.
  - set (h1 := <[l := _]> _) in *.
    destruct (Candidates.read_array h1 a) as [cs|]; cbn in Hc; [|discriminate].
    destruct (Candidates.read_array h1 b) as [cr|]; cbn in Hc; [|discriminate].
    destruct (Candidates.read_array h1 (length h)) as [ts|]; cbn in Hc; [|discriminate].
    destruct (fold_push_tests_some
                (Candidates.checked_from sel 0 (Candidates.choices cs cr ts)) [] [] [])
      as (a' & b' & t' & E).
    rewrite E in Hc. exists a', b', t'. congruence.
Qed.

Lemma detectModuleNames_allocates (host : Host) (l : nat) (h : list Candidates.cell)
    (l' : nat) (h' : list Candidates.cell) (w : list string) :
  Candidates.detectModuleNames host l h = Some (Ok (l', h', w)) ->
  exists cs cr ts,
    (l', h') = Candidates.alloc_candidates h (Candidates.mkCopyCandidates cs cr (Some ts)).
Proof.
  unfold Candidates.detectModuleNames. intros H.
  destruct (Candidates.load h l) as [c|]; cbn in H; [|discriminate].
  apply (inj Some) in H. unfold Candidates.resolve_candidates in H.
  destruct (Candidates.resolve_group host (Candidates.contracts c)) as [[cs w1]|];
    cbn in H; [|discriminate].
  destruct (Candidates.resolve_group host (Candidates.crates c)) as [[cr w2]|];
    cbn in H; [|discriminate].
  exists cs, cr, (default [] (Candidates.tests c)).
  destruct (Candidates.alloc_candidates h _) as [l1 h1]. congruence.
Qed.

(** C8 (as amended). The resolver returns a new candidate set and writes to
    nothing it was given: every cell of the store is as before, and the
    returned object and its three groups are newly allocated. So does the
    gate on an input that has a tests group. On an input without one the
    gate first sets the input's [tests] to a new empty array, so the input
    object is not as before; its contracts and crates groups and every
    other cell are, and the returned set is new all the same. Both stages
    return on every well-formed input (the resolver possibly by throwing). *)
Theorem stages_leave_input (h : list Candidates.cell) (l : nat) :
  (forall host l' h' w,
      Candidates.detectModuleNames host l h = Some (Ok (l', h', w)) ->
      Candidates.extends h h' /\ Candidates.fresh_set h h' l') /\
  (forall sel a b t l' h',
      h !! l = Some (Candidates.CObject a b (Some t)) ->
      Candidates.confirmCopyList sel l h = Some (l', h') ->
      Candidates.extends h h' /\ Candidates.fresh_set h h' l') /\
  (forall sel a b l' h',
      h !! l = Some (Candidates.CObject a b None) ->
      Candidates.confirmCopyList sel l h = Some (l', h') ->
      h' !! l = Some (Candidates.CObject a b (Some (length h))) /\
      h' !! length h = Some (Candidates.CArray []) /\
      (forall i x, i <> l -> h !! i = Some x -> h' !! i = Some x) /\
      Candidates.fresh_set h h' l') /\
  (forall c,
      Candidates.load h l = Some c ->
      (forall sel, exists r, Candidates.confirmCopyList sel l h = Some r) /\
      (forall host, exists r, Candidates.detectModuleNames host l h = Some r)).
Proof.
  split; [|split; [|split]].
  - intros host l' h' w H.
    destruct (detectModuleNames_allocates host l h l' h' w H) as (cs & cr & ts & E).
    pose proof (alloc_candidates_fresh h h cs cr ts (Nat.le_refl _)) as F.
    rewrite <- E in F. exact F.
  - intros sel a b t l' h' Hl H.
    destruct (confirmCopyList_allocates sel l h a b (Some t) l' h' Hl H) as (cs & cr & ts & E).
    pose proof (alloc_candidates_fresh h h cs cr ts (Nat.le_refl _)) as F.
    rewrite <- E in F. exact F.
  - intros sel a b l' h' Hl H.
    destruct (confirmCopyList_allocates sel l h a b None l' h' Hl H) as (cs & cr & ts & E).
    assert (l < length h)%nat as Hlt by (apply lookup_lt_is_Some; eauto).
    set (h1 := <[l := Candidates.CObject a b (Some (length h))]> (h ++ [Candidates.CArray []])) in *.
    assert (length h <= length h1)%nat as Hle.
    { unfold h1. rewrite length_insert, length_app. simpl. lia. }
    pose proof (alloc_candidates_fresh h h1 cs cr ts Hle) as F.
    rewrite <- E in F. destruct F as (Hext & Hfresh).
    split; [|split; [|split]].
    + apply Hext. unfold h1. apply list_lookup_insert_eq. rewrite length_app. simpl. lia.
    + apply Hext. unfold h1. rewrite list_lookup_insert_ne by lia.
      rewrite lookup_app_r by lia. now rewrite Nat.sub_diag.
    + intros i x Hne Hi. apply Hext. unfold h1.
      rewrite list_lookup_insert_ne by congruence. now apply lookup_app_l_Some.
    + exact Hfresh.
  - intros c Hload. split.
    + intros sel. destruct (confirmCopyList_loads sel l h c Hload) as (l' & h' & Hc & _). eauto.
    + intros host. unfold Candidates.detectModuleNames. rewrite Hload. simpl. eauto.
Qed.

(** The theorem on the store of [{contracts: [X, Y], crates: [], tests: [Z]}]:
    after the gate the four cells are as they were. *)
Lemma stages_leave_input_witness :
  exists l' h',
    Candidates.confirmCopyList Examples.withoutFirst 3 Examples.xyzStore = Some (l', h') /\
    Candidates.extends Examples.xyzStore h' /\ Candidates.fresh_set Examples.xyzStore h' l'.
Proof.
  destruct (Candidates.confirmCopyList Examples.withoutFirst 3 Examples.xyzStore)
    as [[l' h']|] eqn:E; [|discriminate].
  exists l', h'. split; [reflexivity|].
  apply (proj1 (proj2 (stages_leave_input Examples.xyzStore 3))
           Examples.withoutFirst 0%nat 1%nat 2%nat l' h'); [reflexivity|exact E].
Defined.

(** C8 (as stated) fails for the gate: given the set
    [{contracts: [X, Y], crates: []}], which has no tests group, the input
    object is not unchanged after the gate ran: it has a tests group. *)
Lemma stages_leave_input_counterexample :
  Examples.xyStore !! 2%nat = Some (Candidates.CObject 0 1 None) /\
  exists l' h',
    Candidates.confirmCopyList (fun _ => true) 2 Examples.xyStore = Some (l', h') /\
    h' !! 2%nat = Some (Candidates.CObject 0 1 (Some 3%nat)) /\
    h' !! 2%nat <> Examples.xyStore !! 2%nat.
Proof.
  split; [reflexivity|].
  eexists _, _. split; [vm_compute; reflexivity|].
  split; [reflexivity|]. simpl. discriminate.
Qed.

(** ** The task queue *)

Section QueueFacts.

Variable Op : Type.
Variable Cb : Type.
Variable St : Type.
Variable perform : Op -> St -> St * result jsval.
Variable invoke : Cb -> jsval -> St -> St.

#[local] Abbreviation Task := (Executor.Task Op Cb).
#[local] Abbreviation run_loop := (Executor.run_loop perform invoke).
#[local] Abbreviation run_queue := (Executor.run_queue perform invoke).

Lemma invocations_app (a b : list (Executor.event Op Cb)) :
  Executor.invocations (a ++ b) = Executor.invocations a ++ Executor.invocations b.
Proof.
  induction a as [|ev a IH]; simpl; [reflexivity|].
  destruct ev; simpl; now rewrite IH.
Qed.

Lemma callbacks_app (a b : list (Executor.event Op Cb)) :
  Executor.callbacks (a ++ b) = Executor.callbacks a ++ Executor.callbacks b.
Proof.
  induction a as [|ev a IH]; simpl; [reflexivity|].
  destruct ev; simpl; now rewrite IH.
Qed.

(** One turn of the loop on a task whose operation returns. *)
Lemma run_loop_returns (t : Task) (q : list Task) (s s' : St) (v : jsval) :
  perform (Executor.task t) s = (s', Ok v) ->
  run_loop (t :: q) s =
  let o := run_loop q (fst (Executor.after_task invoke t v s')) in
  Executor.mkOutcome (Executor.final o)
    ([Executor.Announced (Executor.runningMessage t); Executor.Invoked (Executor.task t);
      Executor.Succeeded (Executor.successMessage t)]
     ++ snd (Executor.after_task invoke t v s') ++ Executor.trace o)
    (Executor.ended o).
Proof.
  intros Hp. unfold run_loop. simpl.
  unfold Executor.runCommand, Executor.command_of. rewrite Hp. simpl.
  destruct (Executor.after_task invoke t v s') as [s2 evs2]. reflexivity.
Qed.

(** One turn on a task whose operation throws and whose failure is fatal. *)
Lemma run_loop_fatal (t : Task) (q : list Task) (s s' : St) (e : exn) :
  perform (Executor.task t) s = (s', Throw e) ->
  Executor.fatal t = true ->
  run_loop (t :: q) s =
  Executor.mkOutcome s'
    [Executor.Announced (Executor.runningMessage t); Executor.Invoked (Executor.task t);
     Executor.Failed (Executor.failMessage t)]
    (Executor.Aborted e).
Proof.
  intros Hp Hf. unfold run_loop. simpl.
  unfold Executor.runCommand, Executor.command_of. rewrite Hp.
  unfold Executor.fatal in Hf. rewrite Hf. reflexivity.
Qed.

(** One turn on a task whose operation throws and whose failure is not. *)
Lemma run_loop_continues (t : Task) (q : list Task) (s s' : St) (e : exn) :
  perform (Executor.task t) s = (s', Throw e) ->
  Executor.fatal t = false ->
  run_loop (t :: q) s =
  let o := run_loop q s' in
  Executor.mkOutcome (Executor.final o)
    ([Executor.Announced (Executor.runningMessage t); Executor.Invoked (Executor.task t);
      Executor.Failed (Executor.failMessage t); Executor.Continued e]
     ++ Executor.trace o)
    (Executor.ended o).
Proof.
  intros Hp Hf. unfold run_loop. simpl.
  unfold Executor.runCommand, Executor.command_of. rewrite Hp.
  unfold Executor.fatal in Hf. rewrite Hf. simpl.
  unfold Executor.after_task. simpl. destruct (Executor.callback t); reflexivity.
Qed.

Lemma after_task_silent (t : Task) (v : jsval) (s : St) :
  Executor.invocations (snd (Executor.after_task invoke t v s)) = [].
Proof.
  unfold Executor.after_task.
  destruct (Executor.callback t); [destruct (truthy v)|]; reflexivity.
Qed.

(** The loop over a queue in two parts. *)
Lemma run_loop_app (q1 q2 : list Task) (s : St) :
  run_loop (q1 ++ q2) s =
  match Executor.ended (run_loop q1 s) with
  | Executor.Completed =>
      let o := run_loop q2 (Executor.final (run_loop q1 s)) in
      Executor.mkOutcome (Executor.final o)
        (Executor.trace (run_loop q1 s) ++ Executor.trace o) (Executor.ended o)
  | Executor.Aborted _ => run_loop q1 s
  end.
Proof.
  revert s. induction q1 as [|t q1 IH]; intros s.
  - simpl. destruct (run_loop q2 s); reflexivity.
  - destruct (perform (Executor.task t) s) as [s' [v|e]] eqn:Hp.
    + rewrite <- app_comm_cons.
      rewrite (run_loop_returns t (q1 ++ q2) s s' v Hp), (run_loop_returns t q1 s s' v Hp).
      cbv zeta. rewrite IH. simpl.
      destruct (Executor.ended (run_loop q1 _)) eqn:E; simpl; rewrite ?E; [|reflexivity].
      now rewrite <- !app_assoc.
    + destruct (Executor.fatal t) eqn:Hf.
      * rewrite <- app_comm_cons.
        rewrite (run_loop_fatal t (q1 ++ q2) s s' e Hp Hf), (run_loop_fatal t q1 s s' e Hp Hf).
        reflexivity.
      * rewrite <- app_comm_cons.
        rewrite (run_loop_continues t (q1 ++ q2) s s' e Hp Hf),
          (run_loop_continues t q1 s s' e Hp Hf).
        cbv zeta. rewrite IH. simpl.
        destruct (Executor.ended (run_loop q1 s')) eqn:E; simpl; rewrite ?E; reflexivity.
Qed.

(** The loop logs nothing itself: the banner comes after it. *)
Lemma run_loop_no_log (q : list Task) (s : St) (line : string) :
  ~ In (Executor.Logged line) (Executor.trace (run_loop q s)).
Proof.
  revert s. induction q as [|t q IH]; intros s; [intros []|].
  destruct (perform (Executor.task t) s) as [s' [v|e]] eqn:Hp.
  - rewrite (run_loop_returns t q s s' v Hp). cbv zeta. simpl.
    intros [H|[H|[H|H]]]; try discriminate.
    apply in_app_or in H as [H|H]; [|exact (IH _ H)].
    unfold Executor.after_task in H.
    destruct (Executor.callback t); [destruct (truthy v)|]; simpl in H;
      try destruct H as [H|H]; try discriminate; try contradiction.
  - destruct (Executor.fatal t) eqn:Hf.
    + rewrite (run_loop_fatal t q s s' e Hp Hf). simpl.
      intros [H|[H|[H|H]]]; try discriminate; contradiction.
    + rewrite (run_loop_continues t q s s' e Hp Hf). cbv zeta. simpl.
      intros [H|[H|[H|[H|H]]]]; try discriminate. exact (IH _ H).
Qed.

(** A loop that completes has invoked every task of the queue, in order. *)
Lemma run_loop_completed (q : list Task) (s : St) :
  Executor.ended (run_loop q s) = Executor.Completed ->
  Executor.invocations (Executor.trace (run_loop q s)) = map Executor.task q.
Proof.
  revert s. induction q as [|t q IH]; intros s; [reflexivity|].
  destruct (perform (Executor.task t) s) as [s' [v|e]] eqn:Hp.
  - rewrite (run_loop_returns t q s s' v Hp). cbv zeta. simpl. intros H.
    rewrite invocations_app, after_task_silent. simpl. f_equal. now apply IH.
  - destruct (Executor.fatal t) eqn:Hf.
    + rewrite (run_loop_fatal t q s s' e Hp Hf). discriminate.
    + rewrite (run_loop_continues t q s s' e Hp Hf). cbv zeta. simpl. intros H.
      f_equal. now apply IH.
Qed.

(** A loop that aborts stopped at a task whose operation threw and whose
    failure is fatal, after the tasks before it, and invoked none after. *)
Lemma run_loop_aborted (q : list Task) (s : St) (e : exn) :
  Executor.ended (run_loop q s) = Executor.Aborted e ->
  exists q1 t q2 s',
    q = q1 ++ t :: q2 /\
    Executor.ended (run_loop q1 s) = Executor.Completed /\
    perform (Executor.task t) (Executor.final (run_loop q1 s)) = (s', Throw e) /\
    Executor.fatal t = true /\
    Executor.invocations (Executor.trace (run_loop q s)) = map Executor.task (q1 ++ [t]).
Proof.
  revert s. induction q as [|t q IH]; intros s; [discriminate|].
  destruct (perform (Executor.task t) s) as [s' [v|e']] eqn:Hp.
  - rewrite (run_loop_returns t q s s' v Hp). cbv zeta. simpl. intros H.
    destruct (IH _ H) as (q1 & t1 & q2 & s1 & -> & Hc & Hp1 & Hf & Hi).
    exists (t :: q1), t1, q2, s1. split; [reflexivity|].
    rewrite (run_loop_returns t q1 s s' v Hp). cbv zeta. simpl.
    split; [exact Hc|]. split; [exact Hp1|]. split; [exact Hf|].
    rewrite invocations_app, after_task_silent. simpl. f_equal. exact Hi.
  - destruct (Executor.fatal t) eqn:Hf.
    + rewrite (run_loop_fatal t q s s' e' Hp Hf). simpl. intros [= ->].
      exists [], t, q, s'. repeat split; try assumption; reflexivity.
    + rewrite (run_loop_continues t q s s' e' Hp Hf). cbv zeta. simpl. intros H.
      destruct (IH _ H) as (q1 & t1 & q2 & s1 & -> & Hc & Hp1 & Hf1 & Hi).
      exists (t :: q1), t1, q2, s1. split; [reflexivity|].
      rewrite (run_loop_continues t q1 s s' e' Hp Hf). cbv zeta. simpl.
      split; [exact Hc|]. split; [exact Hp1|]. split; [exact Hf1|].
      f_equal. exact Hi.
Qed.

Lemma run_loop_all_nonfatal (q : list Task) (s : St) :
  (forall t, In t q -> Executor.fatal t = false) ->
  Executor.ended (run_loop q s) = Executor.Completed.
Proof.
  revert s. induction q as [|t q IH]; intros s H; [reflexivity|].
  assert (forall t', In t' q -> Executor.fatal t' = false) as Hq by (intros; apply H; now right).
  destruct (perform (Executor.task t) s) as [s' [v|e]] eqn:Hp.
  - rewrite (run_loop_returns t q s s' v Hp). cbv zeta. simpl. now apply IH.
  - rewrite (run_loop_continues t q s s' e Hp (H t (or_introl eq_refl))). cbv zeta. simpl.
    now apply IH.
Qed.

(** The run in terms of the loop. *)
Lemma run_queue_completed (q : list Task) (s : St) :
  Executor.ended (run_loop q s) = Executor.Completed ->
  run_queue q s =
  Executor.mkOutcome (Executor.final (run_loop q s))
    (Executor.trace (run_loop q s) ++ [Executor.Logged Executor.banner]) Executor.Completed.
Proof. intros H. unfold run_queue, Executor.run_queue. fold run_loop. now rewrite H. Qed.

Lemma run_queue_aborted (q : list Task) (s : St) (e : exn) :
  Executor.ended (run_loop q s) = Executor.Aborted e ->
  run_queue q s = run_loop q s.
Proof. intros H. unfold run_queue, Executor.run_queue. fold run_loop. now rewrite H. Qed.

Lemma run_queue_ended (q : list Task) (s : St) :
  Executor.ended (run_queue q s) = Executor.ended (run_loop q s).
Proof.
  destruct (Executor.ended (run_loop q s)) as [|e] eqn:H.
  - now rewrite (run_queue_completed q s H).
  - now rewrite (run_queue_aborted q s e H).
Qed.

Lemma run_queue_invocations (q : list Task) (s : St) :
  Executor.invocations (Executor.trace (run_queue q s)) =
  Executor.invocations (Executor.trace (run_loop q s)).
Proof.
  destruct (Executor.ended (run_loop q s)) as [|e] eqn:H.
  - rewrite (run_queue_completed q s H). simpl. rewrite invocations_app. simpl.
    now rewrite app_nil_r.
  - now rewrite (run_queue_aborted q s e H).
Qed.

Lemma run_queue_callbacks (q : list Task) (s : St) :
  Executor.callbacks (Executor.trace (run_queue q s)) =
  Executor.callbacks (Executor.trace (run_loop q s)).
Proof.
  destruct (Executor.ended (run_loop q s)) as [|e] eqn:H.
  - rewrite (run_queue_completed q s H). simpl. rewrite callbacks_app. simpl.
    now rewrite app_nil_r.
  - now rewrite (run_queue_aborted q s e H).
Qed.

End QueueFacts.

Section QueueClaims.

Variable Op : Type.
Variable Cb : Type.
Variable St : Type.
Variable perform : Op -> St -> St * result jsval.
Variable invoke : Cb -> jsval -> St -> St.

#[local] Abbreviation Task := (Executor.Task Op Cb).
#[local] Abbreviation run_loop := (Executor.run_loop perform invoke).
#[local] Abbreviation run_queue := (Executor.run_queue perform invoke).

(** The loop from the task at the end of a completed prefix. *)
Lemma run_loop_at (q1 : list Task) (t : Task) (q2 : list Task) (s : St) :
  Executor.ended (run_loop q1 s) = Executor.Completed ->
  run_loop (q1 ++ t :: q2) s =
  let o := run_loop (t :: q2) (Executor.final (run_loop q1 s)) in
  Executor.mkOutcome (Executor.final o)
    (Executor.trace (run_loop q1 s) ++ Executor.trace o) (Executor.ended o).
Proof.
  intros Hc. rewrite run_loop_app. now rewrite Hc.
Qed.

Lemma not_banner_logged_loop (q : list Task) (s : St) :
  ~ Executor.banner_logged (Executor.trace (run_loop q s)).
Proof. apply run_loop_no_log. Qed.

(** A fatal failure after a completed prefix. *)
Lemma run_queue_fatal_at (q1 : list Task) (t : Task) (q2 : list Task) (s s' : St) (e : exn) :
  Executor.ended (run_loop q1 s) = Executor.Completed ->
  perform (Executor.task t) (Executor.final (run_loop q1 s)) = (s', Throw e) ->
  Executor.fatal t = true ->
  Executor.ended (run_queue (q1 ++ t :: q2) s) = Executor.Aborted e /\
  Executor.invocations (Executor.trace (run_queue (q1 ++ t :: q2) s))
    = map Executor.task (q1 ++ [t]) /\
  ~ Executor.banner_logged (Executor.trace (run_queue (q1 ++ t :: q2) s)).
Proof.
  intros Hc Hp Hf.
  assert (Executor.ended (run_loop (q1 ++ t :: q2) s) = Executor.Aborted e) as Ha.
  { rewrite (run_loop_at q1 t q2 s Hc). cbv zeta. fields.
    now rewrite (run_loop_fatal _ _ _ perform invoke t q2 _ s' e Hp Hf). }
  rewrite (run_queue_aborted _ _ _ perform invoke _ s e Ha).
  split; [exact Ha|]. split; [|apply not_banner_logged_loop].
  rewrite (run_loop_at q1 t q2 s Hc). cbv zeta. fields.
  rewrite invocations_app.
  rewrite (run_loop_completed _ _ _ perform invoke q1 s Hc).
  rewrite (run_loop_fatal _ _ _ perform invoke t q2 _ s' e Hp Hf). fields.
  now rewrite map_app.
Qed.

(** A failure that is not fatal, after a completed prefix. *)
Lemma run_queue_continues_at (q1 : list Task) (t : Task) (q2 : list Task) (s s' : St) (e : exn) :
  Executor.ended (run_loop q1 s) = Executor.Completed ->
  perform (Executor.task t) (Executor.final (run_loop q1 s)) = (s', Throw e) ->
  Executor.fatal t = false ->
  Executor.ended (run_queue (q1 ++ t :: q2) s) = Executor.ended (run_queue q2 s') /\
  Executor.invocations (Executor.trace (run_queue (q1 ++ t :: q2) s))
    = map Executor.task (q1 ++ [t]) ++ Executor.invocations (Executor.trace (run_queue q2 s')).
Proof.
  intros Hc Hp Hf.
  rewrite !run_queue_ended, !run_queue_invocations.
  rewrite (run_loop_at q1 t q2 s Hc). cbv zeta. fields.
  rewrite (run_loop_continues _ _ _ perform invoke t q2 _ s' e Hp Hf). cbv zeta. fields.
  split; [reflexivity|].
  rewrite invocations_app.
  rewrite (run_loop_completed _ _ _ perform invoke q1 s Hc).
  rewrite map_app, <- app_assoc. reflexivity.
Qed.

(** C2. The executor runs the tasks in the order they were enqueued, each
    once. A run that completes has invoked exactly the queue, in order, and
    ends with the banner. A run that aborts has invoked the queue up to and
    including one task, whose operation failed and whose failure is fatal,
    and nothing after it, and logs no banner. Whenever a task fails after
    the tasks before it were run: if its flag is true, or unspecified, the
    run aborts with that error and no later task is invoked; if its flag is
    false the run goes on with the next task, and ends as the rest of the
    queue ends. A queue whose failures are all marked non-fatal completes. *)
Theorem task_queue_fifo (q : list Task) (s : St) :
  (Executor.ended (run_queue q s) = Executor.Completed ->
   Executor.invocations (Executor.trace (run_queue q s)) = map Executor.task q /\
   last (Executor.trace (run_queue q s)) = Some (Executor.Logged Executor.banner)) /\
  (forall e,
      Executor.ended (run_queue q s) = Executor.Aborted e ->
      ~ Executor.banner_logged (Executor.trace (run_queue q s)) /\
      exists q1 t q2 s',
        q = q1 ++ t :: q2 /\
        Executor.ended (run_loop q1 s) = Executor.Completed /\
        perform (Executor.task t) (Executor.final (run_loop q1 s)) = (s', Throw e) /\
        Executor.fatal t = true /\
        Executor.invocations (Executor.trace (run_queue q s)) = map Executor.task (q1 ++ [t])) /\
  (forall q1 t q2 s' e,
      q = q1 ++ t :: q2 ->
      Executor.ended (run_loop q1 s) = Executor.Completed ->
      perform (Executor.task t) (Executor.final (run_loop q1 s)) = (s', Throw e) ->
      (Executor.fatal t = true ->
       Executor.ended (run_queue q s) = Executor.Aborted e /\
       Executor.invocations (Executor.trace (run_queue q s)) = map Executor.task (q1 ++ [t]) /\
       ~ Executor.banner_logged (Executor.trace (run_queue q s))) /\
      (Executor.fatal t = false ->
       Executor.ended (run_queue q s) = Executor.ended (run_queue q2 s') /\
       Executor.invocations (Executor.trace (run_queue q s))
         = map Executor.task (q1 ++ [t])
           ++ Executor.invocations (Executor.trace (run_queue q2 s')))) /\
  ((forall t, In t q -> Executor.fatal t = false) ->
   Executor.ended (run_queue q s) = Executor.Completed) /\
  (forall t : Task, Executor.shouldExitOnError t = None -> Executor.fatal t = true).
Proof.
  split; [|split; [|split; [|split]]].
  - intros Hc. rewrite run_queue_ended in Hc.
    rewrite (run_queue_completed _ _ _ perform invoke q s Hc). fields. split.
    + rewrite invocations_app. simpl. rewrite app_nil_r.
      now apply run_loop_completed.
    + apply last_snoc.
  - intros e Ha. rewrite run_queue_ended in Ha.
    rewrite (run_queue_aborted _ _ _ perform invoke q s e Ha). split.
    + apply run_loop_no_log.
    + destruct (run_loop_aborted _ _ _ perform invoke q s e Ha)
        as (q1 & t & q2 & s' & Hq & Hc & Hp & Hf & Hi).
      exists q1, t, q2, s'. repeat split; assumption.
  - intros q1 t q2 s' e -> Hc Hp. split; intros Hf.
    + now apply (run_queue_fatal_at q1 t q2 s s' e).
    + now apply (run_queue_continues_at q1 t q2 s s' e).
  - intros Hnf. rewrite run_queue_ended. now apply run_loop_all_nonfatal.
  - intros t Ht. unfold Executor.fatal. now rewrite Ht.
Qed.

(** C4 (as amended). For a task that completes successfully and has a
    callback registered, the executor calls the callback with the value the
    operation returned when that value is truthy, and goes on from the state
    the callback leaves; when the value is falsy ([undefined], [null],
    [false], [0], the empty string) it does not call the callback, and goes
    on from the state the operation left. *)
Theorem callback_on_truthy_result (q1 : list Task) (t : Task) (q2 : list Task)
    (s s' : St) (v : jsval) (cb : Cb) :
  Executor.ended (run_loop q1 s) = Executor.Completed ->
  perform (Executor.task t) (Executor.final (run_loop q1 s)) = (s', Ok v) ->
  Executor.callback t = Some cb ->
  (truthy v = true ->
   Executor.callbacks (Executor.trace (run_queue (q1 ++ t :: q2) s))
     = Executor.callbacks (Executor.trace (run_loop q1 s))
       ++ (cb, v) :: Executor.callbacks (Executor.trace (run_queue q2 (invoke cb v s')))) /\
  (truthy v = false ->
   Executor.callbacks (Executor.trace (run_queue (q1 ++ t :: q2) s))
     = Executor.callbacks (Executor.trace (run_loop q1 s))
       ++ Executor.callbacks (Executor.trace (run_queue q2 s'))).
Proof.
  intros Hc Hp Hcb. rewrite !run_queue_callbacks.
  rewrite (run_loop_at q1 t q2 s Hc). cbv zeta. fields.
  rewrite callbacks_app.
  rewrite (run_loop_returns _ _ _ perform invoke t q2 _ s' v Hp). cbv zeta. fields.
  unfold Executor.after_task. rewrite Hcb.
  split; intros Hv; rewrite Hv; simpl; reflexivity.
Qed.

End QueueClaims.

(** The theorem on the two queues of the specification: three tasks, the
    second failing. Marked non-fatal, the third is still invoked and the run
    completes; fatal by default, the third is not invoked and the run is
    aborted. *)
Lemma task_queue_fifo_witness :
  (Executor.ended
     (Examples.runOn Examples.installFails
        [Examples.copyCommonTask; Examples.installTask; Examples.gitTask])
   = Executor.Completed /\
   Executor.invocations (Executor.trace
     (Examples.runOn Examples.installFails
        [Examples.copyCommonTask; Examples.installTask; Examples.gitTask]))
   = [Init.CopyCommonTemplateFiles "/templates" "/work/app"; Init.InstallDeps "/work/app";
      Init.GitInit "/work/app"]) /\
  (Executor.ended
     (Examples.runOn Examples.gitFails
        [Examples.copyCommonTask; Examples.gitTask; Examples.installTask])
   = Executor.Aborted (SysError "Command failed with exit code 1") /\
   Executor.invocations (Executor.trace
     (Examples.runOn Examples.gitFails
        [Examples.copyCommonTask; Examples.gitTask; Examples.installTask]))
   = [Init.CopyCommonTemplateFiles "/templates" "/work/app"; Init.GitInit "/work/app"]).
Proof.
  split.
  - destruct (task_queue_fifo _ _ _
                (Init.perform (list Init.InitOp) Examples.appHost
                   (Examples.recordingWorld Examples.installFails))
                (Init.invoke (list Init.InitOp))
                [Examples.copyCommonTask; Examples.installTask; Examples.gitTask]
                Examples.startState) as (_ & _ & Hat & _).
    destruct (Hat [Examples.copyCommonTask] Examples.installTask [Examples.gitTask]
                (Init.mkInitState (Init.initialConfig Examples.plainLib) []
                   [Init.CopyCommonTemplateFiles "/templates" "/work/app";
                    Init.InstallDeps "/work/app"])
                (SysError "Command failed with exit code 1")) as (_ & Hnf);
      [reflexivity|reflexivity|reflexivity|].
    destruct (Hnf eq_refl) as (He & Hi).
    unfold Examples.runOn. rewrite He, Hi. split; reflexivity.
  - destruct (task_queue_fifo _ _ _
                (Init.perform (list Init.InitOp) Examples.appHost
                   (Examples.recordingWorld Examples.gitFails))
                (Init.invoke (list Init.InitOp))
                [Examples.copyCommonTask; Examples.gitTask; Examples.installTask]
                Examples.startState) as (_ & _ & Hat & _).
    destruct (Hat [Examples.copyCommonTask] Examples.gitTask [Examples.installTask]
                (Init.mkInitState (Init.initialConfig Examples.plainLib) []
                   [Init.CopyCommonTemplateFiles "/templates" "/work/app";
                    Init.GitInit "/work/app"])
                (SysError "Command failed with exit code 1")) as (Hf & _);
      [reflexivity|reflexivity|reflexivity|].
    destruct (Hf eq_refl) as (He & Hi & _).
    unfold Examples.runOn. rewrite He, Hi. split; reflexivity.
Defined.

(** The theorem on the download task: its operation returns the path of the
    binary, a non-empty string, and the callback is called with it. *)
Lemma callback_on_truthy_result_witness :
  Executor.callbacks (Executor.trace (Examples.runOn Examples.nothingFails [Examples.downloadTask]))
  = [(Init.SetNodeLocalPath, JStr "/work/app/bin/swanky-node")].
Proof.
  destruct (callback_on_truthy_result _ _ _
              (Init.perform (list Init.InitOp) Examples.appHost
                 (Examples.recordingWorld Examples.nothingFails))
              (Init.invoke (list Init.InitOp))
              [] Examples.downloadTask [] Examples.startState
              (Init.mkInitState (Init.initialConfig Examples.plainLib) []
                 [Init.DownloadNode "/work/app"])
              (JStr "/work/app/bin/swanky-node") Init.SetNodeLocalPath)
    as (Ht & _); [reflexivity|reflexivity|reflexivity|].
  exact (Ht eq_refl).
Defined.

(** C4 (as stated) fails: the task that copies the project files completes
    successfully and has a callback registered; its operation returns
    [undefined], and the callback is not called. *)
Lemma callback_on_truthy_result_counterexample :
  Executor.callback Examples.copyContractsTask = Some Init.ConsoleLog /\
  Executor.ended (Examples.runOn Examples.nothingFails [Examples.copyContractsTask])
    = Executor.Completed /\
  In (Executor.Succeeded (Some "Project files successfully copied"))
     (Executor.trace (Examples.runOn Examples.nothingFails [Examples.copyContractsTask])) /\
  Executor.callbacks
    (Executor.trace (Examples.runOn Examples.nothingFails [Examples.copyContractsTask])) = [].
Proof.
  split; [reflexivity|]. split; [reflexivity|]. split; [|reflexivity].
  simpl. right. right. now left.
Qed.

(** ** The project directory check *)

Lemma checkProjectDir_not_empty (host : Host) (lib : Init.Lib) (projectName projectPath : string)
    (f : string) (files : list string) :
  stat host projectPath = Ok true ->
  readdir host projectPath = Ok (f :: files) ->
  Init.checkProjectDir host lib projectName projectPath =
  if includes (Init.notEmptyMessage lib projectName) "ENOENT" then Ok tt
  else Throw (UnknownError "Unexpected error"
                (InputError (Init.notEmptyMessage lib projectName) None)).
Proof.
  intros Hs Hr. unfold Init.checkProjectDir, Init.probeProjectDir. rewrite Hs. simpl.
  rewrite Hr. simpl. reflexivity.
Qed.

Lemma checkProjectDir_never_InputError (host : Host) (lib : Init.Lib)
    (projectName projectPath : string) (msg : string) (cause : option exn) :
  Init.checkProjectDir host lib projectName projectPath <> Throw (InputError msg cause).
Proof.
  unfold Init.checkProjectDir.
  destruct (Init.probeProjectDir host lib projectName projectPath) as [u|e]; [discriminate|].
  destruct (includes (message e) "ENOENT"); discriminate.
Qed.

(** C7, on the code. The check of the project directory never surfaces an
    [InputError]. On a directory that holds a file, the [InputError] it
    throws is caught by its own [catch]: when the directory's name contains
    [ENOENT] nothing is thrown at all; otherwise an [UnknownError] comes out,
    with the [InputError] as its cause. So [init my-app] on a non-empty
    [my-app] fails with an [UnknownError] before any task, and
    [init ENOENT-app] on a non-empty [ENOENT-app] runs the whole queue. *)
Theorem project_dir_check :
  (forall host lib projectName projectPath msg cause,
      Init.checkProjectDir host lib projectName projectPath <> Throw (InputError msg cause)) /\
  (forall host lib projectName projectPath f files,
      stat host projectPath = Ok true ->
      readdir host projectPath = Ok (f :: files) ->
      Init.checkProjectDir host lib projectName projectPath =
      if includes (Init.notEmptyMessage lib projectName) "ENOENT" then Ok tt
      else Throw (UnknownError "Unexpected error"
                    (InputError (Init.notEmptyMessage lib projectName) None))) /\
  Init.run (list Init.InitOp) Examples.fullHost (Examples.recordingWorld Examples.nothingFails)
    Examples.plainLib (Init.mkFlags true None) Examples.newProject "my-app" []
  = Init.Thrown (list Init.InitOp)
      (UnknownError "Unexpected error" (InputError "Directory my-app is not empty!" None)) /\
  match
    Init.run (list Init.InitOp) Examples.fullHost (Examples.recordingWorld Examples.nothingFails)
      Examples.plainLib (Init.mkFlags true None) Examples.newProject "ENOENT-app" []
  with
  | Init.Ran _ o =>
      Executor.ended o = Executor.Completed /\
      Executor.invocations (Executor.trace o) =
      [Init.CopyCommonTemplateFiles "/templates" "/work/ENOENT-app";
       Init.CheckCliDependencies;
       Init.CopyContractTemplateFiles "/templates/contracts/flipper" "flipper" "/work/ENOENT-app";
       Init.ProcessTemplates "/work/ENOENT-app"
         [("project_name", "ENOENT-app"); ("author_name", "Ada");
          ("author_email", "ada@example.org"); ("swanky_version", "3.1.0");
          ("contract_name", "flipper"); ("contract_name_snake", "flipper");
          ("contract_name_pascal", "flipper")];
       Init.InstallDeps "/work/ENOENT-app";
       Init.GitInit "/work/ENOENT-app";
       Init.WriteConfig "/work/ENOENT-app"]
  | Init.Thrown _ _ => False
  end.
Proof.
  split; [exact checkProjectDir_never_InputError|].
  split; [exact checkProjectDir_not_empty|].
  split; [vm_compute; reflexivity|].
  vm_compute. split; reflexivity.
Qed.

(** The second part of the theorem on the non-empty directory [my-app]. *)
Lemma project_dir_check_witness :
  Init.checkProjectDir Examples.fullHost Examples.plainLib "my-app" "/work/my-app" =
  Throw (UnknownError "Unexpected error" (InputError "Directory my-app is not empty!" None)).
Proof.
  rewrite (proj1 (proj2 project_dir_check) Examples.fullHost Examples.plainLib
             "my-app" "/work/my-app" "README.md" []); reflexivity.
Defined.

(** ** The configuration descriptor *)

Lemma taskQueue_push (p : Init.Plan) (t : Init.InitTask) :
  Init.taskQueue (Init.push p t) = Init.taskQueue p ++ [t].
Proof. reflexivity. Qed.

(** What a conversion that plans has gone through, and what it leaves. *)
Lemma convert_inv (host : Host) (lib : Init.Lib) (ans : Init.ConvertAnswers)
    (pathToExistingProject projectName projectPath : string) (p p' : Init.Plan) :
  Init.convert host lib ans pathToExistingProject projectName projectPath p = Ok p' ->
  exists candidates confirmed ws rootToml,
    Init.checkExistingProject host lib pathToExistingProject = Ok tt /\
    Init.candidatesFor host pathToExistingProject ans = Ok candidates /\
    Init.confirmedCopyListFor host (Init.confirmed ans) candidates = Ok (confirmed, ws) /\
    Init.rootTomlFor host pathToExistingProject = Ok rootToml /\
    Init.taskQueue p' =
    Init.taskQueue p
    ++ Plans.convertTasks host lib pathToExistingProject projectName projectPath confirmed rootToml /\
    Init.configBuilder p' =
    Config.with_contracts (Init.configBuilder p)
      (Init.addContracts (Candidates.contracts confirmed)
         (Config.contracts (Init.configBuilder p))) /\
    Init.printed p' = Init.printed p ++ ws.
Proof.
  unfold Init.convert. intros H.
  destruct (Init.checkExistingProject host lib pathToExistingProject) as [[]|] eqn:E1;
    simpl in H; [|discriminate].
  destruct (Init.candidatesFor host pathToExistingProject ans) as [candidates|] eqn:E2;
    simpl in H; [|discriminate].
  destruct (Init.confirmedCopyListFor host (Init.confirmed ans) candidates)
    as [[confirmed ws]|] eqn:E3; simpl in H; [|discriminate].
  destruct (Init.rootTomlFor host pathToExistingProject) as [rootToml|] eqn:E4;
    simpl in H; [|discriminate].
  exists candidates, confirmed, ws, rootToml. unfold Plans.convertTasks.
  split; [reflexivity|]. split; [reflexivity|]. split; [exact E3|]. split; [reflexivity|].
  destruct (pathExists host (resolve host pathToExistingProject "package.json"));
    injection H as <-; simpl; rewrite <- ?app_assoc; repeat split; reflexivity.
Qed.

(** The plan of a run in the convert flow, and of a run in the generate
    flow. *)
Lemma plan_convert (host : Host) (lib : Init.Lib) (flags : Init.Flags) (ans : Init.Answers)
    (projectName c : string) (p : Init.Plan) :
  Init.plan host lib flags ans projectName = Ok p ->
  Init.convertRequested flags = Some c ->
  exists candidates confirmed ws rootToml,
    Init.checkExistingProject host lib c = Ok tt /\
    Init.candidatesFor host c (Init.convertAnswers ans) = Ok candidates /\
    Init.confirmedCopyListFor host (Init.confirmed (Init.convertAnswers ans)) candidates
    = Ok (confirmed, ws) /\
    Init.rootTomlFor host c = Ok rootToml /\
    Init.taskQueue p =
    Plans.copyCommonTask lib (resolve host (cwd host) projectName)
    :: Plans.convertTasks host lib c projectName (resolve host (cwd host) projectName)
         confirmed rootToml
    ++ Plans.closingTasks flags ans (resolve host (cwd host) projectName) /\
    Config.contracts (Init.configBuilder p)
    = Init.addContracts (Candidates.contracts confirmed) ∅.
Proof.
  intros H Hc. unfold Init.plan in H. rewrite Hc in H.
  destruct (Init.convert host lib (Init.convertAnswers ans) c projectName _ _) as [p1|] eqn:Hconv;
    simpl in H; [|discriminate].
  destruct (convert_inv _ _ _ _ _ _ _ _ Hconv)
    as (candidates & confirmed & ws & rootToml & H1 & H2 & H3 & H4 & Hq & Hb & _).
  exists candidates, confirmed, ws, rootToml. repeat (split; [assumption|]).
  injection H as <-. unfold Plans.closingTasks.
  destruct (negb (Init.swanky_node flags) && Init.useSwankyNode ans); simpl;
    rewrite Hq, Hb; simpl; rewrite <- ?app_assoc; split; reflexivity.
Qed.

Lemma plan_generate (host : Host) (lib : Init.Lib) (flags : Init.Flags) (ans : Init.Answers)
    (projectName : string) (p : Init.Plan) :
  Init.plan host lib flags ans projectName = Ok p ->
  Init.convertRequested flags = None ->
  Init.taskQueue p =
  Plans.copyCommonTask lib (resolve host (cwd host) projectName)
  :: Plans.generateTasks host lib (Init.generateAnswers ans) projectName
       (resolve host (cwd host) projectName)
  ++ Plans.closingTasks flags ans (resolve host (cwd host) projectName) /\
  Config.contracts (Init.configBuilder p) =
  {[ Init.contractName (Init.generateAnswers ans) :=
       Config.mkContractData (Init.contractName (Init.generateAnswers ans))
         (JStr (Init.snakeCase lib (Init.contractName (Init.generateAnswers ans)))) [] ]}.
Proof.
  intros H Hc. unfold Init.plan in H. rewrite Hc in H. simpl in H.
  injection H as <-. unfold Plans.closingTasks.
  destruct (negb (Init.swanky_node flags) && Init.useSwankyNode ans); split; reflexivity.
Qed.

(** Planning sets the contracts and the accounts of the builder, nothing
    else. *)
Lemma plan_builder (host : Host) (lib : Init.Lib) (flags : Init.Flags) (ans : Init.Answers)
    (projectName : string) (p : Init.Plan) :
  Init.plan host lib flags ans projectName = Ok p ->
  Init.configBuilder p =
  Config.with_accounts
    (Config.with_contracts (Init.initialConfig lib) (Config.contracts (Init.configBuilder p)))
    (Init.devAccounts lib).
Proof.
  intros H. unfold Init.plan in H.
  destruct (Init.convertRequested flags) as [c|].
  - destruct (Init.convert host lib (Init.convertAnswers ans) c projectName _ _) as [p1|] eqn:Hconv;
      simpl in H; [|discriminate].
    destruct (convert_inv _ _ _ _ _ _ _ _ Hconv) as (? & ? & ? & ? & _ & _ & _ & _ & _ & Hb & _).
    injection H as <-.
    destruct (negb (Init.swanky_node flags) && Init.useSwankyNode ans); simpl;
      rewrite Hb; reflexivity.
  - simpl in H. injection H as <-.
    destruct (negb (Init.swanky_node flags) && Init.useSwankyNode ans); reflexivity.
Qed.

(** A generate flow always plans. *)
Lemma plan_generate_total (host : Host) (lib : Init.Lib) (flags : Init.Flags) (ans : Init.Answers)
    (projectName : string) :
  Init.convertRequested flags = None ->
  exists p, Init.plan host lib flags ans projectName = Ok p.
Proof. intros Hc. unfold Init.plan. rewrite Hc. simpl. eauto. Qed.

Lemma convertTasks_not_a_write (host : Host) (lib : Init.Lib) (c projectName pp : string)
    (confirmed : Candidates.CopyCandidates) (rootToml : gmap string jsval) :
  Forall Init.not_a_write (Plans.convertTasks host lib c projectName pp confirmed rootToml).
Proof.
  unfold Plans.convertTasks. destruct (pathExists host _); repeat constructor.
Qed.

(** What [generate] adds to the plan. *)
Lemma generate_plan (host : Host) (lib : Init.Lib) (ans : Init.GenerateAnswers)
    (projectName projectPath : string) (p : Init.Plan) :
  exists ext,
    Init.taskQueue (Init.generate host lib ans projectName projectPath p) = Init.taskQueue p ++ ext /\
    Forall Init.not_a_write ext /\
    Config.contracts (Init.configBuilder (Init.generate host lib ans projectName projectPath p)) =
    {[ Init.contractName ans :=
         Config.mkContractData (Init.contractName ans)
           (JStr (Init.snakeCase lib (Init.contractName ans))) [] ]}.
Proof.
  unfold Init.generate. eexists. simpl. rewrite <- ?app_assoc. simpl.
  split; [reflexivity|]. split; [|reflexivity]. repeat constructor.
Qed.

(** The entry under a name after the loop over the confirmed contracts:
    that of the last contract of the name; none is added under
    [__proto__]. *)
Lemma lookup_addContracts (cs : list PathEntry) (acc : gmap string Config.ContractData)
    (k : string) :
  Init.addContracts cs acc !! k =
  if String.eqb k "__proto__" then acc !! k
  else match last (List.filter (fun e => String.eqb (name e) k) cs) with
       | Some e => Some (Init.contractEntry e)
       | None => acc !! k
       end.
Proof.
  induction cs as [|e cs IH] using rev_ind.
  - simpl. now destruct (String.eqb k "__proto__").
  - unfold Init.addContracts in *. rewrite fold_left_app. simpl.
    rewrite List.filter_app. simpl. unfold Init.assignContract.
    destruct (String.eqb k "__proto__") eqn:Hk.
    + apply String.eqb_eq in Hk.
      destruct (String.eqb_spec (name e) "__proto__") as [_|Hne]; [exact IH|].
      rewrite lookup_insert_ne by congruence. exact IH.
    + apply String.eqb_neq in Hk.
      destruct (String.eqb_spec (name e) k) as [Heq|Hne].
      * destruct (String.eqb_spec (name e) "__proto__") as [He|_]; [congruence|].
        rewrite last_snoc, Heq. apply lookup_insert_eq.
      * rewrite app_nil_r.
        destruct (String.eqb_spec (name e) "__proto__") as [_|_]; [exact IH|].
        rewrite lookup_insert_ne by exact Hne. exact IH.
Qed.

(** Every confirmed contract whose name is not [__proto__] has an entry
    under its name; when several confirmed contracts share the name, the
    entry is the last one's. *)
Lemma addContracts_entry (cs : list PathEntry) (acc : gmap string Config.ContractData) (e : PathEntry) :
  In e cs -> name e <> "__proto__" ->
  exists e',
    In e' cs /\ name e' = name e /\
    Init.addContracts cs acc !! name e = Some (Init.contractEntry e').
Proof.
  intros He Hn. rewrite lookup_addContracts.
  destruct (String.eqb_spec (name e) "__proto__") as [|_]; [contradiction|].
  destruct (last (List.filter (fun x => String.eqb (name x) (name e)) cs)) as [e'|] eqn:Hl.
  - exists e'. apply last_Some in Hl as (l' & Hl).
    assert (In e' (List.filter (fun x => String.eqb (name x) (name e)) cs)) as Hin.
    { rewrite Hl. apply in_or_app. right. now left. }
    apply List.filter_In in Hin as (Hin & Heq). apply String.eqb_eq in Heq.
    repeat split; assumption.
  - exfalso. apply last_None in Hl.
    assert (In e (List.filter (fun x => String.eqb (name x) (name e)) cs)) as Hin.
    { apply List.filter_In. split; [exact He|apply String.eqb_refl]. }
    rewrite Hl in Hin. destruct Hin.
Qed.

(** The queue [run] plans: one task that writes the configuration, last. *)
Lemma plan_shape (host : Host) (lib : Init.Lib) (flags : Init.Flags) (ans : Init.Answers)
    (projectName : string) (p : Init.Plan) :
  Init.plan host lib flags ans projectName = Ok p ->
  exists q',
    Init.taskQueue p = q' ++ [Init.writeConfigTask (resolve host (cwd host) projectName)] /\
    Forall Init.not_a_write q'.
Proof.
  intros H. destruct (Init.convertRequested flags) as [c|] eqn:Hc.
  - destruct (plan_convert _ _ _ _ _ _ _ H Hc) as (? & confirmed & ? & rootToml & _ & _ & _ & _ & Hq & _).
    exists (Plans.copyCommonTask lib (resolve host (cwd host) projectName)
            :: Plans.convertTasks host lib c projectName (resolve host (cwd host) projectName)
                 confirmed rootToml
            ++ [Plans.installDepsTask (resolve host (cwd host) projectName);
                Plans.gitInitTask (resolve host (cwd host) projectName)]
            ++ (if negb (Init.swanky_node flags) && Init.useSwankyNode ans
                then [Plans.downloadNodeTask (resolve host (cwd host) projectName)] else [])).
    split.
    + rewrite Hq. unfold Plans.closingTasks. simpl. f_equal;
        rewrite <- ?app_assoc; reflexivity.
    + constructor; [reflexivity|]. apply Forall_app. split; [apply convertTasks_not_a_write|].
      destruct (negb (Init.swanky_node flags) && Init.useSwankyNode ans); repeat constructor.
  - destruct (plan_generate _ _ _ _ _ _ H Hc) as (Hq & _).
    exists (Plans.copyCommonTask lib (resolve host (cwd host) projectName)
            :: Plans.generateTasks host lib (Init.generateAnswers ans) projectName
                 (resolve host (cwd host) projectName)
            ++ [Plans.installDepsTask (resolve host (cwd host) projectName);
                Plans.gitInitTask (resolve host (cwd host) projectName)]
            ++ (if negb (Init.swanky_node flags) && Init.useSwankyNode ans
                then [Plans.downloadNodeTask (resolve host (cwd host) projectName)] else [])).
    split.
    + rewrite Hq. unfold Plans.closingTasks. simpl. f_equal;
        rewrite <- ?app_assoc; reflexivity.
    + destruct (negb (Init.swanky_node flags) && Init.useSwankyNode ans); repeat constructor.
Qed.

Section QueuePrefix.

Variable Op : Type.
Variable Cb : Type.
Variable St : Type.
Variable perform : Op -> St -> St * result jsval.
Variable invoke : Cb -> jsval -> St -> St.
Variable P : Op -> Prop.

(** Only operations of the queue are invoked. *)
Lemma run_loop_invocations_Forall (q : list (Executor.Task Op Cb)) (s : St) :
  Forall (fun t => P (Executor.task t)) q ->
  Forall P (Executor.invocations (Executor.trace (Executor.run_loop perform invoke q s))).
Proof.
  revert s. induction q as [|t q IH]; intros s H; [constructor|].
  inversion H as [|? ? Ht Hq]; subst.
  destruct (perform (Executor.task t) s) as [s' [v|e]] eqn:Hp.
  - rewrite (run_loop_returns _ _ _ perform invoke t q s s' v Hp). cbv zeta.
    cbn [Executor.trace]. simpl. constructor; [exact Ht|].
    rewrite invocations_app, after_task_silent. simpl. now apply IH.
  - destruct (Executor.fatal t) eqn:Hf.
    + rewrite (run_loop_fatal _ _ _ perform invoke t q s s' e Hp Hf). simpl.
      constructor; [exact Ht|constructor].
    + rewrite (run_loop_continues _ _ _ perform invoke t q s s' e Hp Hf). cbv zeta.
      cbn [Executor.trace]. simpl. constructor; [exact Ht|]. now apply IH.
Qed.

(** A queue of one task invokes it, however it ends. *)
Lemma run_loop_single (t : Executor.Task Op Cb) (s : St) :
  Executor.invocations (Executor.trace (Executor.run_loop perform invoke [t] s))
    = [Executor.task t] /\
  Executor.final (Executor.run_loop perform invoke [t] s)
    = fst (Executor.after_task invoke t
             match snd (perform (Executor.task t) s) with
             | Ok v => v
             | Throw _ => JUndefined
             end
             (fst (perform (Executor.task t) s))).
Proof.
  destruct (perform (Executor.task t) s) as [s' [v|e]] eqn:Hp.
  - rewrite (run_loop_returns _ _ _ perform invoke t [] s s' v Hp). cbv zeta. simpl.
    rewrite invocations_app, after_task_silent. split; reflexivity.
  - destruct (Executor.fatal t) eqn:Hf.
    + rewrite (run_loop_fatal _ _ _ perform invoke t [] s s' e Hp Hf). simpl.
      unfold Executor.after_task. simpl. destruct (Executor.callback t); split; reflexivity.
    + rewrite (run_loop_continues _ _ _ perform invoke t [] s s' e Hp Hf). simpl.
      unfold Executor.after_task. simpl. destruct (Executor.callback t); split; reflexivity.
Qed.

End QueuePrefix.

Lemma config_writes_none (ops : list Init.InitOp) :
  Forall (fun op => Init.is_WriteConfig op = false) ops -> Init.config_writes ops = 0%nat.
Proof.
  unfold Init.config_writes. induction 1 as [|op ops Hop _ IH]; simpl; [reflexivity|].
  now rewrite Hop.
Qed.

Lemma config_writes_app (a b : list Init.InitOp) :
  Init.config_writes (a ++ b) = (Init.config_writes a + Init.config_writes b)%nat.
Proof. unfold Init.config_writes. now rewrite List.filter_app, length_app. Qed.

Section RunFacts.

Variable W : Type.
Variable host : Host.
Variable wd : Init.World W.

(** No operation touches the builder. *)
Lemma perform_builder (op : Init.InitOp) (s : Init.InitState W) :
  Init.builder (fst (Init.perform W host wd op s)) = Init.builder s.
Proof.
  destruct op; simpl; try reflexivity.
  destruct (Init.outputToml wd _ _ _); reflexivity.
Qed.

Lemma perform_world_WriteConfig (projectPath : string) (s : Init.InitState W) :
  Init.world (fst (Init.perform W host wd (Init.WriteConfig projectPath) s)) =
  fst (Init.writeJSON wd (resolve host projectPath "swanky.config.json")
         (Init.config_json (Init.builder s)) (Init.world s)).
Proof. reflexivity. Qed.

(** No callback touches the contract entries. *)
Lemma invoke_contracts (cb : Init.InitCb) (v : jsval) (s : Init.InitState W) :
  Config.contracts (Init.builder (Init.invoke W cb v s)) = Config.contracts (Init.builder s).
Proof. destruct cb; reflexivity. Qed.

Lemma after_task_contracts (t : Init.InitTask) (v : jsval) (s : Init.InitState W) :
  Config.contracts (Init.builder (fst (Executor.after_task (Init.invoke W) t v s)))
  = Config.contracts (Init.builder s).
Proof.
  unfold Executor.after_task.
  destruct (Executor.callback t); [destruct (truthy v)|]; simpl;
    try reflexivity. apply invoke_contracts.
Qed.

(** The contract entries the loop starts with are those it ends with. *)
Lemma run_loop_contracts (q : list Init.InitTask) (s : Init.InitState W) :
  Config.contracts
    (Init.builder (Executor.final (Executor.run_loop (Init.perform W host wd) (Init.invoke W) q s)))
  = Config.contracts (Init.builder s).
Proof.
  revert s. induction q as [|t q IH]; intros s; [reflexivity|].
  pose proof (perform_builder (Executor.task t) s) as Hb.
  destruct (Init.perform W host wd (Executor.task t) s) as [s' [v|e]] eqn:Hp; simpl in Hb.
  - rewrite (run_loop_returns _ _ _ _ _ t q s s' v Hp). cbv zeta. cbn [Executor.final].
    rewrite IH, after_task_contracts. now rewrite Hb.
  - destruct (Executor.fatal t) eqn:Hf.
    + rewrite (run_loop_fatal _ _ _ _ _ t q s s' e Hp Hf). cbn [Executor.final]. now rewrite Hb.
    + rewrite (run_loop_continues _ _ _ _ _ t q s s' e Hp Hf). cbv zeta. cbn [Executor.final].
      rewrite IH. now rewrite Hb.
Qed.

End RunFacts.

Lemma run_queue_final (Op Cb St : Type) (perform : Op -> St -> St * result jsval)
    (invoke : Cb -> jsval -> St -> St) (q : list (Executor.Task Op Cb)) (s : St) :
  Executor.final (Executor.run_queue perform invoke q s)
  = Executor.final (Executor.run_loop perform invoke q s).
Proof.
  unfold Executor.run_queue.
  destruct (Executor.ended (Executor.run_loop perform invoke q s)); reflexivity.
Qed.

(** What the loop does once it reaches the task that writes the
    configuration, and what it does when it does not reach it. *)
Lemma run_with_write_last (W : Type) (host : Host) (wd : Init.World W)
    (q' : list Init.InitTask) (projectPath : string) (s0 : Init.InitState W) :
  Forall Init.not_a_write q' ->
  let run_loop := Executor.run_loop (Init.perform W host wd) (Init.invoke W) in
  let run_queue := Executor.run_queue (Init.perform W host wd) (Init.invoke W) in
  let pre := run_loop q' s0 in
  let o := run_queue (q' ++ [Init.writeConfigTask projectPath]) s0 in
  (Executor.ended pre = Executor.Completed ->
   Executor.invocations (Executor.trace o)
     = map Executor.task q' ++ [Init.WriteConfig projectPath] /\
   Init.config_writes (Executor.invocations (Executor.trace o)) = 1%nat /\
   Init.world (Executor.final o) =
   fst (Init.writeJSON wd (resolve host projectPath "swanky.config.json")
          (Init.config_json (Init.builder (Executor.final pre)))
          (Init.world (Executor.final pre)))) /\
  (forall e,
      Executor.ended pre = Executor.Aborted e ->
      Executor.ended o = Executor.Aborted e /\
      Init.config_writes (Executor.invocations (Executor.trace o)) = 0%nat) /\
  (Executor.ended o = Executor.Completed -> Executor.ended pre = Executor.Completed).
Proof.
  intros Hq'. cbv zeta.
  remember (Executor.run_loop (Init.perform W host wd) (Init.invoke W) q' s0) as pre eqn:Epre.
  assert (Forall (fun op => Init.is_WriteConfig op = false)
            (Executor.invocations (Executor.trace pre))) as Hpre.
  { rewrite Epre. apply run_loop_invocations_Forall. exact Hq'. }
  assert (forall e, Executor.ended pre = Executor.Aborted e ->
                    Executor.ended
                      (Executor.run_queue (Init.perform W host wd) (Init.invoke W)
                         (q' ++ [Init.writeConfigTask projectPath]) s0) = Executor.Aborted e /\
                    Init.config_writes
                      (Executor.invocations
                         (Executor.trace
                            (Executor.run_queue (Init.perform W host wd) (Init.invoke W)
                               (q' ++ [Init.writeConfigTask projectPath]) s0))) = 0%nat) as Hab.
  { intros e Ha.
    rewrite run_queue_ended, run_queue_invocations, run_loop_app, <- Epre, Ha.
    split; [exact Ha|]. now apply config_writes_none. }
  split; [|split].
  - intros Hc.
    rewrite run_queue_invocations, run_queue_final, run_loop_app, <- Epre, Hc.
    cbv zeta. cbn [Executor.trace Executor.final].
    destruct (run_loop_single _ _ _ (Init.perform W host wd) (Init.invoke W)
                (Init.writeConfigTask projectPath) (Executor.final pre)) as (Hi & Hf).
    rewrite invocations_app, Hi, Hf.
    split; [|split].
    + f_equal. rewrite Epre. apply run_loop_completed. now rewrite <- Epre.
    + rewrite config_writes_app, (config_writes_none _ Hpre). reflexivity.
    + reflexivity.
  - exact Hab.
  - intros Ho. destruct (Executor.ended pre) as [|e] eqn:Hp; [reflexivity|].
    destruct (Hab e eq_refl) as (Ha & _). rewrite Ha in Ho. discriminate.
Qed.

(** C9 (as amended). The queue [run] plans holds exactly one task that
    writes the configuration descriptor, and it is the last one. When that
    task runs, every contract entry planned is in the builder it writes:
    the entry of the new contract in the generate flow; in the convert flow
    an entry under the name of every confirmed contract other than one
    named [__proto__], under which name the object has no property of its
    own to serialise (no task or callback before the last changes the
    entries planned). A run that reaches the
    task invokes it once, after every other task, so a run that completes
    has written the descriptor exactly once; a run that a failure aborts
    before the task writes none. *)
Theorem config_written_once_last (host : Host) (lib : Init.Lib) (flags : Init.Flags)
    (ans : Init.Answers) (projectName : string) (p : Init.Plan) :
  Init.plan host lib flags ans projectName = Ok p ->
  let projectPath := resolve host (cwd host) projectName in
  exists q',
    Init.taskQueue p = q' ++ [Init.writeConfigTask projectPath] /\
    Forall (fun t => Init.is_WriteConfig (Executor.task t) = false) q' /\
    match Init.convertRequested flags with
    | None =>
        Config.contracts (Init.configBuilder p) =
        {[ Init.contractName (Init.generateAnswers ans) :=
             Config.mkContractData (Init.contractName (Init.generateAnswers ans))
               (JStr (Init.snakeCase lib (Init.contractName (Init.generateAnswers ans)))) [] ]}
    | Some c =>
        exists candidates confirmed w,
          Init.candidatesFor host c (Init.convertAnswers ans) = Ok candidates /\
          Init.confirmedCopyListFor host (Init.confirmed (Init.convertAnswers ans)) candidates
          = Ok (confirmed, w) /\
          (forall e,
              In e (Candidates.contracts confirmed) -> name e <> "__proto__" ->
              exists e',
                In e' (Candidates.contracts confirmed) /\ name e' = name e /\
                Config.contracts (Init.configBuilder p) !! name e = Some (Init.contractEntry e')) /\
          Config.contracts (Init.configBuilder p) !! "__proto__" = None
    end /\
    forall (W : Type) (wd : Init.World W) (w : W),
      let s0 := Init.mkInitState (Init.configBuilder p) [] w in
      let pre := Executor.run_loop (Init.perform W host wd) (Init.invoke W) q' s0 in
      let o := Executor.run_queue (Init.perform W host wd) (Init.invoke W) (Init.taskQueue p) s0 in
      Config.contracts (Init.builder (Executor.final pre))
        = Config.contracts (Init.configBuilder p) /\
      (Executor.ended pre = Executor.Completed ->
       Executor.invocations (Executor.trace o)
         = map Executor.task q' ++ [Init.WriteConfig projectPath] /\
       Init.config_writes (Executor.invocations (Executor.trace o)) = 1%nat /\
       Init.world (Executor.final o) =
       fst (Init.writeJSON wd (resolve host projectPath "swanky.config.json")
              (Init.config_json (Init.builder (Executor.final pre)))
              (Init.world (Executor.final pre)))) /\
      (forall e,
          Executor.ended pre = Executor.Aborted e ->
          Executor.ended o = Executor.Aborted e /\
          Init.config_writes (Executor.invocations (Executor.trace o)) = 0%nat) /\
      (Executor.ended o = Executor.Completed ->
       Executor.ended pre = Executor.Completed /\
       Init.config_writes (Executor.invocations (Executor.trace o)) = 1%nat).
Proof.
  intros Hplan projectPath.
  destruct (plan_shape host lib flags ans projectName p Hplan) as (q' & Hq & Hnw).
  exists q'. split; [exact Hq|]. split; [exact Hnw|]. split.
  - destruct (Init.convertRequested flags) as [c|] eqn:Hc.
    + destruct (plan_convert _ _ _ _ _ _ _ Hplan Hc)
        as (candidates & confirmed & ws & rootToml & _ & Hcand & Hconf & _ & _ & Hcs).
      exists candidates, confirmed, ws. split; [exact Hcand|]. split; [exact Hconf|]. split.
      * intros e He Hn. rewrite Hcs. now apply addContracts_entry.
      * rewrite Hcs, lookup_addContracts. reflexivity.
    + exact (proj2 (plan_generate _ _ _ _ _ _ Hplan Hc)).
  - intros W wd w s0 pre o. split.
    + apply (run_loop_contracts W host wd q' s0).
    + unfold o. rewrite Hq.
      destruct (run_with_write_last W host wd q' projectPath s0 Hnw) as (Hc & Ha & Hp).
      split; [exact Hc|]. split; [exact Ha|].
      intros Ho. split; [now apply Hp|]. now apply Hc, Hp.
Qed.

(** The theorem on the conversion of the example project, run in a world
    where nothing fails: the descriptor is written once, with the entry of
    the contract [flipper] under the name its manifest declares. *)
Lemma config_written_once_last_witness :
  exists p,
    Init.plan MoreExamples.sourceHost Examples.plainLib (Init.mkFlags true (Some "/src"))
      (MoreExamples.convertingAnswers (fun _ => true)) "app" = Ok p /\
    Init.config_writes
      (Executor.invocations
         (Executor.trace
            (Executor.run_queue
               (Init.perform (list Init.InitOp) MoreExamples.sourceHost
                  (Examples.recordingWorld Examples.nothingFails))
               (Init.invoke (list Init.InitOp)) (Init.taskQueue p)
               (Init.mkInitState (Init.configBuilder p) [] [])))) = 1%nat /\
    Config.contracts (Init.configBuilder p) !! "flipper"
    = Some (Config.mkContractData "flipper" (JStr "flipper_contract") []).
Proof.
  destruct (Init.plan MoreExamples.sourceHost Examples.plainLib (Init.mkFlags true (Some "/src"))
              (MoreExamples.convertingAnswers (fun _ => true)) "app") as [p|] eqn:Hp;
    [|vm_compute in Hp; discriminate].
  exists p. split; [reflexivity|].
  destruct (config_written_once_last MoreExamples.sourceHost Examples.plainLib
              (Init.mkFlags true (Some "/src")) (MoreExamples.convertingAnswers (fun _ => true))
              "app" p Hp) as (q' & _ & _ & _ & Hrun).
  destruct (Hrun (list Init.InitOp) (Examples.recordingWorld Examples.nothingFails) [])
    as (_ & _ & _ & Hdone).
  vm_compute in Hp. injection Hp as <-.
  split; [apply Hdone; vm_compute; reflexivity|vm_compute; reflexivity].
Defined.

(** C9 (as stated) fails. The conversion of an empty source directory
    throws before any task is run, and [init app] in a world where the git
    initialisation fails is aborted there: in neither run is the descriptor
    written. *)
Lemma config_written_once_last_counterexample :
  Init.run (list Init.InitOp) MoreExamples.emptySourceHost
    (Examples.recordingWorld Examples.nothingFails) Examples.plainLib
    (Init.mkFlags true (Some "/src")) (MoreExamples.convertingAnswers (fun _ => true)) "app" []
  = Init.Thrown (list Init.InitOp)
      (InputError "Error reading target directory [/src]"
         (Some (InputError "Target project directory [/src] is empty!" None))) /\
  exists p,
    Init.plan Examples.appHost Examples.plainLib (Init.mkFlags true None) Examples.newProject "app"
    = Ok p /\
    Executor.ended
      (Executor.run_queue
         (Init.perform (list Init.InitOp) Examples.appHost
            (Examples.recordingWorld Examples.gitFails))
         (Init.invoke (list Init.InitOp)) (Init.taskQueue p)
         (Init.mkInitState (Init.configBuilder p) [] []))
    = Executor.Aborted (SysError "Command failed with exit code 1") /\
    Init.config_writes
      (Executor.invocations
         (Executor.trace
            (Executor.run_queue
               (Init.perform (list Init.InitOp) Examples.appHost
                  (Examples.recordingWorld Examples.gitFails))
               (Init.invoke (list Init.InitOp)) (Init.taskQueue p)
               (Init.mkInitState (Init.configBuilder p) [] [])))) = 0%nat.
Proof.
  split; [vm_compute; reflexivity|].
  eexists. split; [reflexivity|]. split; vm_compute; reflexivity.
Qed.

(** A contract directory named [__proto__] is confirmed and copied, and has
    no entry in the configuration. *)
Lemma proto_contract_not_configured :
  exists p,
    Init.plan MoreExamples.protoHost Examples.plainLib (Init.mkFlags true (Some "/src"))
      (MoreExamples.convertingAnswers (fun _ => true)) "app" = Ok p /\
    Config.contracts (Init.configBuilder p) !! "__proto__" = None /\
    exists cl,
      In (Plans.copyContractsTask cl "/work/app") (Init.taskQueue p) /\
      In "__proto__" (map name (Candidates.contracts cl)).
Proof.
  eexists. split; [vm_compute; reflexivity|]. split; [vm_compute; reflexivity|].
  eexists. split; [right; right; left; reflexivity|]. simpl. auto.
Qed.

(** ** The root manifest handed to the writer *)

(** The task that writes [Cargo.toml] hands its manifest to the writer,
    under the project. *)
Lemma perform_world_WriteCargoToml (W : Type) (host : Host) (wd : Init.World W)
    (rootToml : gmap string jsval) (projectPath : string) (s : Init.InitState W) :
  Init.world (fst (Init.perform W host wd (Init.WriteCargoToml rootToml projectPath) s)) =
  fst (Init.outputToml wd (resolve host projectPath "Cargo.toml") rootToml (Init.world s)).
Proof. simpl. destruct (Init.outputToml wd _ _ _). reflexivity. Qed.

(** A conversion plans one task that writes the root manifest, and the
    manifest it is given is the one lines 375-379 produce. *)
Lemma plan_writes_rootToml (host : Host) (lib : Init.Lib) (flags : Init.Flags)
    (ans : Init.Answers) (projectName c : string) (p : Init.Plan) :
  Init.plan host lib flags ans projectName = Ok p ->
  Init.convertRequested flags = Some c ->
  exists rootToml q1 q2,
    Init.rootTomlFor host c = Ok rootToml /\
    Init.taskQueue p =
    q1 ++ Plans.writeCargoTomlTask rootToml (resolve host (cwd host) projectName) :: q2 /\
    Forall (fun t => Plans.is_WriteCargoToml (Executor.task t) = false) (q1 ++ q2).
Proof.
  intros H Hc.
  destruct (plan_convert _ _ _ _ _ _ _ H Hc)
    as (candidates & confirmed & ws & rootToml & _ & _ & _ & Hroot & Hq & _).
  exists rootToml,
    [Plans.copyCommonTask lib (resolve host (cwd host) projectName);
     Plans.convertTemplatesTask lib projectName (resolve host (cwd host) projectName);
     Plans.copyContractsTask confirmed (resolve host (cwd host) projectName)].
  eexists. split; [exact Hroot|]. split.
  - rewrite Hq. unfold Plans.convertTasks. simpl. reflexivity.
  - unfold Plans.closingTasks.
    destruct (pathExists host _), (negb (Init.swanky_node flags) && Init.useSwankyNode ans);
      repeat constructor.
Qed.




(** * Further properties of the command *)

(** ** The two directory checks *)

(** X1. The check [convert] makes on the source project passes exactly when
    the path can be inspected and is not an empty directory: a regular file
    passes, a directory passes when it can be listed and holds an entry.
    Whatever goes wrong, a failing [stat], a failing [readdir] or the empty
    listing, surfaces as an [InputError] "Error reading target directory"
    whose cause is the original error. *)
Theorem convert_source_check (host : Host) (lib : Init.Lib) (pathToExistingProject : string) :
  match Init.checkExistingProject host lib pathToExistingProject with
  | Ok _ =>
      stat host pathToExistingProject = Ok false \/
      (stat host pathToExistingProject = Ok true /\
       exists f files, readdir host pathToExistingProject = Ok (f :: files))
  | Throw e =>
      exists cause,
        e = InputError
              ("Error reading target directory [" ++ Init.yellowBright lib pathToExistingProject ++ "]")
              (Some cause) /\
        (stat host pathToExistingProject = Throw cause \/
         (stat host pathToExistingProject = Ok true /\
          readdir host pathToExistingProject = Throw cause) \/
         (stat host pathToExistingProject = Ok true /\
          readdir host pathToExistingProject = Ok [] /\
          cause = InputError ("Target project directory [" ++ pathToExistingProject ++ "] is empty!") None))
  end.
Proof.
  unfold Init.checkExistingProject.
  destruct (stat host pathToExistingProject) as [[|]|e]; simpl.
  - destruct (readdir host pathToExistingProject) as [[|f files]|e]; simpl.
    + eexists. split; [reflexivity|]. right. right. auto.
    + right. split; [reflexivity|]. eauto.
    + eexists. split; [reflexivity|]. right. left. auto.
  - now left.
  - eexists. split; [reflexivity|]. now left.
Qed.

(** The theorem on an empty source directory. *)
Lemma convert_source_check_witness :
  Init.checkExistingProject MoreExamples.emptySourceHost Examples.plainLib "/src" =
  Throw (InputError "Error reading target directory [/src]"
           (Some (InputError "Target project directory [/src] is empty!" None))).
Proof.
  pose proof (convert_source_check MoreExamples.emptySourceHost Examples.plainLib "/src") as H.
  destruct (Init.checkExistingProject MoreExamples.emptySourceHost Examples.plainLib "/src")
    as [u|e] eqn:E.
  - vm_compute in E. discriminate.
  - destruct H as (cause & -> & _). vm_compute in E. injection E as <-. reflexivity.
Defined.

(** X2. The check [run] makes on the project directory lets the run go on
    when the path is a regular file, when it is an empty directory, and when
    [stat] or [readdir] throws an error whose message contains [ENOENT] (the
    directory is missing: it will be created). Any other error of [stat] or
    [readdir] comes out wrapped in an [UnknownError] with the error as its
    cause. *)
Theorem project_dir_check_cases (host : Host) (lib : Init.Lib) (projectName projectPath : string) :
  (stat host projectPath = Ok false ->
   Init.checkProjectDir host lib projectName projectPath = Ok tt) /\
  (stat host projectPath = Ok true -> readdir host projectPath = Ok [] ->
   Init.checkProjectDir host lib projectName projectPath = Ok tt) /\
  (forall e,
      stat host projectPath = Throw e \/
      (stat host projectPath = Ok true /\ readdir host projectPath = Throw e) ->
      Init.checkProjectDir host lib projectName projectPath =
      if includes (message e) "ENOENT" then Ok tt
      else Throw (UnknownError "Unexpected error" e)).
Proof.
  unfold Init.checkProjectDir, Init.probeProjectDir.
  split; [|split].
  - intros ->. reflexivity.
  - intros -> ->. reflexivity.
  - intros e [->|[-> ->]]; reflexivity.
Qed.

(** The theorem on a project directory that does not exist yet. *)
Lemma project_dir_check_cases_witness :
  Init.checkProjectDir Examples.appHost Examples.plainLib "app" "/work/app" = Ok tt.
Proof.
  rewrite (proj2 (proj2 (project_dir_check_cases Examples.appHost Examples.plainLib
                           "app" "/work/app")) (Examples.enoent "/work/app")).
  - reflexivity.
  - left. reflexivity.
Defined.

(** ** The prompts of the convert flow *)

(** X3. [getManualPaths] returns, after the paths it was given, every
    directory the user selected, in the order selected, when asked for
    contracts or crates; when asked for tests it returns one directory only,
    the first selected, and asks for no more. The list is never empty. *)
Theorem manual_paths_collected (directoryType selected : string) (more paths : list string) :
  Init.getManualPaths directoryType selected more paths =
  (if String.eqb directoryType "tests" then paths ++ [selected] else paths ++ selected :: more) /\
  Init.getManualPaths directoryType selected more paths <> [].
Proof.
  assert (Init.getManualPaths directoryType selected more paths =
          if String.eqb directoryType "tests" then paths ++ [selected]
          else paths ++ selected :: more) as H.
  { destruct (String.eqb_spec directoryType "tests") as [->|Hne].
    - apply getManualPaths_tests.
    - apply getManualPaths_more. now apply String.eqb_neq. }
  split; [exact H|]. rewrite H.
  destruct (String.eqb directoryType "tests"); destruct paths; discriminate.
Qed.

(** X4. What [detectTests] returns once the probe has detected a
    directory: the directory the user enters when they decline the detected
    one and say yes to entering another; the detected directory otherwise.
    In particular a detected directory that the user declines is returned
    all the same when the user also declines to enter another, and an
    accepted one is returned without a further question. *)
Theorem detect_tests_answer (host : Host) (pathToExistingProject : string)
    (ans : Init.ConvertAnswers) (d : string) :
  Init.probeTestDir host pathToExistingProject Init.testDirNames = Some d ->
  d <> "" ->
  Init.detectTests host pathToExistingProject ans =
  Ok (if negb (Init.shouldUseDetectedTestDir ans) && Init.shouldInputTestDir ans
      then Some (fst (Init.manualTestDir ans))
      else Some d) /\
  (Init.shouldInputTestDir ans = false ->
   Init.detectTests host pathToExistingProject ans = Ok (Some d)) /\
  (Init.shouldUseDetectedTestDir ans = true ->
   Init.detectTests host pathToExistingProject ans = Ok (Some d)).
Proof.
  intros Hp Hd. unfold Init.detectTests. rewrite Hp. simpl Init.basenameOf. cbn [bind].
  rewrite getManualPaths_tests. simpl head.
  assert (Init.detected (Some d) = true) as ->.
  { simpl. now destruct (String.eqb_spec d ""). }
  destruct (Init.shouldUseDetectedTestDir ans), (Init.shouldInputTestDir ans);
    simpl; repeat split; try reflexivity; discriminate.
Qed.

(** The theorem on a project with a [tests] directory and a user who
    declines it and declines to enter another: [tests] is returned. *)
Lemma detect_tests_answer_witness :
  Init.detectTests Examples.testsHost "/src" MoreExamples.decliningAnswers
  = Ok (Some "/src/tests").
Proof.
  apply (proj1 (proj2 (detect_tests_answer Examples.testsHost "/src"
                         MoreExamples.decliningAnswers "/src/tests" eq_refl
                         ltac:(discriminate)))).
  reflexivity.
Defined.

(** ** More on the confirmation gate *)

Lemma checked_from_sublist (sel : nat -> bool) (l : list PathEntry) (i : nat) :
  sublist (Candidates.checked_from sel i l) l.
Proof.
  revert i. induction l as [|e l IH]; intros i; simpl.
  - constructor.
  - destruct (sel i); [apply sublist_skip|apply sublist_cons]; apply IH.
Qed.

Lemma checked_from_all (sel : nat -> bool) (l : list PathEntry) (i : nat) :
  (forall j, sel j = true) -> Candidates.checked_from sel i l = l.
Proof.
  intros Hall. revert i. induction l as [|e l IH]; intros i; simpl; [reflexivity|].
  now rewrite Hall, IH.
Qed.

Lemma checked_from_none (sel : nat -> bool) (l : list PathEntry) (i : nat) :
  (forall j, sel j = false) -> Candidates.checked_from sel i l = [].
Proof.
  intros Hnone. revert i. induction l as [|e l IH]; intros i; simpl; [reflexivity|].
  now rewrite Hnone, IH.
Qed.

(** X5. The gate neither adds, nor repeats, nor reorders: each group it
    returns is, entry for entry, the tagged copy of a sublist of the same
    group of its input. *)
Theorem gate_returns_sublists (sel : nat -> bool) (l : nat) (h : list Candidates.cell)
    (c : Candidates.CopyCandidates) :
  Candidates.load h l = Some c ->
  exists l' h' cs cr ts,
    Candidates.confirmCopyList sel l h = Some (l', h') /\
    Candidates.load h' l' =
    Some (Candidates.mkCopyCandidates
            (map (Candidates.choice "contracts") cs)
            (map (Candidates.choice "crates") cr)
            (Some (map (Candidates.choice "tests") ts))) /\
    sublist cs (Candidates.contracts c) /\
    sublist cr (Candidates.crates c) /\
    sublist ts (default [] (Candidates.tests c)) /\
    (length cs <= length (Candidates.contracts c))%nat /\
    (length cr <= length (Candidates.crates c))%nat /\
    (length ts <= length (default [] (Candidates.tests c)))%nat.
Proof.
  intros Hload.
  destruct (confirmCopyList_loads sel l h c Hload) as (l' & h' & Hc & Hl').
  exists l', h'. eexists _, _, _. split; [exact Hc|]. split; [exact Hl'|].
  repeat split; try apply checked_from_sublist; apply sublist_length, checked_from_sublist.
Qed.

(** The theorem on [{contracts: [X, Y], crates: [], tests: [Z]}] with the
    first choice unchecked. *)
Lemma gate_returns_sublists_witness :
  exists l' h' cs cr ts,
    Candidates.confirmCopyList Examples.withoutFirst 3 Examples.xyzStore = Some (l', h') /\
    Candidates.load h' l' =
    Some (Candidates.mkCopyCandidates
            (map (Candidates.choice "contracts") cs)
            (map (Candidates.choice "crates") cr)
            (Some (map (Candidates.choice "tests") ts))) /\
    sublist cs [Examples.entryX; Examples.entryY] /\
    sublist ts [Examples.entryZ].
Proof.
  destruct (gate_returns_sublists Examples.withoutFirst 3 Examples.xyzStore
              (Candidates.mkCopyCandidates [Examples.entryX; Examples.entryY] []
                 (Some [Examples.entryZ])) eq_refl)
    as (l' & h' & cs & cr & ts & Hc & Hl & Hcs & _ & Hts & _).
  exists l', h', cs, cr, ts. repeat split; assumption.
Defined.

(** X6. With every choice left checked, as the prompt presents them, the
    gate returns every entry of every group, tagged with its group; with
    every choice unchecked it returns three empty groups. An input without
    a tests group comes back with an empty one. *)
Theorem gate_all_or_nothing (sel : nat -> bool) (l : nat) (h : list Candidates.cell)
    (c : Candidates.CopyCandidates) :
  Candidates.load h l = Some c ->
  exists l' h',
    Candidates.confirmCopyList sel l h = Some (l', h') /\
    ((forall j, sel j = true) ->
     Candidates.load h' l' =
     Some (Candidates.mkCopyCandidates
             (map (Candidates.choice "contracts") (Candidates.contracts c))
             (map (Candidates.choice "crates") (Candidates.crates c))
             (Some (map (Candidates.choice "tests") (default [] (Candidates.tests c)))))) /\
    ((forall j, sel j = false) ->
     Candidates.load h' l' = Some (Candidates.mkCopyCandidates [] [] (Some []))).
Proof.
  intros Hload.
  destruct (confirmCopyList_loads sel l h c Hload) as (l' & h' & Hc & Hl').
  exists l', h'. split; [exact Hc|]. unfold Candidates.selected in Hl'. split; intros Hsel.
  - now rewrite !(checked_from_all sel _ _ Hsel) in Hl'.
  - now rewrite !(checked_from_none sel _ _ Hsel) in Hl'.
Qed.

(** The theorem on [{contracts: [X, Y], crates: []}], all checked. *)
Lemma gate_all_or_nothing_witness :
  exists l' h',
    Candidates.confirmCopyList (fun _ => true) 2 Examples.xyStore = Some (l', h') /\
    Candidates.load h' l' =
    Some (Candidates.mkCopyCandidates
            [Candidates.choice "contracts" Examples.entryX;
             Candidates.choice "contracts" Examples.entryY] [] (Some [])).
Proof.
  destruct (gate_all_or_nothing (fun _ => true) 2 Examples.xyStore
              (Candidates.mkCopyCandidates [Examples.entryX; Examples.entryY] [] None) eq_refl)
    as (l' & h' & Hc & Hall & _).
  exists l', h'. split; [exact Hc|]. apply Hall. reflexivity.
Defined.

(** ** More on the module-name resolver *)

Lemma resolve_entry_keeps (host : Host) (e e' : PathEntry) (w : list string) :
  Candidates.resolve_entry host e = Ok (e', w) ->
  name e' = name e /\ path e' = path e /\
  dirent_isDirectory e' = dirent_isDirectory e /\ group e' = group e /\
  is_Some (moduleName e').
Proof.
  unfold Candidates.resolve_entry.
  destruct (dirent_isDirectory e && pathExists host _).
  - destruct (readToml host _) as [toml|]; simpl; [|discriminate].
    destruct (truthy (Candidates.package_name toml)); intros [= <- <-]; simpl; eauto 10.
  - intros [= <- <-]; simpl; eauto 10.
Qed.

Lemma resolve_group_keeps (host : Host) (l l' : list PathEntry) (w : list string) :
  Candidates.resolve_group host l = Ok (l', w) ->
  map name l' = map name l /\ map path l' = map path l /\
  map dirent_isDirectory l' = map dirent_isDirectory l /\ map group l' = map group l /\
  Forall (fun e' => is_Some (moduleName e')) l'.
Proof.
  revert l' w. induction l as [|e l IH]; simpl; intros l' w H.
  - injection H as <- <-. repeat split; constructor.
  - destruct (Candidates.resolve_entry host e) as [[e1 w1]|] eqn:He; simpl in H; [|discriminate].
    destruct (Candidates.resolve_group host l) as [[l1 w2]|] eqn:Hl; simpl in H; [|discriminate].
    injection H as <- <-.
    destruct (resolve_entry_keeps host e e1 w1 He) as (Hn & Hp & Hd & Hg & Hm).
    destruct (IH l1 w2 eq_refl) as (IHn & IHp & IHd & IHg & IHm).
    simpl. rewrite Hn, Hp, Hd, Hg, IHn, IHp, IHd, IHg.
    repeat split. now constructor.
Qed.

(** X7. The resolver changes nothing of an entry but its module name: the
    contracts and crates groups it returns have the same names, paths,
    kinds and groups, in the same order, and every entry of them has a
    module name. The tests group is returned as it was, made empty when
    absent. *)
Theorem resolver_keeps_entries (host : Host) (c c' : Candidates.CopyCandidates) (w : list string) :
  Candidates.resolve_candidates host c = Ok (c', w) ->
  map name (Candidates.contracts c') = map name (Candidates.contracts c) /\
  map path (Candidates.contracts c') = map path (Candidates.contracts c) /\
  map dirent_isDirectory (Candidates.contracts c')
    = map dirent_isDirectory (Candidates.contracts c) /\
  map group (Candidates.contracts c') = map group (Candidates.contracts c) /\
  map name (Candidates.crates c') = map name (Candidates.crates c) /\
  map path (Candidates.crates c') = map path (Candidates.crates c) /\
  map dirent_isDirectory (Candidates.crates c') = map dirent_isDirectory (Candidates.crates c) /\
  map group (Candidates.crates c') = map group (Candidates.crates c) /\
  Forall (fun e' => is_Some (moduleName e')) (Candidates.contracts c' ++ Candidates.crates c') /\
  Candidates.tests c' = Some (default [] (Candidates.tests c)).
Proof.
  unfold Candidates.resolve_candidates. intros H.
  destruct (Candidates.resolve_group host (Candidates.contracts c)) as [[cs w1]|] eqn:Hcs;
    simpl in H; [|discriminate].
  destruct (Candidates.resolve_group host (Candidates.crates c)) as [[cr w2]|] eqn:Hcr;
    simpl in H; [|discriminate].
  injection H as <- <-. simpl.
  destruct (resolve_group_keeps host _ _ _ Hcs) as (? & ? & ? & ? & ?).
  destruct (resolve_group_keeps host _ _ _ Hcr) as (? & ? & ? & ? & ?).
  repeat split; try assumption. now apply Forall_app.
Qed.

(** The theorem on a file and a directory with a manifest. *)
Lemma resolver_keeps_entries_witness :
  exists c' w,
    Candidates.resolve_candidates MoreExamples.sourceHost
      (Candidates.mkCopyCandidates [MoreExamples.libFile; MoreExamples.flipperDir] [] None)
    = Ok (c', w) /\
    map name (Candidates.contracts c') = ["lib.rs"; "flipper"] /\
    map moduleName (Candidates.contracts c')
    = [Some (JStr "lib.rs"); Some (JStr "flipper_contract")].
Proof.
  destruct (Candidates.resolve_candidates MoreExamples.sourceHost
              (Candidates.mkCopyCandidates [MoreExamples.libFile; MoreExamples.flipperDir] [] None))
    as [[c' w]|e] eqn:E.
  - exists c', w. split; [reflexivity|].
    destruct (resolver_keeps_entries _ _ _ _ E) as (Hn & _). split; [exact Hn|].
    vm_compute in E. injection E as <- <-. reflexivity.
  - vm_compute in E. discriminate.
Defined.

Lemma resolve_entry_throws (host : Host) (x : PathEntry) (e : exn) :
  Candidates.resolve_entry host x = Throw e <->
  dirent_isDirectory x = true /\
  pathExists host (resolve host (path x) "Cargo.toml") = true /\
  readToml host (resolve host (path x) "Cargo.toml") = Throw e.
Proof.
  unfold Candidates.resolve_entry. split.
  - destruct (dirent_isDirectory x); simpl; [|discriminate].
    destruct (pathExists host _); simpl; [|discriminate].
    destruct (readToml host _) as [toml|e']; simpl.
    + destruct (truthy _); discriminate.
    + intros [= ->]. auto.
  - intros (-> & -> & ->). reflexivity.
Qed.

Lemma resolve_group_app (host : Host) (l1 l2 : list PathEntry) :
  Candidates.resolve_group host (l1 ++ l2) =
  (r1 <- Candidates.resolve_group host l1 ;;
   r2 <- Candidates.resolve_group host l2 ;;
   Ok (fst r1 ++ fst r2, snd r1 ++ snd r2)).
Proof.
  induction l1 as [|x l1 IH]; simpl.
  - destruct (Candidates.resolve_group host l2) as [[a b]|]; reflexivity.
  - destruct (Candidates.resolve_entry host x) as [[x' wx]|]; simpl; [|reflexivity].
    rewrite IH.
    destruct (Candidates.resolve_group host l1) as [[a b]|]; simpl; [|reflexivity].
    destruct (Candidates.resolve_group host l2) as [[a2 b2]|]; simpl; [|reflexivity].
    now rewrite <- app_assoc.
Qed.

Lemma resolve_group_throws (host : Host) (l : list PathEntry) (e : exn) :
  Candidates.resolve_group host l = Throw e <->
  exists l1 x l2,
    l = l1 ++ x :: l2 /\
    Forall (fun y => exists r, Candidates.resolve_entry host y = Ok r) l1 /\
    Candidates.resolve_entry host x = Throw e.
Proof.
  split.
  - induction l as [|x l IH]; simpl; [discriminate|].
    destruct (Candidates.resolve_entry host x) as [rx|ex] eqn:Hx; simpl.
    + destruct (Candidates.resolve_group host l) as [rl|el]; simpl; [discriminate|].
      intros [= ->]. destruct (IH eq_refl) as (l1 & y & l2 & -> & Hok & Hy).
      exists (x :: l1), y, l2. split; [reflexivity|]. split; [|exact Hy].
      constructor; [eauto|exact Hok].
    + intros [= ->]. exists [], x, l. split; [reflexivity|]. split; [constructor|exact Hx].
  - intros (l1 & x & l2 & -> & Hok & Hx).
    induction Hok as [|y l1 [ry Hy] _ IH]; simpl.
    + now rewrite Hx.
    + rewrite Hy. simpl. now rewrite IH.
Qed.

Lemma resolve_candidates_throws (host : Host) (c : Candidates.CopyCandidates) (e : exn) :
  Candidates.resolve_candidates host c = Throw e <->
  Candidates.resolve_group host (Candidates.contracts c ++ Candidates.crates c) = Throw e.
Proof.
  unfold Candidates.resolve_candidates. rewrite resolve_group_app.
  destruct (Candidates.resolve_group host (Candidates.contracts c)) as [[a b]|]; simpl;
    [|split; intros [= ->]; reflexivity].
  destruct (Candidates.resolve_group host (Candidates.crates c)) as [[a2 b2]|]; simpl;
    [|split; intros [= ->]; reflexivity].
  split; discriminate.
Qed.

(** X8. The resolver fails fast. It throws exactly when, going through the
    contracts and then the crates, it meets a directory with a [Cargo.toml]
    inside that cannot be read or parsed, every entry before it having been
    resolved; what it throws is the error of that manifest. An entry that is
    no directory, or has no manifest, never makes it throw. *)
Theorem resolver_fails_fast (host : Host) (c : Candidates.CopyCandidates) (e : exn) :
  Candidates.resolve_candidates host c = Throw e <->
  exists l1 x l2,
    Candidates.contracts c ++ Candidates.crates c = l1 ++ x :: l2 /\
    Forall (fun y => exists r, Candidates.resolve_entry host y = Ok r) l1 /\
    dirent_isDirectory x = true /\
    pathExists host (resolve host (path x) "Cargo.toml") = true /\
    readToml host (resolve host (path x) "Cargo.toml") = Throw e.
Proof.
  rewrite resolve_candidates_throws, resolve_group_throws.
  split; intros (l1 & x & l2 & Hl & Hok & Hx); exists l1, x, l2;
    (split; [exact Hl|]); (split; [exact Hok|]); now apply resolve_entry_throws.
Qed.

(** The theorem on a source file followed by a contract directory whose
    manifest does not parse. *)
Lemma resolver_fails_fast_witness :
  Candidates.resolve_candidates MoreExamples.brokenHost
    (Candidates.mkCopyCandidates [MoreExamples.libFile; MoreExamples.flipperDir] [] None)
  = Throw (SysError
             "Unexpected character, expected whitespace, = or key in /src/contracts/flipper/Cargo.toml").
Proof.
  apply (proj2 (resolver_fails_fast MoreExamples.brokenHost _ _)).
  exists [MoreExamples.libFile], MoreExamples.flipperDir, [].
  split; [reflexivity|]. split.
  - constructor; [|constructor]. eexists. vm_compute. reflexivity.
  - split; [reflexivity|]. split; vm_compute; reflexivity.
Defined.

Lemma resolve_group_files (host : Host) (l : list PathEntry) :
  Forall (fun e => dirent_isDirectory e = false) l ->
  Candidates.resolve_group host l =
  Ok (map (fun e => Candidates.with_moduleName e (JStr (basename host (path e)))) l, []).
Proof.
  induction 1 as [|x l Hx _ IH]; simpl; [reflexivity|].
  rewrite (resolve_entry_file host x Hx). simpl. rewrite IH. reflexivity.
Qed.

(** X9. On candidates none of which is a directory the resolver reads no
    manifest: it cannot throw, prints nothing, and names every entry after
    the base name of its path. *)
Theorem resolver_on_files (host : Host) (c : Candidates.CopyCandidates) :
  Forall (fun e => dirent_isDirectory e = false) (Candidates.contracts c ++ Candidates.crates c) ->
  Candidates.resolve_candidates host c =
  Ok (Candidates.mkCopyCandidates
        (map (fun e => Candidates.with_moduleName e (JStr (basename host (path e))))
           (Candidates.contracts c))
        (map (fun e => Candidates.with_moduleName e (JStr (basename host (path e))))
           (Candidates.crates c))
        (Some (default [] (Candidates.tests c))),
      []).
Proof.
  intros H. apply Forall_app in H as (Hcs & Hcr).
  unfold Candidates.resolve_candidates.
  rewrite (resolve_group_files host _ Hcs), (resolve_group_files host _ Hcr). reflexivity.
Qed.

(** The theorem on one source file, with a host whose manifests do not
    parse. *)
Lemma resolver_on_files_witness :
  Candidates.resolve_candidates MoreExamples.brokenHost
    (Candidates.mkCopyCandidates [MoreExamples.libFile] [] None)
  = Ok (Candidates.mkCopyCandidates
          [Candidates.with_moduleName MoreExamples.libFile (JStr "lib.rs")] [] (Some []), []).
Proof.
  rewrite (resolver_on_files MoreExamples.brokenHost
             (Candidates.mkCopyCandidates [MoreExamples.libFile] [] None)).
  - reflexivity.
  - repeat constructor.
Defined.

(** ** The queue [run] plans *)

(** The shape of every queue [run] plans. A task of its flow is one of the
    flow's operations, fatal on failure; it does not set the node path, and
    it logs its result only if it is the copy task. *)
Lemma plan_queue (host : Host) (lib : Init.Lib) (flags : Init.Flags) (ans : Init.Answers)
    (projectName : string) (p : Init.Plan) :
  Init.plan host lib flags ans projectName = Ok p ->
  let projectPath := resolve host (cwd host) projectName in
  exists flow,
    Init.taskQueue p =
    Plans.copyCommonTask lib projectPath :: flow
    ++ [Plans.installDepsTask projectPath; Plans.gitInitTask projectPath]
    ++ (if negb (Init.swanky_node flags) && Init.useSwankyNode ans
        then [Plans.downloadNodeTask projectPath] else [])
    ++ [Init.writeConfigTask projectPath] /\
    Forall (fun t => Plans.is_flow_op (Executor.task t) = true /\ Executor.fatal t = true /\
                     Plans.sets_node_path t = false /\
                     Plans.logs_result t = Plans.is_CopyWorkspaceContracts (Executor.task t)) flow /\
    existsb (fun t => Plans.is_MergePackageJson (Executor.task t)) flow
    = match Init.convertRequested flags with
      | Some c => pathExists host (resolve host c "package.json")
      | None => false
      end.
Proof.
  intros H. cbv zeta.
  destruct (Init.convertRequested flags) as [c|] eqn:Hc.
  - destruct (plan_convert _ _ _ _ _ _ _ H Hc)
      as (? & confirmed & ? & rootToml & _ & _ & _ & _ & Hq & _).
    exists (Plans.convertTasks host lib c projectName (resolve host (cwd host) projectName)
              confirmed rootToml).
    split; [exact Hq|]. unfold Plans.convertTasks.
    destruct (pathExists host (resolve host c "package.json")); split;
      try reflexivity; repeat constructor.
  - destruct (plan_generate _ _ _ _ _ _ H Hc) as (Hq & _).
    exists (Plans.generateTasks host lib (Init.generateAnswers ans) projectName
              (resolve host (cwd host) projectName)).
    split; [exact Hq|]. split; [repeat constructor|reflexivity].
Qed.

Lemma flow_has_no (f : Init.InitOp -> bool) (flow : list Init.InitTask) :
  (forall op, Plans.is_flow_op op = true -> f op = false) ->
  Forall (fun t => Plans.is_flow_op (Executor.task t) = true /\ Executor.fatal t = true /\
                     Plans.sets_node_path t = false /\
                     Plans.logs_result t = Plans.is_CopyWorkspaceContracts (Executor.task t)) flow ->
  existsb (fun t => f (Executor.task t)) flow = false.
Proof.
  intros Hf. induction 1 as [|t flow [Ht _] _ IH]; simpl; [reflexivity|].
  now rewrite (Hf _ Ht), IH.
Qed.

(** X10. The node is downloaded exactly when the [swanky-node] flag is not
    given and the user answers yes: whatever the flow, the planned queue
    holds a download task in that case and in no other. With the flag given
    the question is not asked and no download is planned. *)
Theorem download_planned_iff (host : Host) (lib : Init.Lib) (flags : Init.Flags)
    (ans : Init.Answers) (projectName : string) (p : Init.Plan) :
  Init.plan host lib flags ans projectName = Ok p ->
  existsb (fun t => Plans.is_DownloadNode (Executor.task t)) (Init.taskQueue p)
  = negb (Init.swanky_node flags) && Init.useSwankyNode ans.
Proof.
  intros Hplan. destruct (plan_queue _ _ _ _ _ _ Hplan) as (flow & Hq & Hflow & _).
  rewrite Hq. simpl. rewrite !existsb_app.
  rewrite (flow_has_no Plans.is_DownloadNode flow); [|intros []; simpl; congruence|exact Hflow].
  destruct (negb (Init.swanky_node flags) && Init.useSwankyNode ans); reflexivity.
Qed.

(** The theorem on [init app --swanky-node] with a user who would have said
    yes: nothing is downloaded. *)
Lemma download_planned_iff_witness :
  exists p,
    Init.plan Examples.appHost Examples.plainLib (Init.mkFlags true None)
      (Init.mkAnswers Examples.newContract Examples.defaultAnswers true) "app" = Ok p /\
    existsb (fun t => Plans.is_DownloadNode (Executor.task t)) (Init.taskQueue p) = false.
Proof.
  destruct (Init.plan Examples.appHost Examples.plainLib (Init.mkFlags true None)
              (Init.mkAnswers Examples.newContract Examples.defaultAnswers true) "app")
    as [p|] eqn:Hp; [|discriminate].
  exists p. split; [reflexivity|].
  exact (download_planned_iff _ _ _ _ _ _ Hp).
Defined.

(** X11. In every planned queue the task that installs the dependencies is
    there, and it is the only one whose failure does not abort the run:
    every other task is fatal on failure. *)
Theorem only_install_is_not_fatal (host : Host) (lib : Init.Lib) (flags : Init.Flags)
    (ans : Init.Answers) (projectName : string) (p : Init.Plan) :
  Init.plan host lib flags ans projectName = Ok p ->
  In (Plans.installDepsTask (resolve host (cwd host) projectName)) (Init.taskQueue p) /\
  forall t, In t (Init.taskQueue p) ->
            Executor.fatal t = negb (Plans.is_InstallDeps (Executor.task t)).
Proof.
  intros Hplan. destruct (plan_queue _ _ _ _ _ _ Hplan) as (flow & Hq & Hflow & _).
  rewrite Hq. split.
  - right. apply in_or_app. right. now left.
  - intros t Ht. simpl in Ht. rewrite !in_app_iff in Ht. simpl in Ht.
    destruct Ht as [<-|[Ht|[<-|[<-|Ht]]]]; try reflexivity.
    + rewrite List.Forall_forall in Hflow. destruct (Hflow t Ht) as (Hop & -> & _).
      destruct (Executor.task t); simpl in *; congruence.
    + rewrite in_app_iff in Ht. destruct Ht as [Ht|[<-|[]]]; [|reflexivity].
      destruct (negb (Init.swanky_node flags) && Init.useSwankyNode ans);
        [destruct Ht as [<-|[]]; reflexivity|destruct Ht].
Qed.

(** The theorem on [init app]. *)
Lemma only_install_is_not_fatal_witness :
  exists p,
    Init.plan Examples.appHost Examples.plainLib (Init.mkFlags true None) Examples.newProject "app"
    = Ok p /\
    In (Plans.installDepsTask "/work/app") (Init.taskQueue p).
Proof.
  destruct (Init.plan Examples.appHost Examples.plainLib (Init.mkFlags true None)
              Examples.newProject "app") as [p|] eqn:Hp; [|discriminate].
  exists p. split; [reflexivity|].
  exact (proj1 (only_install_is_not_fatal _ _ _ _ _ _ Hp)).
Defined.



(** ** Runs of the planned queue *)

Section Completion.

Variable Op : Type.
Variable Cb : Type.
Variable St : Type.
Variable perform : Op -> St -> St * result jsval.
Variable invoke : Cb -> jsval -> St -> St.

(** The loop completes when every task that is fatal on failure returns,
    in whatever state it is run. *)
Lemma run_loop_completes (q : list (Executor.Task Op Cb)) (s : St) :
  (forall t, In t q -> Executor.fatal t = true ->
             forall s', exists v, snd (perform (Executor.task t) s') = Ok v) ->
  Executor.ended (Executor.run_loop perform invoke q s) = Executor.Completed.
Proof.
  revert s. induction q as [|t q IH]; intros s H; [reflexivity|].
  assert (forall t', In t' q -> Executor.fatal t' = true ->
                     forall s', exists v, snd (perform (Executor.task t') s') = Ok v) as Hq.
  { intros t' Ht'. apply H. now right. }
  destruct (perform (Executor.task t) s) as [s' [v|e]] eqn:Hp.
  - rewrite (run_loop_returns _ _ _ perform invoke t q s s' v Hp). cbv zeta. fields.
    now apply IH.
  - destruct (Executor.fatal t) eqn:Hf.
    + destruct (H t (or_introl eq_refl) Hf s) as [v Hv]. rewrite Hp in Hv. discriminate.
    + rewrite (run_loop_continues _ _ _ perform invoke t q s s' e Hp Hf). cbv zeta. fields.
      now apply IH.
Qed.

(** The callbacks called by a loop whose task at the end of a completed
    prefix fails. *)
Lemma callbacks_after_failure (q1 : list (Executor.Task Op Cb)) (t : Executor.Task Op Cb)
    (q2 : list (Executor.Task Op Cb)) (s s' : St) (e : exn) :
  Executor.ended (Executor.run_loop perform invoke q1 s) = Executor.Completed ->
  perform (Executor.task t) (Executor.final (Executor.run_loop perform invoke q1 s))
    = (s', Throw e) ->
  Executor.callbacks (Executor.trace (Executor.run_queue perform invoke (q1 ++ t :: q2) s)) =
  Executor.callbacks (Executor.trace (Executor.run_loop perform invoke q1 s))
  ++ (if Executor.fatal t then []
      else Executor.callbacks (Executor.trace (Executor.run_queue perform invoke q2 s'))).
Proof.
  intros Hc Hp. rewrite !run_queue_callbacks, run_loop_app, Hc. cbv zeta. fields.
  rewrite callbacks_app. f_equal.
  destruct (Executor.fatal t) eqn:Hf.
  - now rewrite (run_loop_fatal _ _ _ perform invoke t q2 _ s' e Hp Hf).
  - now rewrite (run_loop_continues _ _ _ perform invoke t q2 _ s' e Hp Hf).
Qed.

(** X13. The callback of a task whose operation fails is never called,
    whether the failure aborts the run or not: the callbacks of the run are
    those of the tasks before it and, when the run goes on, those of the
    tasks after it. *)
Theorem no_callback_on_failure (q1 : list (Executor.Task Op Cb)) (t : Executor.Task Op Cb)
    (q2 : list (Executor.Task Op Cb)) (s s' : St) (e : exn) :
  Executor.ended (Executor.run_loop perform invoke q1 s) = Executor.Completed ->
  perform (Executor.task t) (Executor.final (Executor.run_loop perform invoke q1 s))
    = (s', Throw e) ->
  Executor.callbacks (Executor.trace (Executor.run_queue perform invoke (q1 ++ t :: q2) s)) =
  Executor.callbacks (Executor.trace (Executor.run_loop perform invoke q1 s))
  ++ (if Executor.fatal t then []
      else Executor.callbacks (Executor.trace (Executor.run_queue perform invoke q2 s'))) /\
  (Executor.fatal t = false ->
   Executor.final (Executor.run_queue perform invoke (q1 ++ t :: q2) s)
   = Executor.final (Executor.run_queue perform invoke q2 s')).
Proof.
  intros Hc Hp. split; [now apply callbacks_after_failure with e|].
  intros Hf. rewrite !run_queue_final, run_loop_app, Hc. cbv zeta. fields.
  now rewrite (run_loop_continues _ _ _ perform invoke t q2 _ s' e Hp Hf).
Qed.

End Completion.

(** The theorem on a download that fails: the node path is not set. *)
Lemma no_callback_on_failure_witness :
  Executor.callbacks
    (Executor.trace (Examples.runOn (fun op => Plans.is_DownloadNode op) [Examples.downloadTask]))
  = [].
Proof.
  exact (proj1 (no_callback_on_failure _ _ _
                  (Init.perform (list Init.InitOp) Examples.appHost
                     (Examples.recordingWorld (fun op => Plans.is_DownloadNode op)))
                  (Init.invoke (list Init.InitOp))
                  [] Examples.downloadTask [] Examples.startState
                  (Init.mkInitState (Init.initialConfig Examples.plainLib) []
                     [Init.DownloadNode "/work/app"])
                  (SysError "Command failed with exit code 1") eq_refl eq_refl)).
Defined.

(** X14. A run in which no operation of the queue other than installing
    the dependencies fails completes: every task of the planned queue is
    invoked, once and in order, the configuration is written once, and the
    banner is logged last. A failing installation does not stop it. *)
Theorem run_survives_failed_install (host : Host) (lib : Init.Lib) (flags : Init.Flags)
    (ans : Init.Answers) (projectName : string) (p : Init.Plan)
    (W : Type) (wd : Init.World W) (w : W) :
  Init.plan host lib flags ans projectName = Ok p ->
  (forall t s, In t (Init.taskQueue p) -> Plans.is_InstallDeps (Executor.task t) = false ->
               exists v, snd (Init.perform W host wd (Executor.task t) s) = Ok v) ->
  let o := Executor.run_queue (Init.perform W host wd) (Init.invoke W) (Init.taskQueue p)
             (Init.mkInitState (Init.configBuilder p) [] w) in
  Executor.ended o = Executor.Completed /\
  Executor.invocations (Executor.trace o) = map Executor.task (Init.taskQueue p) /\
  Init.config_writes (Executor.invocations (Executor.trace o)) = 1%nat /\
  last (Executor.trace o) = Some (Executor.Logged Executor.banner).
Proof.
  intros Hplan Hok o.
  destruct (plan_queue _ _ _ _ _ _ Hplan) as (flow & Hq & Hflow & _).
  assert (Executor.ended
            (Executor.run_loop (Init.perform W host wd) (Init.invoke W) (Init.taskQueue p)
               (Init.mkInitState (Init.configBuilder p) [] w)) = Executor.Completed) as Hc.
  { apply run_loop_completes. intros t Ht Hf s'. apply Hok; [exact Ht|].
    rewrite Hq in Ht. simpl in Ht. rewrite !in_app_iff in Ht. simpl in Ht.
    destruct Ht as [<-|[Ht|[<-|[<-|Ht]]]]; try reflexivity; try discriminate.
    - rewrite List.Forall_forall in Hflow. destruct (Hflow t Ht) as (Hop & _).
      destruct (Executor.task t); simpl in *; congruence.
    - rewrite in_app_iff in Ht. destruct Ht as [Ht|[<-|[]]]; [|reflexivity].
      destruct (negb (Init.swanky_node flags) && Init.useSwankyNode ans);
        [destruct Ht as [<-|[]]; reflexivity|destruct Ht]. }
  unfold o. rewrite (run_queue_completed _ _ _ _ _ _ _ Hc). fields.
  rewrite invocations_app, (run_loop_completed _ _ _ _ _ _ _ Hc). simpl. rewrite app_nil_r.
  split; [reflexivity|]. split; [reflexivity|]. split; [|apply last_snoc].
  destruct (plan_shape _ _ _ _ _ _ Hplan) as (q' & Hq' & Hnw).
  rewrite Hq', map_app, config_writes_app. simpl.
  rewrite config_writes_none; [reflexivity|].
  rewrite List.Forall_forall in *. intros op Hop. apply in_map_iff in Hop as (t & <- & Ht).
  now apply Hnw.
Qed.

(** The theorem on [init app] in a world where installing the dependencies
    fails. *)
Lemma run_survives_failed_install_witness :
  exists p,
    Init.plan Examples.appHost Examples.plainLib (Init.mkFlags true None) Examples.newProject "app"
    = Ok p /\
    Executor.ended
      (Executor.run_queue
         (Init.perform (list Init.InitOp) Examples.appHost
            (Examples.recordingWorld Examples.installFails))
         (Init.invoke (list Init.InitOp)) (Init.taskQueue p)
         (Init.mkInitState (Init.configBuilder p) [] []))
    = Executor.Completed.
Proof.
  destruct (Init.plan Examples.appHost Examples.plainLib (Init.mkFlags true None)
              Examples.newProject "app") as [p|] eqn:Hp; [|discriminate].
  exists p. split; [reflexivity|].
  apply (run_survives_failed_install Examples.appHost Examples.plainLib (Init.mkFlags true None)
           Examples.newProject "app" p (list Init.InitOp)
           (Examples.recordingWorld Examples.installFails) [] Hp).
  injection Hp as <-. intros t s Ht Hop. simpl in Ht.
  repeat (destruct Ht as [<-|Ht]; [try discriminate; simpl; eauto|]). destruct Ht.
Defined.

(** ** The node path in the configuration *)

(** A loop none of whose tasks has the callback that sets the node path
    leaves the builder as it was. *)
Lemma run_loop_builder (W : Type) (host : Host) (wd : Init.World W)
    (q : list Init.InitTask) (s : Init.InitState W) :
  Forall (fun t => Plans.sets_node_path t = false) q ->
  Init.builder (Executor.final (Executor.run_loop (Init.perform W host wd) (Init.invoke W) q s))
  = Init.builder s.
Proof.
  intros Hq. revert s. induction Hq as [|t q Ht _ IH]; intros s; [reflexivity|].
  pose proof (perform_builder W host wd (Executor.task t) s) as Hb.
  destruct (Init.perform W host wd (Executor.task t) s) as [s' [v|e]] eqn:Hp; simpl in Hb.
  - rewrite (run_loop_returns _ _ _ _ _ t q s s' v Hp). cbv zeta. fields.
    rewrite IH, <- Hb. unfold Executor.after_task, Plans.sets_node_path in *.
    destruct (Executor.callback t) as [[|]|]; [discriminate| |reflexivity].
    destruct (truthy v); reflexivity.
  - destruct (Executor.fatal t) eqn:Hf.
    + rewrite (run_loop_fatal _ _ _ _ _ t q s s' e Hp Hf). fields. exact Hb.
    + rewrite (run_loop_continues _ _ _ _ _ t q s s' e Hp Hf). cbv zeta. fields.
      now rewrite IH.
Qed.

(** X15. The node path of the configuration of a completed run. The builder
    starts with the empty string as path. When no download is planned it is
    written so. When one is planned, the download returned a value, and the
    path written is that value if it is truthy; a falsy value (the empty
    string, say) is not stored and the path stays empty. The builder the
    run ends with is the one the configuration was written from. *)
Theorem node_path_recorded (host : Host) (lib : Init.Lib) (flags : Init.Flags)
    (ans : Init.Answers) (projectName : string) (p : Init.Plan)
    (W : Type) (wd : Init.World W) (w : W) :
  Init.plan host lib flags ans projectName = Ok p ->
  let projectPath := resolve host (cwd host) projectName in
  let s0 := Init.mkInitState (Init.configBuilder p) [] w in
  let run_loop := Executor.run_loop (Init.perform W host wd) (Init.invoke W) in
  let o := Executor.run_queue (Init.perform W host wd) (Init.invoke W) (Init.taskQueue p) s0 in
  Executor.ended o = Executor.Completed ->
  Config.node_localPath (Init.configBuilder p) = JStr "" /\
  (exists q',
      Init.taskQueue p = q' ++ [Init.writeConfigTask projectPath] /\
      Init.world (Executor.final o) =
      fst (Init.writeJSON wd (resolve host projectPath "swanky.config.json")
             (Init.config_json (Init.builder (Executor.final o)))
             (Init.world (Executor.final (run_loop q' s0))))) /\
  if negb (Init.swanky_node flags) && Init.useSwankyNode ans
  then exists pre s2 v,
      Init.taskQueue p
      = pre ++ [Plans.downloadNodeTask projectPath; Init.writeConfigTask projectPath] /\
      Init.perform W host wd (Init.DownloadNode projectPath) (Executor.final (run_loop pre s0))
      = (s2, Ok v) /\
      Init.builder (Executor.final o)
      = (if truthy v then Config.with_localPath (Init.configBuilder p) v
         else Init.configBuilder p)
  else Init.builder (Executor.final o) = Init.configBuilder p.
Proof.
  intros Hplan. cbv zeta. intros Hc.
  destruct (plan_queue _ _ _ _ _ _ Hplan) as (flow & Hq & Hflow & _).
  set (projectPath := resolve host (cwd host) projectName) in *.
  set (s0 := Init.mkInitState (Init.configBuilder p) [] w) in *.
  assert (Forall (fun t => Plans.sets_node_path t = false)
            (Plans.copyCommonTask lib projectPath :: flow
             ++ [Plans.installDepsTask projectPath; Plans.gitInitTask projectPath])) as Hpre.
  { constructor; [reflexivity|]. apply Forall_app. split.
    - eapply List.Forall_impl; [|exact Hflow]. now intros t (_ & _ & H & _).
    - repeat constructor. }
  split; [|split].
  - now rewrite (plan_builder _ _ _ _ _ _ Hplan).
  - destruct (plan_shape _ _ _ _ _ _ Hplan) as (q' & Hq' & Hnw).
    exists q'. split; [exact Hq'|].
    fold projectPath in Hq'. rewrite Hq' in Hc |- *.
    destruct (run_with_write_last W host wd q' projectPath s0 Hnw) as (Hw & _ & Hpc).
    cbv zeta in Hw, Hpc. destruct (Hw (Hpc Hc)) as (_ & _ & ->).
    do 2 f_equal.
    rewrite run_queue_final, run_loop_app, (Hpc Hc). cbv zeta. fields.
    destruct (run_loop_single _ _ _ (Init.perform W host wd) (Init.invoke W)
                (Init.writeConfigTask projectPath)
                (Executor.final
                   (Executor.run_loop (Init.perform W host wd) (Init.invoke W) q' s0)))
      as (_ & ->).
    unfold Executor.after_task. simpl. reflexivity.
  - rewrite run_queue_ended in Hc. rewrite run_queue_final.
    destruct (negb (Init.swanky_node flags) && Init.useSwankyNode ans).
    + exists (Plans.copyCommonTask lib projectPath :: flow
              ++ [Plans.installDepsTask projectPath; Plans.gitInitTask projectPath]).
      assert (Init.taskQueue p =
              (Plans.copyCommonTask lib projectPath :: flow
               ++ [Plans.installDepsTask projectPath; Plans.gitInitTask projectPath])
              ++ [Plans.downloadNodeTask projectPath; Init.writeConfigTask projectPath]) as Hq2.
      { rewrite Hq. simpl. now rewrite <- !app_assoc. }
      rewrite Hq2 in Hc |- *. rewrite run_loop_app in Hc |- *.
      pose proof (run_loop_builder W host wd _ s0 Hpre) as Hb.
      destruct (Executor.ended (Executor.run_loop (Init.perform W host wd) (Init.invoke W)
                  (Plans.copyCommonTask lib projectPath :: flow
                   ++ [Plans.installDepsTask projectPath; Plans.gitInitTask projectPath]) s0))
        as [|e] eqn:He.
      * cbv zeta in Hc |- *. fields. cbn [Executor.ended Executor.trace Executor.final] in Hc.
        remember (Executor.final (Executor.run_loop (Init.perform W host wd) (Init.invoke W)
                  (Plans.copyCommonTask lib projectPath :: flow
                   ++ [Plans.installDepsTask projectPath; Plans.gitInitTask projectPath]) s0))
          as s1 eqn:Es1.
        pose proof (perform_builder W host wd (Init.DownloadNode projectPath) s1) as Hb2.
        destruct (Init.perform W host wd (Init.DownloadNode projectPath) s1) as [s2 [v|e]] eqn:Hp.
        -- exists s2, v. split; [reflexivity|]. split; [reflexivity|].
           rewrite (run_loop_returns _ _ _ _ _ (Plans.downloadNodeTask projectPath) _ s1 s2 v Hp).
           cbv zeta. fields.
           destruct (run_loop_single _ _ _ (Init.perform W host wd) (Init.invoke W)
                       (Init.writeConfigTask projectPath)
                       (fst (Executor.after_task (Init.invoke W)
                               (Plans.downloadNodeTask projectPath) v s2))) as (_ & ->).
           unfold Executor.after_task. simpl in Hb2 |- *. simpl in Hb. 
           destruct (truthy v); simpl; congruence.
        -- rewrite (run_loop_fatal _ _ _ _ _ (Plans.downloadNodeTask projectPath) _ s1 s2 e Hp
                      eq_refl) in Hc. discriminate.
      * rewrite He in Hc. discriminate.
    + assert (Init.taskQueue p =
              (Plans.copyCommonTask lib projectPath :: flow
               ++ [Plans.installDepsTask projectPath; Plans.gitInitTask projectPath])
              ++ [Init.writeConfigTask projectPath]) as Hq2.
      { rewrite Hq. simpl. now rewrite <- !app_assoc. }
      rewrite Hq2. apply run_loop_builder.
      apply Forall_app. split; [exact Hpre|repeat constructor].
Qed.

(** The theorem on [init app] with a user who wants the node: the path the
    download returned is the one in the builder at the end. *)
Lemma node_path_recorded_witness :
  exists p,
    Init.plan Examples.appHost Examples.plainLib (Init.mkFlags false None)
      (Init.mkAnswers Examples.newContract Examples.defaultAnswers true) "app" = Ok p /\
    Config.node_localPath (Init.configBuilder p) = JStr "".
Proof.
  destruct (Init.plan Examples.appHost Examples.plainLib (Init.mkFlags false None)
              (Init.mkAnswers Examples.newContract Examples.defaultAnswers true) "app")
    as [p|] eqn:Hp; [|discriminate].
  exists p. split; [reflexivity|].
  refine (proj1 (node_path_recorded Examples.appHost Examples.plainLib (Init.mkFlags false None)
                   (Init.mkAnswers Examples.newContract Examples.defaultAnswers true) "app" p
                   (list Init.InitOp) (Examples.recordingWorld Examples.nothingFails) [] Hp _)).
  injection Hp as <-. vm_compute. reflexivity.
Defined.

(** ** Failures before the loop *)

(** When the discovery of the candidates throws: one of its globs is
    rejected, or no test directory is detected. *)
Lemma candidatesFor_throws (host : Host) (c : string) (ans : Init.ConvertAnswers) (e : exn) :
  let contractsDirs :=
    Init.getManualPaths "contracts" (fst (Init.contractsDirectories ans))
      (snd (Init.contractsDirectories ans)) [] in
  let cratesDirs :=
    if Init.shouldSpecifyCratesDir ans
    then Init.getManualPaths "crates" (fst (Init.cratesDirectories ans))
           (snd (Init.cratesDirectories ans)) []
    else [] in
  Init.candidatesFor host c ans = Throw e <->
  Init.getCopyCandidatesList host c contractsDirs cratesDirs = Throw e \/
  ((exists l, Init.getCopyCandidatesList host c contractsDirs cratesDirs = Ok l) /\
   (Init.detectTests host c ans = Throw e \/
    exists d, Init.detectTests host c ans = Ok (Some d) /\
              d <> "" /\ pathExists host d = true /\
              Init.getDirsAndFiles host c [d] = Throw e)).
Proof.
  cbv zeta. unfold Init.candidatesFor.
  destruct (Init.getCopyCandidatesList host c _ _) as [l|e1]; simpl.
  2:{ split; [intros [= ->]; now left|]. intros [[= ->]|[[l [=]] _]]. reflexivity. }
  destruct (Init.detectTests host c ans) as [[d|]|e2]; simpl.
  - destruct (String.eqb_spec d "") as [->|Hd]; simpl.
    + split; [discriminate|]. intros [[=]|[_ [[=]|(d & [= <-] & Hd & _)]]]. now destruct Hd.
    + destruct (pathExists host d) eqn:Hex; simpl.
      * destruct (Init.getDirsAndFiles host c [d]) as [ts|e3] eqn:Hts; simpl.
        -- split; [discriminate|].
           intros [[=]|[_ [[=]|(d' & [= <-] & _ & _ & Ht)]]]. congruence.
        -- split.
           ++ intros [= ->]. right. split; [eauto|]. right. exists d. auto.
           ++ intros [[=]|[_ [[=]|(d' & [= <-] & _ & _ & Ht)]]]. congruence.
      * split; [discriminate|].
        intros [[=]|[_ [[=]|(d' & [= <-] & _ & Hex' & _)]]]. congruence.
  - split; [discriminate|]. intros [[=]|[_ [[=]|(d & [=] & _)]]].
  - split.
    + intros [= ->]. right. split; [eauto|]. now left.
    + intros [[=]|[_ [[= ->]|(d & [=] & _)]]]. reflexivity.
Qed.

(** X16. In a run whose flags are parsed, whose templates are listed and
    whose prompts are answered as given, [run] throws without having run a
    task exactly in these cases, in this order: the
    check of the project directory throws; or, in the convert flow only,
    the check of the source project throws, or the discovery of the
    candidates does (a glob is rejected, or no test directory is detected),
    or the resolution of the module names of the confirmed candidates does,
    or the root manifest of the source project cannot be read or given its
    members. In the generate flow a run that passes the directory check
    always reaches the loop. *)
Theorem run_fails_before_loop (W : Type) (host : Host) (wd : Init.World W) (lib : Init.Lib)
    (flags : Init.Flags) (ans : Init.Answers) (projectName : string) (w : W) (e : exn) :
  let projectPath := resolve host (cwd host) projectName in
  (Init.run W host wd lib flags ans projectName w = Init.Thrown W e <->
   Init.checkProjectDir host lib projectName projectPath = Throw e \/
   (Init.checkProjectDir host lib projectName projectPath = Ok tt /\
    exists c,
      Init.convertRequested flags = Some c /\
      (Init.checkExistingProject host lib c = Throw e \/
       (Init.checkExistingProject host lib c = Ok tt /\
        (Init.candidatesFor host c (Init.convertAnswers ans) = Throw e \/
         exists candidates,
           Init.candidatesFor host c (Init.convertAnswers ans) = Ok candidates /\
           (Init.confirmedCopyListFor host (Init.confirmed (Init.convertAnswers ans)) candidates
            = Throw e \/
            ((exists r, Init.confirmedCopyListFor host (Init.confirmed (Init.convertAnswers ans))
                          candidates = Ok r) /\
             Init.rootTomlFor host c = Throw e))))))) /\
  (forall c,
      Init.candidatesFor host c (Init.convertAnswers ans) = Throw e <->
      Init.getCopyCandidatesList host c
        (Init.getManualPaths "contracts" (fst (Init.contractsDirectories (Init.convertAnswers ans)))
           (snd (Init.contractsDirectories (Init.convertAnswers ans))) [])
        (if Init.shouldSpecifyCratesDir (Init.convertAnswers ans)
         then Init.getManualPaths "crates" (fst (Init.cratesDirectories (Init.convertAnswers ans)))
                (snd (Init.cratesDirectories (Init.convertAnswers ans))) []
         else []) = Throw e \/
      ((exists l,
           Init.getCopyCandidatesList host c
             (Init.getManualPaths "contracts"
                (fst (Init.contractsDirectories (Init.convertAnswers ans)))
                (snd (Init.contractsDirectories (Init.convertAnswers ans))) [])
             (if Init.shouldSpecifyCratesDir (Init.convertAnswers ans)
              then Init.getManualPaths "crates"
                     (fst (Init.cratesDirectories (Init.convertAnswers ans)))
                     (snd (Init.cratesDirectories (Init.convertAnswers ans))) []
              else []) = Ok l) /\
       (Init.detectTests host c (Init.convertAnswers ans) = Throw e \/
        exists d, Init.detectTests host c (Init.convertAnswers ans) = Ok (Some d) /\
                  d <> "" /\ pathExists host d = true /\
                  Init.getDirsAndFiles host c [d] = Throw e))).
Proof.
  cbv zeta. split; [|intros c; apply candidatesFor_throws].
  unfold Init.run.
  destruct (Init.checkProjectDir host lib projectName _) as [[]|e0].
  2:{ split; [intros [= ->]; now left|].
      intros [[= ->]|[[=] _]]. reflexivity. }
  unfold Init.plan.
  destruct (Init.convertRequested flags) as [c|].
  2:{ simpl. split; [discriminate|].
      intros [[=]|(_ & c & [=] & _)]. }
  unfold Init.convert.
  destruct (Init.checkExistingProject host lib c) as [[]|e1] eqn:E1; simpl.
  2:{ split.
      - intros [= ->]. right. split; [reflexivity|]. exists c. rewrite E1. auto.
      - intros [[=]|(_ & c' & [= <-] & H)]. rewrite E1 in H.
        destruct H as [[= ->]|([=] & _)]. reflexivity. }
  destruct (Init.candidatesFor host c (Init.convertAnswers ans)) as [candidates|e2] eqn:E2; simpl.
  2:{ split.
      - intros [= ->]. right. split; [reflexivity|]. exists c. rewrite E1, E2. auto.
      - intros [[=]|(_ & c' & [= <-] & H)]. rewrite E1, E2 in H.
        destruct H as [[=]|(_ & [[= ->]|(x & [=] & _)])]. reflexivity. }
  destruct (Init.confirmedCopyListFor host _ candidates) as [[confirmed ws]|e3] eqn:E3; simpl.
  2:{ split.
      - intros [= ->]. right. split; [reflexivity|]. exists c. rewrite E1, E2.
        split; [reflexivity|]. right. split; [reflexivity|]. right.
        exists candidates. split; [reflexivity|]. left. exact E3.
      - intros [[=]|(_ & c' & [= <-] & H)]. rewrite E1, E2 in H.
        destruct H as [[=]|(_ & [[=]|(x & [= <-] & H)])]. rewrite E3 in H.
        destruct H as [[= ->]|((r & [=]) & _)]. reflexivity. }
  destruct (Init.rootTomlFor host c) as [rootToml|e4] eqn:E4; simpl.
  2:{ split.
      - intros [= ->]. right. split; [reflexivity|]. exists c. rewrite E1, E2, E4.
        split; [reflexivity|]. right. split; [reflexivity|]. right.
        exists candidates. split; [reflexivity|]. right. rewrite E3. split; [eauto|reflexivity].
      - intros [[=]|(_ & c' & [= <-] & H)]. rewrite E1, E2, E4 in H.
        destruct H as [[=]|(_ & [[=]|(x & [= <-] & H)])]. rewrite E3 in H.
        destruct H as [[=]|(_ & [= ->])]. reflexivity. }
  split.
  - destruct (pathExists host _); simpl; discriminate.
  - intros [[=]|(_ & c' & [= <-] & H)]. rewrite E1, E2, E4 in H.
    destruct H as [[=]|(_ & [[=]|(x & [= <-] & H)])]. rewrite E3 in H.
    destruct H as [[=]|(_ & [=])].
Qed.

(** ** The contract entries of the configuration *)

(** The copy task of a planned queue is the one [convert] pushes, with the
    confirmed list. *)
Lemma plan_copy_task (host : Host) (lib : Init.Lib) (flags : Init.Flags) (ans : Init.Answers)
    (projectName : string) (p : Init.Plan) (t : Init.InitTask)
    (cl : Candidates.CopyCandidates) (pp : string) :
  Init.plan host lib flags ans projectName = Ok p ->
  In t (Init.taskQueue p) ->
  Executor.task t = Init.CopyWorkspaceContracts cl pp ->
  exists c candidates ws,
    Init.convertRequested flags = Some c /\
    Init.candidatesFor host c (Init.convertAnswers ans) = Ok candidates /\
    Init.confirmedCopyListFor host (Init.confirmed (Init.convertAnswers ans)) candidates
    = Ok (cl, ws) /\
    t = Plans.copyContractsTask cl (resolve host (cwd host) projectName) /\
    pp = resolve host (cwd host) projectName.
Proof.
  intros H Hin Htask.
  destruct (Init.convertRequested flags) as [c|] eqn:Hc.
  - destruct (plan_convert _ _ _ _ _ _ _ H Hc)
      as (candidates & confirmed & ws & rootToml & _ & Hcand & Hconf & _ & Hq & _).
    exists c, candidates, ws. split; [reflexivity|]. split; [exact Hcand|].
    rewrite Hq in Hin. unfold Plans.convertTasks, Plans.closingTasks in Hin.
    destruct (pathExists host _), (negb (Init.swanky_node flags) && Init.useSwankyNode ans);
      simpl in Hin;
      repeat (destruct Hin as [<-|Hin];
              [try discriminate; injection Htask as <- <-; auto|]);
      destruct Hin.
  - exfalso. destruct (plan_generate _ _ _ _ _ _ H Hc) as (Hq & _).
    rewrite Hq in Hin. unfold Plans.closingTasks in Hin.
    destruct (negb (Init.swanky_node flags) && Init.useSwankyNode ans);
      simpl in Hin;
      repeat (destruct Hin as [<-|Hin]; [discriminate|]);
      destruct Hin.
Qed.

(** X17. The contract entries of the configuration a conversion plans:
    under a name other than [__proto__], the entry of the last confirmed
    contract of that name, and no entry when no confirmed contract has the
    name; under [__proto__], no entry of its own, even when a confirmed
    contract has that name. The confirmed contracts are those of the list
    the one copy task of the queue is given: every contract configured is
    copied, and every contract copied is configured unless it is named
    [__proto__]. *)
Theorem configured_contracts_are_copied (host : Host) (lib : Init.Lib) (flags : Init.Flags)
    (ans : Init.Answers) (projectName c : string) (p : Init.Plan) :
  Init.plan host lib flags ans projectName = Ok p ->
  Init.convertRequested flags = Some c ->
  exists candidates confirmed ws,
    Init.candidatesFor host c (Init.convertAnswers ans) = Ok candidates /\
    Init.confirmedCopyListFor host (Init.confirmed (Init.convertAnswers ans)) candidates
    = Ok (confirmed, ws) /\
    (forall k,
        Config.contracts (Init.configBuilder p) !! k =
        if String.eqb k "__proto__" then None
        else Init.contractEntry <$>
               last (List.filter (fun e => String.eqb (name e) k)
                       (Candidates.contracts confirmed))) /\
    (forall t cl pp, In t (Init.taskQueue p) ->
                     Executor.task t = Init.CopyWorkspaceContracts cl pp ->
                     cl = confirmed /\ pp = resolve host (cwd host) projectName) /\
    In (Plans.copyContractsTask confirmed (resolve host (cwd host) projectName))
      (Init.taskQueue p).
Proof.
  intros H Hc.
  destruct (plan_convert _ _ _ _ _ _ _ H Hc)
    as (candidates & confirmed & ws & rootToml & _ & Hcand & Hconf & _ & Hq & Hb).
  exists candidates, confirmed, ws. split; [exact Hcand|]. split; [exact Hconf|].
  split; [|split].
  - intros k. rewrite Hb, lookup_addContracts.
    destruct (String.eqb k "__proto__"); [apply lookup_empty|].
    destruct (last _); [reflexivity|apply lookup_empty].
  - intros t cl pp Hin Htask.
    destruct (plan_copy_task _ _ _ _ _ _ _ _ _ H Hin Htask)
      as (c' & candidates' & ws' & Hc' & Hcand' & Hconf' & _ & Hpp).
    split; [|exact Hpp]. congruence.
  - rewrite Hq. right. right. left. reflexivity.
Qed.

(** The theorem on the conversion of the example project: the contract
    directory is configured under its name, with the name its manifest
    declares. *)
Lemma configured_contracts_are_copied_witness :
  exists p,
    Init.plan MoreExamples.sourceHost Examples.plainLib (Init.mkFlags true (Some "/src"))
      (MoreExamples.convertingAnswers (fun _ => true)) "app" = Ok p /\
    (Config.moduleName <$> Config.contracts (Init.configBuilder p) !! "flipper")
    = Some (JStr "flipper_contract").
Proof.
  destruct (Init.plan MoreExamples.sourceHost Examples.plainLib (Init.mkFlags true (Some "/src"))
              (MoreExamples.convertingAnswers (fun _ => true)) "app") as [p|] eqn:Hp.
  - exists p. split; [reflexivity|].
    destruct (configured_contracts_are_copied _ _ _ _ _ "/src" _ Hp eq_refl)
      as (candidates & confirmed & ws & Hcand & Hl & Hk & _).
    rewrite Hk. vm_compute in Hcand. injection Hcand as <-.
    vm_compute in Hl. injection Hl as <- _. reflexivity.
  - vm_compute in Hp. discriminate.
Defined.

(** ** The workspace table of the root manifest *)

(** What lines 375-379 leave of the [workspace] table they were given. *)
Lemma rootTomlFor_workspace_keys (host : Host) (pathToExistingProject : string)
    (toml rootToml : gmap string jsval) (w : jsval) (k : string) :
  pathExists host (resolve host pathToExistingProject "Cargo.toml") = true ->
  readToml host (resolve host pathToExistingProject "Cargo.toml") = Ok toml ->
  toml !! "workspace" = Some w ->
  isObject w = true ->
  Init.rootTomlFor host pathToExistingProject = Ok rootToml ->
  k <> "members" ->
  getProp (default JUndefined (rootToml !! "workspace")) k = getProp w k.
Proof.
  intros Hex Hread Hw Hobj. unfold Init.rootTomlFor, Init.readRootCargoToml.
  rewrite Hex, Hread. simpl. rewrite Hw. simpl.
  assert (truthy w = true) as -> by (destruct w; try discriminate; reflexivity).
  simpl. unfold Init.assignMembers. rewrite Hw. simpl.
  destruct w; try discriminate; simpl; intros [= <-] Hk;
    rewrite lookup_insert_eq; simpl; now rewrite lookup_insert_ne.
Qed.

(** X18. Of the [workspace] table (or any object) of a root manifest that
    was read, only [members] changes: every other key of the table the
    source project had ([resolver], [exclude], [dependencies], ...) is, with
    its value, in the manifest that the task writing [Cargo.toml] is
    planned with and hands to the writer. *)
Theorem workspace_table_keeps_other_keys (host : Host) (lib : Init.Lib) (flags : Init.Flags)
    (ans : Init.Answers) (projectName c : string) (p : Init.Plan)
    (toml : gmap string jsval) (w : jsval) :
  Init.plan host lib flags ans projectName = Ok p ->
  Init.convertRequested flags = Some c ->
  pathExists host (resolve host c "Cargo.toml") = true ->
  readToml host (resolve host c "Cargo.toml") = Ok toml ->
  toml !! "workspace" = Some w ->
  isObject w = true ->
  exists rootToml q1 q2,
    Init.taskQueue p =
    q1 ++ Plans.writeCargoTomlTask rootToml (resolve host (cwd host) projectName) :: q2 /\
    Forall (fun t => Plans.is_WriteCargoToml (Executor.task t) = false) (q1 ++ q2) /\
    (forall (W : Type) (wd : Init.World W) (s : Init.InitState W),
        Init.world
          (fst (Init.perform W host wd
                  (Init.WriteCargoToml rootToml (resolve host (cwd host) projectName)) s)) =
        fst (Init.outputToml wd
               (resolve host (resolve host (cwd host) projectName) "Cargo.toml")
               rootToml (Init.world s))) /\
    forall k, k <> "members" ->
              getProp (default JUndefined (rootToml !! "workspace")) k = getProp w k.
Proof.
  intros Hplan Hc Hex Hread Hw Hobj.
  destruct (plan_writes_rootToml _ _ _ _ _ _ _ Hplan Hc) as (rootToml & q1 & q2 & Hroot & Hq & Hn).
  exists rootToml, q1, q2. split; [exact Hq|]. split; [exact Hn|].
  split; [intros W wd s; apply perform_world_WriteCargoToml|].
  intros k Hk. now apply (rootTomlFor_workspace_keys host c toml rootToml w k).
Qed.

(** The theorem on the conversion of a project whose workspace table has a
    [resolver]. *)
Lemma workspace_table_keeps_other_keys_witness :
  exists p rootToml q1 q2,
    Init.plan MoreExamples.resolverHost Examples.plainLib (Init.mkFlags true (Some "/src"))
      (MoreExamples.convertingAnswers (fun _ => true)) "app" = Ok p /\
    Init.taskQueue p = q1 ++ Plans.writeCargoTomlTask rootToml "/work/app" :: q2 /\
    getProp (default JUndefined (rootToml !! "workspace")) "resolver" = JStr "2".
Proof.
  destruct (Init.plan MoreExamples.resolverHost Examples.plainLib (Init.mkFlags true (Some "/src"))
              (MoreExamples.convertingAnswers (fun _ => true)) "app") as [p|] eqn:Hp;
    [|vm_compute in Hp; discriminate].
  destruct (workspace_table_keeps_other_keys MoreExamples.resolverHost Examples.plainLib
              (Init.mkFlags true (Some "/src")) (MoreExamples.convertingAnswers (fun _ => true))
              "app" "/src" p MoreExamples.resolverToml
              (JObj {[ "members" := JArray [JStr "flipper"]; "resolver" := JStr "2" ]})
              Hp eq_refl eq_refl eq_refl eq_refl eq_refl)
    as (rootToml & q1 & q2 & Hq & _ & _ & Hk).
  exists p, rootToml, q1, q2. split; [reflexivity|]. split; [exact Hq|].
  rewrite Hk by discriminate. reflexivity.
Defined.

(** ** The workspace materializer *)

Section MaterializerFacts.

Variable W : Type.
Variable host : Host.
Variable join : string -> string -> string.
Variable fs : Materializer.FsCall -> W -> W * result unit.
Variable existsIn : string -> W -> bool.

#[local] Abbreviation performCalls := (Materializer.performCalls W fs).
#[local] Abbreviation andThen := (Materializer.andThen W).
#[local] Abbreviation groupCalls := (Materializer.groupCalls host join).

Lemma performCalls_app (a b : list Materializer.FsCall) (w : W) :
  performCalls (a ++ b) w = andThen (performCalls a) (performCalls b) w.
Proof.
  revert w. induction a as [|c a IH]; intros w; unfold Materializer.andThen in *; simpl.
  - destruct (performCalls b w) as [[w2 made] r]. reflexivity.
  - destruct (fs c w) as [w1 [[]|e]]; [|reflexivity].
    rewrite IH. destruct (performCalls a w1) as [[w2 made] [[]|e]]; [|reflexivity].
    destruct (performCalls b w2) as [[w3 made'] r]. reflexivity.
Qed.

Lemma andThen_assoc (a b c : W -> W * list Materializer.FsCall * result unit) (w : W) :
  andThen a (andThen b c) w = andThen (andThen a b) c w.
Proof.
  unfold Materializer.andThen.
  destruct (a w) as [[w1 m1] [[]|e]]; [|reflexivity].
  destruct (b w1) as [[w2 m2] [[]|e]]; [|reflexivity].
  destruct (c w2) as [[w3 m3] r]. now rewrite app_assoc.
Qed.

Lemma copyEntries_calls (destDir : string) (entries : list PathEntry) (w : W) :
  Materializer.copyEntries W join fs destDir entries w =
  performCalls (map (fun entry => Materializer.Copy (path entry) (join destDir (name entry)))
                  entries) w.
Proof.
  revert w. induction entries as [|entry rest IH]; intros w; simpl; [reflexivity|].
  destruct (fs _ w) as [w1 [[]|e]]; [|reflexivity]. now rewrite IH.
Qed.

Lemma copyGroup_calls (projectPath group : string) (entries : list PathEntry) (w : W) :
  Materializer.copyGroup W host join fs projectPath group (Some entries) w =
  performCalls (groupCalls projectPath group entries) w.
Proof.
  unfold Materializer.copyGroup, Materializer.groupCalls. simpl.
  destruct (fs _ w) as [w1 [[]|e]]; [|reflexivity]. now rewrite copyEntries_calls.
Qed.

Lemma copyGroup_undefined (projectPath group : string) (w : W) :
  Materializer.copyGroup W host join fs projectPath group None w =
  andThen (performCalls [Materializer.EnsureDir (resolve host projectPath group)])
    (Materializer.notIterable W) w.
Proof.
  unfold Materializer.copyGroup, Materializer.andThen, Materializer.notIterable. simpl.
  destruct (fs _ w) as [w1 [[]|e]]; reflexivity.
Qed.

Lemma andThen_ext (a a' b b' : W -> W * list Materializer.FsCall * result unit) (w : W) :
  a w = a' w -> (forall w', b w' = b' w') -> andThen a b w = andThen a' b' w.
Proof.
  intros Ha Hb. unfold Materializer.andThen. rewrite Ha.
  destruct (a' w) as [[w1 m1] [[]|e]]; [|reflexivity]. now rewrite Hb.
Qed.

(** The three turns of the outer loop on groups that are there, and on a
    [tests] group that is not. *)
Lemma three_groups_calls (cs cr ts : list PathEntry) (projectPath : string) (w : W) :
  andThen (Materializer.copyGroup W host join fs projectPath "contracts" (Some cs))
    (andThen (Materializer.copyGroup W host join fs projectPath "crates" (Some cr))
       (Materializer.copyGroup W host join fs projectPath "tests" (Some ts))) w
  = performCalls
      (groupCalls projectPath "contracts" cs ++ groupCalls projectPath "crates" cr
       ++ groupCalls projectPath "tests" ts) w.
Proof.
  rewrite performCalls_app.
  apply andThen_ext; [apply copyGroup_calls|]. intros w1.
  rewrite performCalls_app.
  apply andThen_ext; [apply copyGroup_calls|]. intros w2. apply copyGroup_calls.
Qed.

Lemma three_groups_undefined (cs cr : list PathEntry) (projectPath : string) (w : W) :
  andThen (Materializer.copyGroup W host join fs projectPath "contracts" (Some cs))
    (andThen (Materializer.copyGroup W host join fs projectPath "crates" (Some cr))
       (Materializer.copyGroup W host join fs projectPath "tests" None)) w
  = andThen
      (performCalls
         (groupCalls projectPath "contracts" cs ++ groupCalls projectPath "crates" cr
          ++ [Materializer.EnsureDir (resolve host projectPath "tests")]))
      (Materializer.notIterable W) w.
Proof.
  transitivity
    (andThen (performCalls (groupCalls projectPath "contracts" cs))
       (andThen (performCalls (groupCalls projectPath "crates" cr))
          (andThen (performCalls [Materializer.EnsureDir (resolve host projectPath "tests")])
             (Materializer.notIterable W))) w).
  - apply andThen_ext; [apply copyGroup_calls|]. intros w1.
    apply andThen_ext; [apply copyGroup_calls|]. intros w2.
    apply copyGroup_undefined.
  - rewrite !andThen_assoc.
    apply andThen_ext; [|reflexivity].
    rewrite app_assoc, performCalls_app.
    apply andThen_ext; [|reflexivity]. symmetry. apply performCalls_app.
Qed.

(** The calls made are planned calls, in order; all of them when the
    sequence returns. *)
Lemma performCalls_made (calls : list Materializer.FsCall) (w : W) :
  snd (fst (performCalls calls w)) `prefix_of` calls /\
  (snd (performCalls calls w) = Ok tt -> snd (fst (performCalls calls w)) = calls) /\
  ((forall c w', snd (fs c w') = Ok tt) ->
   snd (fst (performCalls calls w)) = calls /\ snd (performCalls calls w) = Ok tt).
Proof.
  revert w. induction calls as [|c calls IH]; intros w; simpl.
  - split; [reflexivity|]. split; [reflexivity|]. now split.
  - pose proof (fun H : forall c w', snd (fs c w') = Ok tt => H c w) as Hc.
    destruct (fs c w) as [w1 [[]|e]]; simpl in *.
    + specialize (IH w1). destruct (performCalls calls w1) as [[w2 made] r]. simpl in *.
      destruct IH as (Hp & Hok & Hall). split; [now apply prefix_cons|]. split.
      * intros Hr. f_equal. now apply Hok.
      * intros H. destruct (Hall H) as (-> & ->). now split.
    + split; [apply prefix_cons, prefix_nil|]. split; [discriminate|].
      intros H. specialize (Hc H). discriminate.
Qed.

(** X19. The materializer is one sequence of awaited calls that stops at
    the first throw: for [contracts], then [crates], then [tests], the
    group's directory under the project is ensured (also for an empty
    group) and then every entry of the group is copied to its name in that
    directory, in order. The module name and the group recorded in an entry
    play no part. On a copy list without [tests] it throws a [TypeError],
    after the contracts and crates were copied and the [tests] directory
    ensured. *)
Theorem materializer_call_sequence (copyList : Candidates.CopyCandidates) (projectPath : string)
    (w : W) :
  Materializer.copyWorkspaceContracts W host join fs copyList projectPath w =
  match Candidates.tests copyList with
  | Some ts =>
      performCalls
        (groupCalls projectPath "contracts" (Candidates.contracts copyList)
         ++ groupCalls projectPath "crates" (Candidates.crates copyList)
         ++ groupCalls projectPath "tests" ts) w
  | None =>
      andThen
        (performCalls
           (groupCalls projectPath "contracts" (Candidates.contracts copyList)
            ++ groupCalls projectPath "crates" (Candidates.crates copyList)
            ++ [Materializer.EnsureDir (resolve host projectPath "tests")]))
        (Materializer.notIterable W) w
  end.
Proof.
  unfold Materializer.copyWorkspaceContracts.
  destruct (Candidates.tests copyList) as [ts|].
  - apply three_groups_calls.
  - apply three_groups_undefined.
Qed.

(** X20. What the materializer has done when it stops. The calls made are
    an initial part of the planned sequence, so nothing is copied after a
    throw. A run that returns has made them all, and its copy list had
    [tests]. On a file system that never fails the calls are all made, and
    the run returns exactly when the copy list has [tests]. *)
Theorem materializer_stops_at_throw (copyList : Candidates.CopyCandidates)
    (projectPath : string) (w : W) :
  let out := Materializer.copyWorkspaceContracts W host join fs copyList projectPath w in
  let planned :=
    groupCalls projectPath "contracts" (Candidates.contracts copyList)
    ++ groupCalls projectPath "crates" (Candidates.crates copyList)
    ++ groupCalls projectPath "tests" (default [] (Candidates.tests copyList)) in
  snd (fst out) `prefix_of` planned /\
  (snd out = Ok tt -> snd (fst out) = planned /\ is_Some (Candidates.tests copyList)) /\
  ((forall c w', snd (fs c w') = Ok tt) ->
   snd (fst out) = planned /\ (snd out = Ok tt <-> is_Some (Candidates.tests copyList))).
Proof.
  cbv zeta. unfold Materializer.copyWorkspaceContracts.
  destruct (Candidates.tests copyList) as [ts|] eqn:Hts.
  - rewrite three_groups_calls.
    simpl default.
    destruct (performCalls_made
                (groupCalls projectPath "contracts" (Candidates.contracts copyList)
                 ++ groupCalls projectPath "crates" (Candidates.crates copyList)
                 ++ groupCalls projectPath "tests" ts) w) as (Hp & Hok & Hall).
    split; [exact Hp|]. split.
    + intros Hr. split; [now apply Hok|eauto].
    + intros H. destruct (Hall H) as (Hm & Hr). split; [exact Hm|]. split; eauto.
  - rewrite three_groups_undefined.
    simpl default.
    destruct (performCalls_made
                (groupCalls projectPath "contracts" (Candidates.contracts copyList)
                 ++ groupCalls projectPath "crates" (Candidates.crates copyList)
                 ++ groupCalls projectPath "tests" []) w) as (Hp & Hok & Hall).
    unfold Materializer.andThen, Materializer.notIterable.
    destruct (performCalls _ w) as [[w1 m1] [[]|e]]; simpl in *.
    + rewrite app_nil_r. split; [exact Hp|]. split; [discriminate|].
      intros H. destruct (Hall H) as (Hm & _). split; [exact Hm|].
      split; [discriminate|]. intros [x [=]].
    + split; [exact Hp|]. split; [discriminate|].
      intros H. destruct (Hall H) as (_ & [=]).
Qed.

End MaterializerFacts.

(** The copy list that leaves the resolver has its three groups. *)
Lemma confirmed_has_tests (host : Host) (sel : nat -> bool) (c confirmed : Candidates.CopyCandidates)
    (ws : list string) :
  Init.confirmedCopyListFor host sel c = Ok (confirmed, ws) ->
  is_Some (Candidates.tests confirmed).
Proof.
  unfold Init.confirmedCopyListFor, Candidates.resolve_candidates.
  destruct (Candidates.resolve_group host _) as [[cs w1]|]; simpl; [|discriminate].
  destruct (Candidates.resolve_group host _) as [[cr w2]|]; simpl; [|discriminate].
  intros [= <- _]. simpl. eauto.
Qed.

(** X21. The copy list of every copy task [run] plans has its [tests]
    group, so the iteration over it never meets [undefined]: on a file
    system that does not fail the task returns. Only a conversion plans
    such a task. *)
Theorem planned_copy_returns (host : Host) (lib : Init.Lib) (flags : Init.Flags)
    (ans : Init.Answers) (projectName : string) (p : Init.Plan) (t : Init.InitTask)
    (cl : Candidates.CopyCandidates) (pp : string) :
  Init.plan host lib flags ans projectName = Ok p ->
  In t (Init.taskQueue p) ->
  Executor.task t = Init.CopyWorkspaceContracts cl pp ->
  is_Some (Init.convertRequested flags) /\
  is_Some (Candidates.tests cl) /\
  forall (W : Type) (join : string -> string -> string)
         (fs : Materializer.FsCall -> W -> W * result unit) (w : W),
    (forall c w', snd (fs c w') = Ok tt) ->
    snd (Materializer.copyWorkspaceContracts W host join fs cl pp w) = Ok tt.
Proof.
  intros Hplan Hin Htask.
  destruct (plan_copy_task _ _ _ _ _ _ _ _ _ Hplan Hin Htask)
    as (c & candidates & ws & Hc & _ & Hl & _ & _).
  destruct (confirmed_has_tests _ _ _ _ _ Hl) as [ts Hts].
  split; [rewrite Hc; eauto|]. split; [eauto|].
  intros W join fs w Hfs. unfold Materializer.copyWorkspaceContracts. rewrite Hts.
  rewrite three_groups_calls. now apply performCalls_made.
Qed.

(** The theorem on the conversion of the example project. *)
Lemma planned_copy_returns_witness :
  exists p cl,
    Init.plan MoreExamples.sourceHost Examples.plainLib (Init.mkFlags true (Some "/src"))
      (MoreExamples.convertingAnswers (fun _ => true)) "app" = Ok p /\
    In (Plans.copyContractsTask cl "/work/app") (Init.taskQueue p) /\
    is_Some (Candidates.tests cl).
Proof.
  destruct (Init.plan MoreExamples.sourceHost Examples.plainLib (Init.mkFlags true (Some "/src"))
              (MoreExamples.convertingAnswers (fun _ => true)) "app") as [p|] eqn:Hp.
  - pose proof Hp as Hq. vm_compute in Hq. injection Hq as <-.
    eexists _, _. split; [reflexivity|].
    assert (forall a b : Prop, a -> (a -> b) -> a /\ b) as Hand by tauto.
    apply Hand.
    + right. right. left. reflexivity.
    + intros Hin.
      exact (proj1 (proj2 (planned_copy_returns _ _ _ _ _ _ _ _ _ Hp Hin eq_refl))).
  - vm_compute in Hp. discriminate.
Defined.

(** ** The workspace files *)

Section WorkspaceFilesFacts.

Variable W : Type.
Variable host : Host.
Variable fs : Materializer.FsCall -> W -> W * result unit.
Variable existsIn : string -> W -> bool.

Lemma copyFiles_calls (pathToExistingProject projectPath : string) (fileList : list string)
    (w : W) :
  snd (fst (Materializer.copyFiles W host fs existsIn pathToExistingProject projectPath fileList w))
  `sublist_of`
  map (fun fileName => Materializer.Copy (resolve host pathToExistingProject fileName)
                         (resolve host projectPath fileName)) fileList.
Proof.
  revert w. induction fileList as [|f rest IH]; intros w; simpl; [constructor|].
  destruct (existsIn _ w).
  - destruct (fs _ w) as [w1 [[]|e]]; simpl.
    + specialize (IH w1). destruct (Materializer.copyFiles _ _ _ _ _ _ rest w1) as [[w2 calls] r].
      now apply sublist_skip.
    + apply sublist_skip, sublist_nil_l.
  - now apply sublist_cons.
Qed.

Lemma copyFiles_missing (pathToExistingProject projectPath : string) (fileList : list string)
    (w : W) :
  (forall f, In f fileList -> existsIn (resolve host pathToExistingProject f) w = false) ->
  Materializer.copyFiles W host fs existsIn pathToExistingProject projectPath fileList w
  = (w, [], Ok tt).
Proof.
  induction fileList as [|f rest IH]; intros H; simpl; [reflexivity|].
  rewrite (H f (or_introl eq_refl)). apply IH. intros f' Hf'. apply H. now right.
Qed.

(** X22. The task that copies the workspace files makes no call but copies
    of [rust-toolchain.toml] and [.rustfmt.toml] from the source project to
    the same name in the new one, each at most once and in this order. A
    file that is not in the source project is passed over without an
    error: when neither is there, the task returns and the file system is
    as it was. *)
Theorem workspace_files_copied (pathToExistingProject projectPath : string) (w : W) :
  let out :=
    Materializer.copyWorkspaceFiles W host fs existsIn pathToExistingProject projectPath w in
  snd (fst out) `sublist_of`
    [Materializer.Copy (resolve host pathToExistingProject "rust-toolchain.toml")
       (resolve host projectPath "rust-toolchain.toml");
     Materializer.Copy (resolve host pathToExistingProject ".rustfmt.toml")
       (resolve host projectPath ".rustfmt.toml")] /\
  (existsIn (resolve host pathToExistingProject "rust-toolchain.toml") w = false ->
   existsIn (resolve host pathToExistingProject ".rustfmt.toml") w = false ->
   out = (w, [], Ok tt)).
Proof.
  cbv zeta. unfold Materializer.copyWorkspaceFiles. split.
  - apply (copyFiles_calls pathToExistingProject projectPath Materializer.workspaceFiles w).
  - intros H1 H2. apply copyFiles_missing.
    intros f [<-|[<-|[]]]; assumption.
Qed.

End WorkspaceFilesFacts.

(** ** What the callbacks leave *)

Section CallbackFacts.

Variable W : Type.
Variable host : Host.
Variable wd : Init.World W.

(** No operation writes to the console of the command. *)
Lemma perform_console (op : Init.InitOp) (s : Init.InitState W) :
  Init.console (fst (Init.perform W host wd op s)) = Init.console s.
Proof.
  destruct op; simpl; try reflexivity.
  destruct (Init.outputToml wd _ _ _); reflexivity.
Qed.

(** A loop in which the tasks that log their result return nothing truthy
    leaves the console as it was. *)
Lemma run_loop_console (q : list Init.InitTask) (s : Init.InitState W) :
  Forall (fun t => Plans.logs_result t = true ->
                   forall s' v, snd (Init.perform W host wd (Executor.task t) s') = Ok v ->
                                truthy v = false) q ->
  Init.console (Executor.final (Executor.run_loop (Init.perform W host wd) (Init.invoke W) q s))
  = Init.console s.
Proof.
  intros Hq. revert s. induction Hq as [|t q Ht _ IH]; intros s; [reflexivity|].
  pose proof (perform_console (Executor.task t) s) as Hb.
  pose proof (fun H v => Ht H s v) as Hv.
  destruct (Init.perform W host wd (Executor.task t) s) as [s' [v|e]] eqn:Hp; simpl in Hb, Hv.
  - rewrite (run_loop_returns _ _ _ _ _ t q s s' v Hp). cbv zeta. fields.
    rewrite IH, <- Hb. unfold Executor.after_task, Plans.logs_result in *.
    destruct (Executor.callback t) as [[|]|]; [| |reflexivity].
    + destruct (truthy v); reflexivity.
    + now rewrite (Hv eq_refl v eq_refl).
  - destruct (Executor.fatal t) eqn:Hf.
    + rewrite (run_loop_fatal _ _ _ _ _ t q s s' e Hp Hf). fields. exact Hb.
    + rewrite (run_loop_continues _ _ _ _ _ t q s s' e Hp Hf). cbv zeta. fields.
      now rewrite IH.
Qed.

(** What a callback can change of the builder is the node path. *)
Lemma run_loop_builder_rest (q : list Init.InitTask) (s : Init.InitState W) :
  let b := Init.builder
             (Executor.final (Executor.run_loop (Init.perform W host wd) (Init.invoke W) q s)) in
  Config.accounts b = Config.accounts (Init.builder s) /\
  Config.networks b = Config.networks (Init.builder s) /\
  Config.node_polkadotPalletVersions b = Config.node_polkadotPalletVersions (Init.builder s) /\
  Config.node_supportedInk b = Config.node_supportedInk (Init.builder s).
Proof.
  cbv zeta. revert s. induction q as [|t q IH]; intros s; [now repeat split|].
  pose proof (perform_builder W host wd (Executor.task t) s) as Hb.
  destruct (Init.perform W host wd (Executor.task t) s) as [s' [v|e]] eqn:Hp; simpl in Hb.
  - rewrite (run_loop_returns _ _ _ _ _ t q s s' v Hp). cbv zeta. fields.
    destruct (IH (fst (Executor.after_task (Init.invoke W) t v s'))) as (-> & -> & -> & ->).
    rewrite <- Hb. unfold Executor.after_task.
    destruct (Executor.callback t) as [[|]|]; [| |now repeat split];
      destruct (truthy v); now repeat split.
  - destruct (Executor.fatal t) eqn:Hf.
    + rewrite (run_loop_fatal _ _ _ _ _ t q s s' e Hp Hf). fields. rewrite Hb.
      now repeat split.
    + rewrite (run_loop_continues _ _ _ _ _ t q s s' e Hp Hf). cbv zeta. fields.
      destruct (IH s') as (-> & -> & -> & ->). rewrite Hb. now repeat split.
Qed.

(** In such a loop the callbacks called are those that store the node
    path. *)
Lemma run_loop_callbacks_node (q : list Init.InitTask) (s : Init.InitState W) :
  Forall (fun t => Plans.logs_result t = true ->
                   forall s' v, snd (Init.perform W host wd (Executor.task t) s') = Ok v ->
                                truthy v = false) q ->
  Forall (fun cv => fst cv = Init.SetNodeLocalPath)
    (Executor.callbacks
       (Executor.trace (Executor.run_loop (Init.perform W host wd) (Init.invoke W) q s))).
Proof.
  intros Hq. revert s. induction Hq as [|t q Ht _ IH]; intros s; [constructor|].
  pose proof (fun H v => Ht H s v) as Hv.
  destruct (Init.perform W host wd (Executor.task t) s) as [s' [v|e]] eqn:Hp; simpl in Hv.
  - rewrite (run_loop_returns _ _ _ _ _ t q s s' v Hp). cbv zeta. fields.
    simpl. rewrite callbacks_app. apply Forall_app. split; [|apply IH].
    unfold Executor.after_task, Plans.logs_result in *.
    destruct (Executor.callback t) as [[|]|]; [| |constructor].
    + destruct (truthy v); repeat constructor.
    + rewrite (Hv eq_refl v eq_refl). constructor.
  - destruct (Executor.fatal t) eqn:Hf.
    + rewrite (run_loop_fatal _ _ _ _ _ t q s s' e Hp Hf). fields. constructor.
    + rewrite (run_loop_continues _ _ _ _ _ t q s s' e Hp Hf). cbv zeta. fields.
      simpl. apply IH.
Qed.

(** The tasks of a planned queue that log their result are copy tasks. *)
Lemma plan_logging_tasks (lib : Init.Lib) (flags : Init.Flags) (ans : Init.Answers)
    (projectName : string) (p : Init.Plan) :
  Init.plan host lib flags ans projectName = Ok p ->
  Forall (fun t => Plans.logs_result t = Plans.is_CopyWorkspaceContracts (Executor.task t))
    (Init.taskQueue p).
Proof.
  intros Hplan. destruct (plan_queue _ _ _ _ _ _ Hplan) as (flow & Hq & Hflow & _).
  rewrite Hq. constructor; [reflexivity|]. apply Forall_app. split.
  - eapply List.Forall_impl; [|exact Hflow]. now intros t (_ & _ & _ & H).
  - destruct (negb (Init.swanky_node flags) && Init.useSwankyNode ans); repeat constructor.
Qed.

(** The copy task resolves to [undefined] when it returns: its function is
    the materializer, which has no [return]. *)
Lemma perform_copy_undefined (cl : Candidates.CopyCandidates) (pp : string)
    (s : Init.InitState W) (v : jsval) :
  snd (Init.perform W host wd (Init.CopyWorkspaceContracts cl pp) s) = Ok v -> v = JUndefined.
Proof.
  simpl. destruct (snd (Materializer.copyWorkspaceContracts _ _ _ _ _ _ _)); simpl;
    [now intros [= <-]|discriminate].
Qed.

(** X23. The callback of the copy task is never called: the task runs the
    materializer, which returns no value, and the loop calls a callback on
    a truthy result only. So whatever the plan, whatever the world and
    however the run ends, nothing reaches the console of the command
    through a callback, and the only callback a trace can show is the one
    that stores the node path. *)
Theorem copy_result_never_logged (lib : Init.Lib) (flags : Init.Flags) (ans : Init.Answers)
    (projectName : string) (p : Init.Plan) (w : W) :
  Init.plan host lib flags ans projectName = Ok p ->
  let o := Executor.run_queue (Init.perform W host wd) (Init.invoke W) (Init.taskQueue p)
             (Init.mkInitState (Init.configBuilder p) [] w) in
  Init.console (Executor.final o) = [] /\
  Forall (fun cv => fst cv = Init.SetNodeLocalPath) (Executor.callbacks (Executor.trace o)) /\
  forall cl pp s v,
    snd (Init.perform W host wd (Init.CopyWorkspaceContracts cl pp) s) = Ok v -> v = JUndefined.
Proof.
  intros Hplan. cbv zeta.
  assert (Forall (fun t => Plans.logs_result t = true ->
                           forall s' v, snd (Init.perform W host wd (Executor.task t) s') = Ok v ->
                                        truthy v = false) (Init.taskQueue p)) as Hq.
  { eapply List.Forall_impl; [|exact (plan_logging_tasks _ _ _ _ _ Hplan)].
    intros t Ht Hl s' v Hv. cbv beta in Ht. rewrite Hl in Ht.
    destruct (Executor.task t) as [| | | |cl pp| | | | | | |]; try discriminate.
    now rewrite (perform_copy_undefined cl pp s' v Hv). }
  rewrite run_queue_final, run_queue_callbacks. split; [|split].
  - now rewrite run_loop_console.
  - now apply run_loop_callbacks_node.
  - apply perform_copy_undefined.
Qed.

End CallbackFacts.

(** The theorem on the conversion of the example project in the recording
    world. *)
Lemma copy_result_never_logged_witness :
  exists p,
    Init.plan MoreExamples.sourceHost Examples.plainLib (Init.mkFlags true (Some "/src"))
      (MoreExamples.convertingAnswers (fun _ => true)) "app" = Ok p /\
    Init.console
      (Executor.final
         (Executor.run_queue
            (Init.perform (list Init.InitOp) MoreExamples.sourceHost
               (Examples.recordingWorld Examples.nothingFails))
            (Init.invoke (list Init.InitOp)) (Init.taskQueue p)
            (Init.mkInitState (Init.configBuilder p) [] []))) = [].
Proof.
  destruct (Init.plan MoreExamples.sourceHost Examples.plainLib (Init.mkFlags true (Some "/src"))
              (MoreExamples.convertingAnswers (fun _ => true)) "app") as [p|] eqn:Hp.
  - exists p. split; [reflexivity|].
    exact (proj1 (copy_result_never_logged (list Init.InitOp) MoreExamples.sourceHost
                    (Examples.recordingWorld Examples.nothingFails) Examples.plainLib
                    (Init.mkFlags true (Some "/src"))
                    (MoreExamples.convertingAnswers (fun _ => true)) "app" p [] Hp)).
  - vm_compute in Hp. discriminate.
Defined.

(** X24. The accounts, the networks and the versions of the configuration
    are fixed by planning and by nothing else: every plan has the two
    development accounts [alice] and [bob], in this order, and the four
    networks and the versions the command starts with; no operation and no
    callback of a run changes them. *)
Theorem accounts_and_networks_fixed (host : Host) (lib : Init.Lib) (flags : Init.Flags)
    (ans : Init.Answers) (projectName : string) (p : Init.Plan)
    (W : Type) (wd : Init.World W) (w : W) :
  Init.plan host lib flags ans projectName = Ok p ->
  let o := Executor.run_queue (Init.perform W host wd) (Init.invoke W) (Init.taskQueue p)
             (Init.mkInitState (Init.configBuilder p) [] w) in
  let b := Init.builder (Executor.final o) in
  map Config.alias (Config.accounts b) = ["alice"; "bob"] /\
  Config.accounts b = Init.devAccounts lib /\
  Config.networks b = Config.networks (Init.initialConfig lib) /\
  Config.node_polkadotPalletVersions b = Init.polkadotPalletVersions lib /\
  Config.node_supportedInk b = Init.supportedInk lib.
Proof.
  intros Hplan. cbv zeta. rewrite run_queue_final.
  destruct (run_loop_builder_rest W host wd (Init.taskQueue p)
              (Init.mkInitState (Init.configBuilder p) [] w)) as (-> & -> & -> & ->).
  simpl Init.builder.
  assert (Config.accounts (Init.configBuilder p) = Init.devAccounts lib /\
          Config.networks (Init.configBuilder p) = Config.networks (Init.initialConfig lib) /\
          Config.node_polkadotPalletVersions (Init.configBuilder p)
          = Init.polkadotPalletVersions lib /\
          Config.node_supportedInk (Init.configBuilder p) = Init.supportedInk lib)
    as (-> & -> & -> & ->); [|now repeat split].
  rewrite (plan_builder _ _ _ _ _ _ Hplan). now repeat split.
Qed.

(** The theorem on [init app] in a world where the git initialisation
    fails. *)
Lemma accounts_and_networks_fixed_witness :
  exists p,
    Init.plan Examples.appHost Examples.plainLib (Init.mkFlags true None) Examples.newProject "app"
    = Ok p /\
    map Config.alias
      (Config.accounts
         (Init.builder
            (Executor.final
               (Executor.run_queue
                  (Init.perform (list Init.InitOp) Examples.appHost
                     (Examples.recordingWorld Examples.gitFails))
                  (Init.invoke (list Init.InitOp)) (Init.taskQueue p)
                  (Init.mkInitState (Init.configBuilder p) [] [])))))
    = ["alice"; "bob"].
Proof.
  destruct (Init.plan Examples.appHost Examples.plainLib (Init.mkFlags true None)
              Examples.newProject "app") as [p|] eqn:Hp; [|discriminate].
  exists p. split; [reflexivity|].
  exact (proj1 (accounts_and_networks_fixed Examples.appHost Examples.plainLib
                  (Init.mkFlags true None) Examples.newProject "app" p (list Init.InitOp)
                  (Examples.recordingWorld Examples.gitFails) [] Hp)).
Defined.
